(** * event-driven-ns: the delivery pipeline, embedded and verified

    A shallow embedding of the Go notification pipeline
    (packages [domain], [postgres], [queue], [provider], [app], [http]) together
    with the properties of its delivery path, intake path, scheduler and
    handlers.

    Conventions of the embedding.
    - Go [string] is [string] (a byte sequence), [int] is [Z], a nullable
      pointer field is an [option].
    - [uuid.UUID] is the 128-bit value as [N]; [time.Time] is [Z].
    - PostgreSQL tables are finite maps keyed by their primary key.
    - Every statement sent to PostgreSQL and every write to Kafka may fail
      for reasons outside the program (connection loss, broker down); the
      world carries an oracle [faults] that decides, call by call, whether
      the next I/O call fails.
    - [uuid.NewV7], [uuid.New] and the provider are oracles of the world as
      well; [time.Now] and SQL [NOW()] read the world's [clock], which does
      not advance inside one operation. *)

From Stdlib Require Import ZArith NArith Lia Ascii String List.
From stdpp Require Import gmap strings list fin_maps sorting.

Local Open Scope string_scope.
Local Open Scope Z_scope.

(** ** Go errors: sentinel values, [fmt.Errorf("%w: ...")] and [errors.Is] *)

Module errors.

(** The [errors.New] values of package [domain]. *)
Inductive sentinel :=
| ErrInvalidChannel
| ErrInvalidRecipient
| ErrEmptyRecipient
| ErrEmptyContent
| ErrContentTooLong
| ErrInvalidPriority
| ErrInvalidStatusTransition
| ErrNotificationNotFound
| ErrBatchNotFound
| ErrBatchTooLarge
| ErrBatchEmpty
| ErrDuplicateIdempotencyKey
| ErrEmptyTemplateName
| ErrEmptyTemplateBody
| ErrInvalidTemplateBody
| ErrTemplateNotFound
| ErrDuplicateTemplateName
| ErrTemplateRenderFailed
| ErrProviderUnavailable
| ErrCircuitOpen.

#[global] Instance sentinel_eq_dec : EqDecision sentinel.
Proof. solve_decision. Defined.

(** A Go [error] value: a sentinel itself, a sentinel wrapped with [%w]
    and a detail text, a [*pgconn.PgError] of the driver, or another error
    of a library (uuid, io, kafka) that wraps no sentinel of the domain. *)
Inductive error :=
| Sentinel (s : sentinel)
| Wrapf (s : sentinel) (detail : string)
| PgError (code constraintName : string)
| Opaque (msg : string).

#[global] Instance error_eq_dec : EqDecision error.
Proof. solve_decision. Defined.

(** [errors.Is(err, target)] for a sentinel target. *)
Definition Is (err : error) (target : sentinel) : bool :=
  match err with
  | Sentinel s | Wrapf s _ => bool_decide (s = target)
  | PgError _ _ | Opaque _ => false
  end.

(** The texts given to [errors.New]. *)
Definition text (s : sentinel) : string :=
  match s with
  | ErrInvalidChannel => "invalid channel"
  | ErrInvalidRecipient => "invalid recipient"
  | ErrEmptyRecipient => "recipient is required"
  | ErrEmptyContent => "content is required"
  | ErrContentTooLong => "content exceeds character limit"
  | ErrInvalidPriority => "invalid priority"
  | ErrInvalidStatusTransition => "invalid status transition"
  | ErrNotificationNotFound => "notification not found"
  | ErrBatchNotFound => "batch not found"
  | ErrBatchTooLarge => "batch exceeds maximum size of 1000"
  | ErrBatchEmpty => "batch must contain at least one notification"
  | ErrDuplicateIdempotencyKey => "duplicate idempotency key"
  | ErrEmptyTemplateName => "template name is required"
  | ErrEmptyTemplateBody => "template body is required"
  | ErrInvalidTemplateBody => "invalid template body syntax"
  | ErrTemplateNotFound => "template not found"
  | ErrDuplicateTemplateName => "template name already exists"
  | ErrTemplateRenderFailed => "template render failed"
  | ErrProviderUnavailable => "delivery provider unavailable"
  | ErrCircuitOpen => "circuit breaker is open"
  end.

(** [err.Error()] *)
Definition Error (err : error) : string :=
  match err with
  | Sentinel s => text s
  | Wrapf s detail => text s +:+ ": " +:+ detail
  | PgError code constraintName => "ERROR: " +:+ constraintName +:+ " (SQLSTATE " +:+ code +:+ ")"
  | Opaque msg => msg
  end.

End errors.
Export errors.

(** ** Regular expressions of package [regexp], by derivatives *)

Module regexp.

Inductive re :=
| Empty
| Eps
| Cls (f : ascii → bool)
| Cat (r s : re)
| Alt (r s : re)
| Star (r : re).

Fixpoint nullable (r : re) : bool :=
  match r with
  | Empty => false
  | Eps => true
  | Cls _ => false
  | Cat r s => nullable r && nullable s
  | Alt r s => nullable r || nullable s
  | Star _ => true
  end.

Definition cat (r s : re) : re :=
  match r, s with
  | Empty, _ | _, Empty => Empty
  | Eps, _ => s
  | _, _ => Cat r s
  end.

Definition alt (r s : re) : re :=
  match r, s with
  | Empty, _ => s
  | _, Empty => r
  | _, _ => Alt r s
  end.

Fixpoint deriv (c : ascii) (r : re) : re :=
  match r with
  | Empty | Eps => Empty
  | Cls f => if f c then Eps else Empty
  | Cat r s =>
      if nullable r then alt (cat (deriv c r) s) (deriv c s)
      else cat (deriv c r) s
  | Alt r s => alt (deriv c r) (deriv c s)
  | Star r' => cat (deriv c r') (Star r')
  end.

(** [MatchString] for a pattern anchored with [^] and [$]. *)
Fixpoint MatchString (r : re) (s : string) : bool :=
  match s with
  | EmptyString => nullable r
  | String c s' => MatchString (deriv c r) s'
  end.

Definition plus (r : re) : re := Cat r (Star r).
Definition opt (r : re) : re := Alt r Eps.
Fixpoint times (n : nat) (r : re) : re :=
  match n with O => Eps | S n' => Cat r (times n' r) end.
(** [r{lo,hi}] with [hi = lo + extra]. *)
Definition between (lo extra : nat) (r : re) : re :=
  Cat (times lo r) (times extra (opt r)).
(** [r{lo,}]. *)
Definition at_least (lo : nat) (r : re) : re := Cat (times lo r) (Star r).

Definition in_range (lo hi c : ascii) : bool :=
  (N.leb (N_of_ascii lo) (N_of_ascii c)) && (N.leb (N_of_ascii c) (N_of_ascii hi)).
Definition is_char (x c : ascii) : bool := N.eqb (N_of_ascii x) (N_of_ascii c).
Definition digit (c : ascii) : bool := in_range "0" "9" c.
Definition letter (c : ascii) : bool := in_range "a" "z" c || in_range "A" "Z" c.

End regexp.

(** ** Package [github.com/google/uuid]: [Parse] and [String] *)

Module uuid.

(** The sixteen bytes, big-endian, as one number below [2^128]. *)
Definition UUID := N.

Definition Nil : UUID := 0%N.

Definition hexval (c : ascii) : option N :=
  let n := N_of_ascii c in
  if regexp.in_range "0" "9" c then Some (n - 48)%N
  else if regexp.in_range "a" "f" c then Some (n - 87)%N
  else if regexp.in_range "A" "F" c then Some (n - 55)%N
  else None.

(** [xtob]: two hex digits to a byte. *)
Definition xtob (c1 c2 : ascii) : option N :=
  match hexval c1, hexval c2 with
  | Some h, Some l => Some (h * 16 + l)%N
  | _, _ => None
  end.

Definition at_ (s : list ascii) (i : nat) : ascii := nth i s "000"%char.

(** The byte pairs read at the given offsets, most significant first. *)
Fixpoint read_bytes (s : list ascii) (offsets : list nat) (acc : N) : option N :=
  match offsets with
  | [] => Some acc
  | x :: rest =>
      match xtob (at_ s x) (at_ s (S x)) with
      | Some v => read_bytes s rest (acc * 256 + v)%N
      | None => None
      end
  end.

Definition lower (c : ascii) : ascii :=
  if regexp.in_range "A" "Z" c then ascii_of_N (N_of_ascii c + 32) else c.

Definition dashed_offsets : list nat :=
  [0; 2; 4; 6; 9; 11; 14; 16; 19; 21; 24; 26; 28; 30; 32; 34]%nat.
Definition plain_offsets : list nat :=
  [0; 2; 4; 6; 8; 10; 12; 14; 16; 18; 20; 22; 24; 26; 28; 30]%nat.

Definition parse_dashed (s : list ascii) : option UUID :=
  if regexp.is_char "-" (at_ s 8) && regexp.is_char "-" (at_ s 13)
     && regexp.is_char "-" (at_ s 18) && regexp.is_char "-" (at_ s 23)
  then read_bytes s dashed_offsets 0%N
  else None.

(** [uuid.Parse]: [None] stands for the returned error. *)
Definition Parse (str : string) : option UUID :=
  let s := list_ascii_of_string str in
  match length s with
  | 36%nat => parse_dashed s
  | 45%nat =>
      if bool_decide (map lower (take 9 s) = list_ascii_of_string "urn:uuid:")
      then parse_dashed (drop 9 s) else None
  | 38%nat => parse_dashed (drop 1 s)
  | 32%nat => read_bytes s plain_offsets 0%N
  | _ => None
  end.

Definition hexdigit (n : N) : ascii :=
  if (n <? 10)%N then ascii_of_N (48 + n) else ascii_of_N (87 + n).

Definition byte_at (u : UUID) (i : nat) : N :=
  ((u / 256 ^ (15 - N.of_nat i)) mod 256)%N.

Fixpoint hex_bytes (u : UUID) (from count : nat) : list ascii :=
  match count with
  | O => []
  | S k =>
      hexdigit (byte_at u from / 16)%N :: hexdigit (byte_at u from mod 16)%N
        :: hex_bytes u (S from) k
  end.

(** [UUID.String]: the canonical 8-4-4-4-12 lower-case form. *)
Definition String (u : UUID) : string :=
  string_of_list_ascii
    (hex_bytes u 0 4 ++ ["-"%char] ++ hex_bytes u 4 2 ++ ["-"%char]
       ++ hex_bytes u 6 2 ++ ["-"%char] ++ hex_bytes u 8 2 ++ ["-"%char]
       ++ hex_bytes u 10 6).

End uuid.

(** ** Package [text/template], as far as [Template.Render] uses it *)

Module template.

(** The library: [Parse name body], which is [template.New(name).Parse(body)],
    yields a parse tree or an error text, and [Execute] the output or an
    error text.  The name of the root is an argument because the library's
    parser looks at it (a body may define templates by name).  The services
    below are written against this interface, so what is proved of them
    holds for every engine. *)
Class Engine := {
  tree : Type;
  Parse : string → string → string + tree;
  Execute : tree → gmap string string → string + string;
}.

(** The engine of the substitution grammar the templates are declared in:
    literal text and [{{.Variable}}] actions.  Execution is the library's
    with its default [missingkey] option, which no call site changes: a key
    that is absent from the map prints as ["<no value>"] and is no error.
    What Go's template language has beyond the declared grammar (pipelines,
    control structures, definitions, comments, trim markers) this engine
    rejects, so the name of the root plays no part in it. *)
Inductive node :=
| Text (s : list ascii)
| Field (name : list ascii).

Inductive mode :=
| InText (acc : list ascii)
| SawOpen (acc : list ascii)
| InAction (acc : list ascii)
| SawClose (acc : list ascii).

Definition is_space (c : ascii) : bool :=
  regexp.is_char " " c || regexp.is_char "009" c.
Definition is_ident_start (c : ascii) : bool :=
  regexp.letter c || regexp.is_char "_" c.
Definition is_ident_char (c : ascii) : bool :=
  is_ident_start c || regexp.digit c.

Fixpoint drop_spaces (s : list ascii) : list ascii :=
  match s with
  | c :: s' => if is_space c then drop_spaces s' else s
  | [] => []
  end.

Definition trim (s : list ascii) : list ascii :=
  rev (drop_spaces (rev (drop_spaces s))).

(** The content of an action: [.Name], spaces around it allowed. *)
Definition parse_field (content : list ascii) : option (list ascii) :=
  match trim content with
  | dot :: c :: rest =>
      if regexp.is_char "." dot && is_ident_start c && forallb is_ident_char rest
      then Some (c :: rest) else None
  | _ => None
  end.

Definition push_text (acc : list ascii) (out : list node) : list node :=
  match acc with [] => out | _ => Text (rev acc) :: out end.

Fixpoint scan (s : list ascii) (m : mode) (out : list node) : string + list node :=
  match s with
  | [] =>
      match m with
      | InText acc => inr (rev (push_text acc out))
      | SawOpen acc => inr (rev (push_text ("{"%char :: acc) out))
      | InAction _ | SawClose _ => inl "unclosed action"
      end
  | c :: s' =>
      match m with
      | InText acc =>
          if regexp.is_char "{" c then scan s' (SawOpen acc) out
          else scan s' (InText (c :: acc)) out
      | SawOpen acc =>
          if regexp.is_char "{" c then scan s' (InAction []) (push_text acc out)
          else scan s' (InText (c :: "{"%char :: acc)) out
      | InAction acc =>
          if regexp.is_char "}" c then scan s' (SawClose acc) out
          else scan s' (InAction (c :: acc)) out
      | SawClose acc =>
          if regexp.is_char "}" c then
            match parse_field (rev acc) with
            | Some name => scan s' (InText []) (Field name :: out)
            | None => inl "unexpected token in action"
            end
          else scan s' (InAction (c :: "}"%char :: acc)) out
      end
  end.

Definition subst_Parse (body : string) : string + list node :=
  scan (list_ascii_of_string body) (InText []) [].

Definition no_value : string := "<no value>".

Fixpoint subst_run (nodes : list node) (vars : gmap string string) : string :=
  match nodes with
  | [] => ""
  | Text s :: rest => string_of_list_ascii s +:+ subst_run rest vars
  | Field name :: rest =>
      match vars !! string_of_list_ascii name with
      | Some v => v
      | None => no_value
      end +:+ subst_run rest vars
  end.

#[global] Instance substitution : Engine := {|
  tree := list node;
  Parse := λ _ body, subst_Parse body;
  Execute := λ t vars, inr (subst_run t vars);
|}.

End template.

(** ** Package [domain] *)

Module domain.
Import uuid.

Definition Time := Z.

Definition Channel := string.
Definition ChannelSMS : Channel := "sms".
Definition ChannelEmail : Channel := "email".
Definition ChannelPush : Channel := "push".

Definition Priority := string.
Definition PriorityHigh : Priority := "high".
Definition PriorityNormal : Priority := "normal".
Definition PriorityLow : Priority := "low".

(** The six values the program ever writes to the [status] column. *)
Inductive Status :=
| StatusPending
| StatusScheduled
| StatusProcessing
| StatusDelivered
| StatusFailed
| StatusCancelled.

#[global] Instance Status_eq_dec : EqDecision Status.
Proof. solve_decision. Defined.

(** [^\+[1-9]\d{6,14}$] *)
Definition e164Regex : regexp.re :=
  regexp.Cat (regexp.Cls (regexp.is_char "+"))
    (regexp.Cat (regexp.Cls (regexp.in_range "1" "9"))
       (regexp.between 6 8 (regexp.Cls regexp.digit))).

Definition email_local (c : ascii) : bool :=
  regexp.letter c || regexp.digit c || regexp.is_char "." c || regexp.is_char "_" c
  || regexp.is_char "%" c || regexp.is_char "+" c || regexp.is_char "-" c.
Definition email_domain (c : ascii) : bool :=
  regexp.letter c || regexp.digit c || regexp.is_char "." c || regexp.is_char "-" c.

(** [^[a-zA-Z0-9._%+\-]+@[a-zA-Z0-9.\-]+\.[a-zA-Z]{2,}$] *)
Definition emailRegex : regexp.re :=
  regexp.Cat (regexp.plus (regexp.Cls email_local))
    (regexp.Cat (regexp.Cls (regexp.is_char "@"))
       (regexp.Cat (regexp.plus (regexp.Cls email_domain))
          (regexp.Cat (regexp.Cls (regexp.is_char "."))
             (regexp.at_least 2 (regexp.Cls regexp.letter))))).

Definition channelContentLimits (ch : Channel) : option Z :=
  if bool_decide (ch = ChannelSMS) then Some 160
  else if bool_decide (ch = ChannelEmail) then Some 10000
  else if bool_decide (ch = ChannelPush) then Some 4096
  else None.

(** A Go map read: the zero value for a key that is absent. *)
Definition priorityMaxRetries (p : Priority) : Z :=
  if bool_decide (p = PriorityHigh) then 5
  else if bool_decide (p = PriorityNormal) then 3
  else if bool_decide (p = PriorityLow) then 2
  else 0.

Record Notification := {
  ID : UUID;
  BatchID : option UUID;
  IdempotencyKey : option string;
  NChannel : Channel;
  Recipient : string;
  Content : string;
  NPriority : Priority;
  NStatus : Status;
  ScheduledAt : option Time;
  SentAt : option Time;
  FailedAt : option Time;
  ErrorMessage : option string;
  RetryCount : Z;
  MaxRetries : Z;
  ProviderMessageID : option string;
  TemplateID : option UUID;
  TemplateVariables : gmap string string;
  CreatedAt : Time;
  UpdatedAt : Time;
}.

Record NotificationBatch := {
  batch_ID : UUID;
  TotalCount : Z;
  PendingCount : Z;
  DeliveredCount : Z;
  FailedCount : Z;
  CancelledCount : Z;
  batch_CreatedAt : Time;
}.

Record Template := {
  tmpl_ID : UUID;
  tmpl_Name : string;
  tmpl_Channel : Channel;
  tmpl_Body : string;
}.

(** [fmt.Errorf("%w: ...")] keeps the sentinel; the detail text plays no
    part in any decision of the program. *)
Definition validateChannel (ch : Channel) : option error :=
  if bool_decide (ch = ChannelSMS) || bool_decide (ch = ChannelEmail)
     || bool_decide (ch = ChannelPush)
  then None else Some (Wrapf ErrInvalidChannel ch).

Definition validateRecipient (ch : Channel) (recipient : string) : option error :=
  if bool_decide (recipient = "") then Some (Sentinel ErrEmptyRecipient)
  else if bool_decide (ch = ChannelSMS) then
    if regexp.MatchString e164Regex recipient then None
    else Some (Wrapf ErrInvalidRecipient "must be E.164 format")
  else if bool_decide (ch = ChannelEmail) then
    if regexp.MatchString emailRegex recipient then None
    else Some (Wrapf ErrInvalidRecipient "must be valid email")
  else if bool_decide (ch = ChannelPush) then
    if (String.length recipient <? 1)%nat
    then Some (Wrapf ErrInvalidRecipient "device token required") else None
  else None.

Definition validateContent (ch : Channel) (content : string) : option error :=
  if bool_decide (content = "") then Some (Sentinel ErrEmptyContent)
  else match channelContentLimits ch with
       | None => Some (Wrapf ErrInvalidChannel ch)
       | Some limit =>
           if limit <? Z.of_nat (String.length content)
           then Some (Wrapf ErrContentTooLong ch) else None
       end.

Definition validatePriority (p : Priority) : option error :=
  if bool_decide (p = PriorityHigh) || bool_decide (p = PriorityNormal)
     || bool_decide (p = PriorityLow)
  then None else Some (Wrapf ErrInvalidPriority p).

(** [NewNotification]; [id] is what [uuid.NewV7] returns and [now] what
    [time.Now] returns. *)
Definition NewNotification (channel : Channel) (recipient content : string)
    (priority : Priority) (scheduledAt : option Time) (id : UUID) (now : Time)
    : error + Notification :=
  match validateChannel channel with Some e => inl e | None =>
  match validateRecipient channel recipient with Some e => inl e | None =>
  match validateContent channel content with Some e => inl e | None =>
  match validatePriority priority with Some e => inl e | None =>
    inr {| ID := id; BatchID := None; IdempotencyKey := None;
           NChannel := channel; Recipient := recipient; Content := content;
           NPriority := priority;
           NStatus := match scheduledAt with
                      | Some _ => StatusScheduled
                      | None => StatusPending
                      end;
           ScheduledAt := scheduledAt; SentAt := None; FailedAt := None;
           ErrorMessage := None; RetryCount := 0;
           MaxRetries := priorityMaxRetries priority;
           ProviderMessageID := None; TemplateID := None;
           TemplateVariables := ∅; CreatedAt := now; UpdatedAt := now |}
  end end end end.

Definition CanCancel (n : Notification) : bool :=
  bool_decide (NStatus n = StatusPending) || bool_decide (NStatus n = StatusScheduled).

(** The fields a status change writes; every other field is kept. *)
Definition touch (n : Notification) (status : Status) (sentAt failedAt : option Time)
    (errorMessage : option string) (retryCount : Z)
    (providerMessageID : option string) (updatedAt : Time) : Notification :=
  {| ID := ID n; BatchID := BatchID n; IdempotencyKey := IdempotencyKey n;
     NChannel := NChannel n; Recipient := Recipient n; Content := Content n;
     NPriority := NPriority n; NStatus := status;
     ScheduledAt := ScheduledAt n; SentAt := sentAt; FailedAt := failedAt;
     ErrorMessage := errorMessage; RetryCount := retryCount;
     MaxRetries := MaxRetries n; ProviderMessageID := providerMessageID;
     TemplateID := TemplateID n; TemplateVariables := TemplateVariables n;
     CreatedAt := CreatedAt n; UpdatedAt := updatedAt |}.

Definition setStatus (n : Notification) (status : Status) (now : Time) : Notification :=
  touch n status (SentAt n) (FailedAt n) (ErrorMessage n) (RetryCount n)
    (ProviderMessageID n) now.

Definition Cancel (n : Notification) (now : Time) : error + Notification :=
  if negb (CanCancel n) then inl (Wrapf ErrInvalidStatusTransition "current status")
  else inr (setStatus n StatusCancelled now).

Definition MarkProcessing (n : Notification) (now : Time) : Notification :=
  setStatus n StatusProcessing now.

Definition MarkDelivered (n : Notification) (providerMessageID : string) (now : Time)
    : Notification :=
  touch n StatusDelivered (Some now) (FailedAt n) (ErrorMessage n) (RetryCount n)
    (Some providerMessageID) now.

Definition MarkFailed (n : Notification) (errMsg : string) (now : Time) : Notification :=
  touch n StatusFailed (SentAt n) (Some now) (Some errMsg) (RetryCount n)
    (ProviderMessageID n) now.

Definition IncrementRetry (n : Notification) (now : Time) : Notification :=
  touch n (NStatus n) (SentAt n) (FailedAt n) (ErrorMessage n) (RetryCount n + 1)
    (ProviderMessageID n) now.

Definition HasRetriesLeft (n : Notification) : bool :=
  RetryCount n <? MaxRetries n.

(** [Template.Render] *)
Definition Render `{template.Engine} (t : Template) (variables : gmap string string)
    : error + string :=
  match template.Parse (tmpl_Name t) (tmpl_Body t) with
  | inl msg => inl (Wrapf ErrTemplateRenderFailed msg)
  | inr tmpl =>
      match template.Execute tmpl variables with
      | inl msg => inl (Wrapf ErrTemplateRenderFailed msg)
      | inr out => inr out
      end
  end.

(** [string(n.Status)] *)
Definition status_string (s : Status) : string :=
  match s with
  | StatusPending => "pending"
  | StatusScheduled => "scheduled"
  | StatusProcessing => "processing"
  | StatusDelivered => "delivered"
  | StatusFailed => "failed"
  | StatusCancelled => "cancelled"
  end.

(** [NotificationFilter]; the status and the channel of a filter are
    whatever strings the request carried. *)
Record NotificationFilter := {
  f_Status : option string;
  f_Channel : option string;
  f_DateFrom : option Time;
  f_DateTo : option Time;
  f_BatchID : option UUID;
  f_Cursor : option UUID;
  f_PageSize : Z;
}.

(** [NewTemplate]; [id] is what [uuid.NewV7] returns.  The two time stamps
    of the struct, which nothing reads, are not part of [Template]. *)
Definition NewTemplate `{template.Engine} (name : string) (channel : Channel)
    (body : string) (id : UUID) : error + Template :=
  if bool_decide (name = "") then inl (Sentinel ErrEmptyTemplateName)
  else match validateChannel channel with
       | Some e => inl e
       | None =>
           if bool_decide (body = "") then inl (Sentinel ErrEmptyTemplateBody)
           else match template.Parse "validate" body with
                | inl msg => inl (Wrapf ErrInvalidTemplateBody msg)
                | inr _ => inr {| tmpl_ID := id; tmpl_Name := name;
                                  tmpl_Channel := channel; tmpl_Body := body |}
                end
       end.

End domain.

(** ** The world the two processes run in *)

Module world.
Import uuid domain.

(** [port.ProviderResponse] *)
Record ProviderResponse := {
  MessageID : string;
  RStatus : string;
  Timestamp : string;
}.

(** [queue.NotificationPayload]; the trace carrier is left out. *)
Record NotificationPayload := {
  NotificationID : string;
  PChannel : string;
}.

(** The value of a Kafka message: bytes that [json.Unmarshal] decodes to
    a payload, or bytes it rejects. *)
Inductive Value :=
| Json (p : NotificationPayload)
| Garbage (raw : string).

(** [kafka.Message] *)
Record Message := {
  Topic : string;
  Key : string;
  MValue : Value;
}.

(** What [Hub.Broadcast] is called with (the timestamp is the clock). *)
Record StatusUpdate := {
  SNotificationID : string;
  SStatus : Status;
}.

(** The four tables. *)
Record DB := {
  notifications : gmap UUID Notification;
  notification_batches : gmap UUID NotificationBatch;
  idempotency_keys : gmap string (UUID * Time);
  templates : gmap UUID Template;
}.

Record World := {
  db : DB;
  (** the three topics, every message published so far, oldest first *)
  log : list Message;
  (** the messages whose offsets the consumer committed, oldest first *)
  committed : list Message;
  (** the status broadcasts, oldest first *)
  hub : list StatusUpdate;
  (** the notifications the provider was called with, oldest first *)
  sent : list Notification;
  (** the answer of the provider to its k-th call *)
  provider : nat → Notification → error + ProviderResponse;
  (** whether the next I/O calls fail; no failure once the list is used up.
      Failures the tables below do not track (column widths, foreign keys,
      lost connections) are among those the oracle decides. *)
  faults : list bool;
  (** what [uuid.NewV7] and [uuid.New] return, call by call *)
  uuids : nat → UUID;
  uuid_next : nat;
  clock : Time;
}.

Definition set_db (w : World) (d : DB) : World :=
  {| db := d; log := log w; committed := committed w; hub := hub w; sent := sent w;
     provider := provider w; faults := faults w; uuids := uuids w;
     uuid_next := uuid_next w; clock := clock w |}.
Definition set_log (w : World) (l : list Message) : World :=
  {| db := db w; log := l; committed := committed w; hub := hub w; sent := sent w;
     provider := provider w; faults := faults w; uuids := uuids w;
     uuid_next := uuid_next w; clock := clock w |}.
Definition set_committed (w : World) (c : list Message) : World :=
  {| db := db w; log := log w; committed := c; hub := hub w; sent := sent w;
     provider := provider w; faults := faults w; uuids := uuids w;
     uuid_next := uuid_next w; clock := clock w |}.
Definition set_hub (w : World) (h : list StatusUpdate) : World :=
  {| db := db w; log := log w; committed := committed w; hub := h; sent := sent w;
     provider := provider w; faults := faults w; uuids := uuids w;
     uuid_next := uuid_next w; clock := clock w |}.
Definition set_sent (w : World) (s : list Notification) : World :=
  {| db := db w; log := log w; committed := committed w; hub := hub w; sent := s;
     provider := provider w; faults := faults w; uuids := uuids w;
     uuid_next := uuid_next w; clock := clock w |}.
Definition set_faults (w : World) (f : list bool) : World :=
  {| db := db w; log := log w; committed := committed w; hub := hub w; sent := sent w;
     provider := provider w; faults := f; uuids := uuids w;
     uuid_next := uuid_next w; clock := clock w |}.
Definition set_uuid_next (w : World) (k : nat) : World :=
  {| db := db w; log := log w; committed := committed w; hub := hub w; sent := sent w;
     provider := provider w; faults := faults w; uuids := uuids w;
     uuid_next := k; clock := clock w |}.

Definition set_notifications (d : DB) (m : gmap UUID Notification) : DB :=
  {| notifications := m; notification_batches := notification_batches d;
     idempotency_keys := idempotency_keys d; templates := templates d |}.
Definition set_batches (d : DB) (m : gmap UUID NotificationBatch) : DB :=
  {| notifications := notifications d; notification_batches := m;
     idempotency_keys := idempotency_keys d; templates := templates d |}.
Definition set_keys (d : DB) (m : gmap string (UUID * Time)) : DB :=
  {| notifications := notifications d; notification_batches := notification_batches d;
     idempotency_keys := m; templates := templates d |}.

(** One I/O call: does it fail? *)
Definition io (w : World) : bool * World :=
  match faults w with
  | [] => (false, w)
  | b :: rest => (b, set_faults w rest)
  end.

(** The error of a failed I/O call. *)
Definition io_error : error := Opaque "i/o failure".

(** [uuid.NewV7] / [uuid.New] *)
Definition new_uuid (w : World) : UUID * World :=
  (uuids w (uuid_next w), set_uuid_next w (S (uuid_next w))).

Definition set_templates (d : DB) (m : gmap UUID Template) : DB :=
  {| notifications := notifications d; notification_batches := notification_batches d;
     idempotency_keys := idempotency_keys d; templates := m |}.

End world.

(** ** Package [postgres]: the repositories *)

Module postgres.
Import uuid domain world.

Definition Hour : Z := 3600 * 1000000000.
Definition idempotencyTTL : Z := 24 * Hour.

(** [strings.Contains] *)
Definition Contains (s sub : string) : bool :=
  match String.index 0 sub s with Some _ => true | None => false end.

Definition unique_violation : string := "23505".

Definition wrapIDempotencyError (err : option error) : option error :=
  match err with
  | Some (PgError code constraintName) =>
      if bool_decide (code = unique_violation) && Contains constraintName "idempotency_key"
      then Some (Sentinel ErrDuplicateIdempotencyKey) else err
  | _ => err
  end.

(** [IdempotencyRepo.Check]:
    [SELECT notification_id FROM idempotency_keys WHERE key = $1 AND expires_at > NOW()] *)
Definition Check (key : string) (w : World) : (bool * string * option error) * World :=
  let '(failed, w) := io w in
  if failed then ((false, "", Some io_error), w)
  else match idempotency_keys (db w) !! key with
       | Some (id, expires_at) =>
           if clock w <? expires_at then ((true, uuid.String id, None), w)
           else ((false, "", None), w)
       | None => ((false, "", None), w)
       end.

(** [IdempotencyRepo.SetNX]: [INSERT ... ON CONFLICT (key) DO NOTHING] *)
Definition SetNX (key notificationID : string) (w : World) : (bool * option error) * World :=
  let '(failed, w) := io w in
  if failed then ((false, Some io_error), w)
  else match uuid.Parse notificationID with
       | None => ((false, Some (Opaque "invalid input syntax for type uuid")), w)
       | Some id =>
           match idempotency_keys (db w) !! key with
           | Some _ => ((false, None), w)
           | None =>
               ((true, None),
                set_db w (set_keys (db w)
                  (<[key := (id, clock w + idempotencyTTL)]> (idempotency_keys (db w)))))
           end
       end.

(** What a [TIMESTAMPTZ] column keeps of a time given in nanoseconds: the
    whole microseconds. *)
Definition timestamptz (t : Time) : Time := 1000 * (t / 1000).

(** The row an [INSERT INTO notifications] stores: the columns the
    statement does not list take their defaults, and the three time stamps
    it lists are kept to the microsecond. *)
Definition inserted (n : Notification) : Notification :=
  {| ID := ID n; BatchID := BatchID n; IdempotencyKey := IdempotencyKey n;
     NChannel := NChannel n; Recipient := Recipient n; Content := Content n;
     NPriority := NPriority n; NStatus := NStatus n;
     ScheduledAt := timestamptz <$> ScheduledAt n; SentAt := None; FailedAt := None;
     ErrorMessage := None; RetryCount := 0; MaxRetries := MaxRetries n;
     ProviderMessageID := None; TemplateID := TemplateID n;
     TemplateVariables := TemplateVariables n;
     CreatedAt := timestamptz (CreatedAt n); UpdatedAt := timestamptz (UpdatedAt n) |}.

(** Is the key held by a row of the table ([idempotency_key ... UNIQUE])? *)
Definition key_taken (m : gmap UUID Notification) (k : option string) : bool :=
  match k with
  | None => false
  | Some _ => existsb (λ r, bool_decide (IdempotencyKey r = k)) (map_to_list m).*2
  end.

(** One [INSERT INTO notifications], on the tables [d]. *)
Definition insert_notification (n : Notification) (d : DB) : option error * DB :=
  match notifications d !! ID n with
  | Some _ => (Some (PgError unique_violation "notifications_pkey"), d)
  | None =>
      if key_taken (notifications d) (IdempotencyKey n)
      then (Some (PgError unique_violation "notifications_idempotency_key_key"), d)
      else (None, set_notifications d (<[ID n := inserted n]> (notifications d)))
  end.

(** [NotificationRepo.Create] *)
Definition Create (n : Notification) (w : World) : option error * World :=
  let '(failed, w) := io w in
  if failed then (wrapIDempotencyError (Some io_error), w)
  else let '(err, d) := insert_notification n (db w) in
       (wrapIDempotencyError err, set_db w d).

(** The row [INSERT INTO notification_batches (id, total_count,
    pending_count, created_at)] stores. *)
Definition inserted_batch (b : NotificationBatch) : NotificationBatch :=
  {| batch_ID := batch_ID b; TotalCount := TotalCount b; PendingCount := PendingCount b;
     DeliveredCount := 0; FailedCount := 0; CancelledCount := 0;
     batch_CreatedAt := timestamptz (batch_CreatedAt b) |}.

Definition insert_batch (b : NotificationBatch) (d : DB) : option error * DB :=
  match notification_batches d !! batch_ID b with
  | Some _ => (Some (PgError unique_violation "notification_batches_pkey"), d)
  | None => (None, set_batches d (<[batch_ID b := inserted_batch b]> (notification_batches d)))
  end.

(** The loop of [CreateBatch] inside the transaction: [d] is the state the
    transaction sees; the first failing insert ends the loop. *)
Fixpoint insert_children (ns : list Notification) (w : World) (d : DB)
    : option error * World * DB :=
  match ns with
  | [] => (None, w, d)
  | n :: rest =>
      let '(failed, w) := io w in
      if failed then (wrapIDempotencyError (Some io_error), w, d)
      else match insert_notification n d with
           | (Some e, d') => (wrapIDempotencyError (Some e), w, d')
           | (None, d') => insert_children rest w d'
           end
  end.

(** [NotificationRepo.CreateBatch]: the tables of the world change only at
    [tx.Commit]; every earlier return runs the deferred [tx.Rollback]. *)
Definition CreateBatch (batch : NotificationBatch) (ns : list Notification) (w : World)
    : option error * World :=
  let '(failed, w) := io w in                       (* BeginTxx *)
  if failed then (Some io_error, w) else
  let '(failed, w) := io w in                       (* INSERT INTO notification_batches *)
  if failed then (Some io_error, w) else
  match insert_batch batch (db w) with
  | (Some e, _) => (Some e, w)
  | (None, d) =>
      match insert_children ns w d with
      | (Some e, w, _) => (Some e, w)
      | (None, w, d) =>
          let '(failed, w) := io w in               (* Commit *)
          if failed then (Some io_error, w) else (None, set_db w d)
      end
  end.

(** [NotificationRepo.GetByID] *)
Definition GetByID (id : UUID) (w : World) : (error + Notification) * World :=
  let '(failed, w) := io w in
  if failed then (inl io_error, w)
  else match notifications (db w) !! id with
       | None => (inl (Sentinel ErrNotificationNotFound), w)
       | Some row => (inr row, w)
       end.

(** [NotificationRepo.UpdateStatus]:
    [UPDATE notifications SET status, sent_at, failed_at, error_message,
     retry_count, provider_message_id, updated_at WHERE id=$8].
    The statement has no condition on the stored status, and the number of
    rows it changed is not looked at. *)
Definition UpdateStatus (n : Notification) (w : World) : option error * World :=
  let '(failed, w) := io w in
  if failed then (Some io_error, w)
  else (None,
        set_db w (set_notifications (db w)
          (alter (λ row, touch row (NStatus n) (SentAt n) (FailedAt n) (ErrorMessage n)
                           (RetryCount n) (ProviderMessageID n) (UpdatedAt n))
                 (ID n) (notifications (db w))))).

(** [NotificationRepo.Cancel]:
    [UPDATE notifications SET status='cancelled', updated_at=NOW()
     WHERE id=$1 AND status IN ('pending','scheduled')]; no row changed is
    [ErrInvalidStatusTransition]. *)
Definition Cancel (id : UUID) (w : World) : option error * World :=
  let '(failed, w) := io w in
  if failed then (Some io_error, w)
  else match notifications (db w) !! id with
       | Some row =>
           if CanCancel row
           then (None, set_db w (set_notifications (db w)
                          (<[id := setStatus row StatusCancelled (clock w)]>
                             (notifications (db w)))))
           else (Some (Sentinel ErrInvalidStatusTransition), w)
       | None => (Some (Sentinel ErrInvalidStatusTransition), w)
       end.

(** The one statement of [IncrementBatchCounter]:
    [SET <column> = <column> + 1, pending_count = pending_count - 1]. *)
Definition bump (status : Status) (b : NotificationBatch) : NotificationBatch :=
  {| batch_ID := batch_ID b; TotalCount := TotalCount b;
     PendingCount := PendingCount b - 1;
     DeliveredCount := DeliveredCount b + (if bool_decide (status = StatusDelivered) then 1 else 0);
     FailedCount := FailedCount b + (if bool_decide (status = StatusFailed) then 1 else 0);
     CancelledCount := CancelledCount b + (if bool_decide (status = StatusCancelled) then 1 else 0);
     batch_CreatedAt := batch_CreatedAt b |}.

(** [NotificationRepo.IncrementBatchCounter] *)
Definition IncrementBatchCounter (batchID : UUID) (status : Status) (w : World)
    : option error * World :=
  match status with
  | StatusDelivered | StatusFailed | StatusCancelled =>
      let '(failed, w) := io w in
      if failed then (Some io_error, w)
      else (None, set_db w (set_batches (db w)
                    (alter (bump status) batchID (notification_batches (db w)))))
  | _ => (None, w)
  end.

Definition due (now : Time) (n : Notification) : bool :=
  bool_decide (NStatus n = StatusScheduled)
  && match ScheduledAt n with Some t => t <=? now | None => false end.

(** [ORDER BY scheduled_at] *)
Definition by_scheduled_at (a b : Notification) : Prop :=
  match ScheduledAt a, ScheduledAt b with
  | Some x, Some y => x ≤ y
  | Some _, None => True
  | None, Some _ => False
  | None, None => True
  end.

#[global] Instance by_scheduled_at_dec a b : Decision (by_scheduled_at a b).
Proof. unfold by_scheduled_at. destruct (ScheduledAt a), (ScheduledAt b); apply _. Defined.

(** [NotificationRepo.ListDueScheduled]:
    [SELECT * FROM notifications WHERE status = 'scheduled' AND
     scheduled_at <= NOW() ORDER BY scheduled_at LIMIT $1] *)
Definition ListDueScheduled (limit : nat) (w : World)
    : (error + list Notification) * World :=
  let '(failed, w) := io w in
  if failed then (inl io_error, w)
  else (inr (take limit
               (merge_sort by_scheduled_at
                  (filter (λ n, due (clock w) n = true) (map_to_list (notifications (db w))).*2))),
        w).

(** [TemplateRepo.GetByID] *)
Definition GetTemplateByID (id : UUID) (w : World) : (error + Template) * World :=
  let '(failed, w) := io w in
  if failed then (inl io_error, w)
  else match templates (db w) !! id with
       | None => (inl (Sentinel ErrTemplateNotFound), w)
       | Some t => (inr t, w)
       end.

(** [NotificationRepo.GetBatchByID] *)
Definition GetBatchByID (batchID : UUID) (w : World) : (error + NotificationBatch) * World :=
  let '(failed, w) := io w in
  if failed then (inl io_error, w)
  else match notification_batches (db w) !! batchID with
       | None => (inl (Sentinel ErrBatchNotFound), w)
       | Some batch => (inr batch, w)
       end.

Definition Minute : Z := 60 * 1000000000.

Definition stuck (now olderThan : Z) (n : Notification) : bool :=
  bool_decide (NStatus n = StatusProcessing) && (UpdatedAt n <? now - olderThan).

(** [ORDER BY updated_at] *)
Definition by_updated_at (a b : Notification) : Prop := UpdatedAt a ≤ UpdatedAt b.

#[global] Instance by_updated_at_dec a b : Decision (by_updated_at a b).
Proof. unfold by_updated_at. apply _. Defined.

(** [NotificationRepo.ListStuckProcessing]:
    [SELECT * FROM notifications WHERE status = 'processing' AND
     updated_at < NOW() - $1::interval ORDER BY updated_at LIMIT $2];
    [olderThan] is the duration whose text is cast to the interval. *)
Definition ListStuckProcessing (olderThan : Z) (limit : nat) (w : World)
    : (error + list Notification) * World :=
  let '(failed, w) := io w in
  if failed then (inl io_error, w)
  else (inr (take limit
               (merge_sort by_updated_at
                  (filter (λ n, stuck (clock w) olderThan n = true)
                     (map_to_list (notifications (db w))).*2))),
        w).

(** The conditions [NotificationRepo.List] adds to its query, one for
    each field of the filter that is set.  The two bounds on [created_at]
    are parameters of type [TIMESTAMPTZ] and reach the query cut to whole
    microseconds. *)
Definition matches (f : NotificationFilter) (n : Notification) : bool :=
  match f_Status f with Some s => bool_decide (status_string (NStatus n) = s) | None => true end
  && match f_Channel f with Some c => bool_decide (NChannel n = c) | None => true end
  && match f_BatchID f with Some b => bool_decide (BatchID n = Some b) | None => true end
  && match f_DateFrom f with Some t => timestamptz t <=? CreatedAt n | None => true end
  && match f_DateTo f with Some t => CreatedAt n <=? timestamptz t | None => true end
  && match f_Cursor f with Some c => (ID n <? c)%N | None => true end.

(** [if pageSize <= 0 || pageSize > 100 { pageSize = 20 }] *)
Definition page_size (f : NotificationFilter) : Z :=
  if (f_PageSize f <=? 0) || (100 <? f_PageSize f) then 20 else f_PageSize f.

(** [ORDER BY created_at DESC, id DESC] *)
Definition newest_first (a b : Notification) : Prop :=
  CreatedAt b < CreatedAt a ∨ (CreatedAt a = CreatedAt b ∧ (ID b ≤ ID a)%N).

#[global] Instance newest_first_dec a b : Decision (newest_first a b).
Proof. unfold newest_first. apply _. Defined.

(** [NotificationRepo.List] *)
Definition List (f : NotificationFilter) (w : World)
    : (error + list Notification) * World :=
  let '(failed, w) := io w in
  if failed then (inl io_error, w)
  else (inr (take (Z.to_nat (page_size f))
               (merge_sort newest_first
                  (filter (λ n, matches f n = true)
                     (map_to_list (notifications (db w))).*2))),
        w).

(** Is the name held by a row of the table of templates? *)
Definition name_taken (m : gmap UUID Template) (name : string) : bool :=
  existsb (λ t, bool_decide (tmpl_Name t = name)) (map_to_list m).*2.

(** [TemplateRepo.Create].  The table is declared with [id UUID PRIMARY
    KEY] and [name VARCHAR(255) UNIQUE NOT NULL]; the two constraints carry
    the names PostgreSQL gives them, and the one on [name] is the one the
    error handling of this function looks for. *)
Definition CreateTemplate (t : Template) (w : World) : option error * World :=
  let '(failed, w) := io w in
  if failed then (Some io_error, w)
  else
    let err :=
      match templates (db w) !! tmpl_ID t with
      | Some _ => Some (PgError unique_violation "templates_pkey")
      | None =>
          if name_taken (templates (db w)) (tmpl_Name t)
          then Some (PgError unique_violation "templates_name_key")
          else None
      end in
    match err with
    | Some (PgError code constraintName) =>
        if bool_decide (code = unique_violation) && Contains constraintName "name"
        then (Some (Sentinel ErrDuplicateTemplateName), w)
        else (err, w)
    | Some _ => (err, w)
    | None => (None, set_db w (set_templates (db w) (<[tmpl_ID t := t]> (templates (db w)))))
    end.

End postgres.

(** ** Package [queue]: producer and consumer *)

Module queue.
Import uuid domain world.

Definition topicForPriority (p : Priority) : option string :=
  if bool_decide (p = PriorityHigh) then Some "notifications.high"
  else if bool_decide (p = PriorityNormal) then Some "notifications.normal"
  else if bool_decide (p = PriorityLow) then Some "notifications.low"
  else None.

Definition message_for (topic : string) (n : Notification) : Message :=
  {| Topic := topic; Key := uuid.String (ID n);
     MValue := Json {| NotificationID := uuid.String (ID n); PChannel := NChannel n |} |}.

(** [Producer.Enqueue] *)
Definition Enqueue (n : Notification) (w : World) : option error * World :=
  match topicForPriority (NPriority n) with
  | None => (Some (Opaque ("unknown priority: " +:+ NPriority n)), w)
  | Some topic =>
      let '(failed, w) := io w in
      if failed then (Some io_error, w)
      else (None, set_log w (log w ++ [message_for topic n]))
  end.

(** [Producer.EnqueueScheduled] *)
Definition EnqueueScheduled (n : Notification) (w : World) : option error * World :=
  (None, w).

(** [reader.CommitMessages]; its error is dropped by every caller. *)
Definition CommitMessages (msg : Message) (w : World) : World :=
  let '(failed, w) := io w in
  if failed then w else set_committed w (committed w ++ [msg]).

(** [Consumer.retry]: after the delay, write the original message again
    to its topic; a failed write is logged only. *)
Definition retry (original : Message) (w : World) : World :=
  let '(failed, w) := io w in
  if failed then w
  else set_log w (log w ++ [{| Topic := Topic original; Key := Key original;
                               MValue := MValue original |}]).

(** [port.MessageHandler] *)
Definition MessageHandler := string → World → option error * World.

(** One turn of the loop of [Consumer.consume], for a fetched message. *)
Definition consume (handler : MessageHandler) (msg : Message) (w : World) : World :=
  match MValue msg with
  | Garbage _ => CommitMessages msg w
  | Json payload =>
      match handler (NotificationID payload) w with
      | (Some _, w) => CommitMessages msg (retry msg w)
      | (None, w) => CommitMessages msg w
      end
  end.

Definition Millisecond : Z := 1000000.
Definition Second : Z := 1000 * Millisecond.

(** [retryDelay]; [jitter] is what [rand.Int64N(1000)] returns. *)
Definition retryDelay (jitter : Z) : Z :=
  let baseDelay := 2 * Second in
  let maxDelay := 30 * Second in
  let delay := baseDelay + jitter * Millisecond in
  if maxDelay <? delay then maxDelay else delay.

End queue.

(** ** Package [provider]: the webhook client *)

Module provider.
Import uuid domain world.

(** What the HTTP exchange came to: [httpClient.Do] failed, or it returned
    a response with a status code whose body [io.ReadAll] read ([Some]) or
    failed to read ([None]). *)
Inductive Exchange :=
| DoFailed (cause : string)
| Response (statusCode : Z) (body : option string).

Definition isTransientError (statusCode : Z) : bool :=
  match statusCode with
  | 429 | 500 | 502 | 503 | 504 => true
  | _ => false
  end.

(** [WebhookProvider.doSend] from the exchange on; [Unmarshal] is
    [json.Unmarshal] into a [webhookResponse], [fresh] what [uuid.New]
    returns and [stamp] the formatted [time.Now]. *)
Definition doSend (Unmarshal : string → option ProviderResponse) (fresh : UUID)
    (stamp : string) (x : Exchange) : error + ProviderResponse :=
  match x with
  | DoFailed cause => inl (Wrapf ErrProviderUnavailable cause)
  | Response statusCode None => inl (Opaque "read response body")
  | Response statusCode (Some respBody) =>
      if isTransientError statusCode
      then inl (Wrapf ErrProviderUnavailable "status")
      else if 400 <=? statusCode
      then inl (Opaque ("permanent provider error: body: " +:+ respBody))
      else match Unmarshal respBody with
           | Some webhookResp => inr webhookResp
           | None => inr {| MessageID := uuid.String fresh; RStatus := "accepted";
                            Timestamp := stamp |}
           end
  end.

(** [WebhookProvider.Send]: the circuit breaker of the channel either runs
    [doSend] and hands on its result, or refuses the call with an error of
    its own ([refused] is its text), which [Send] returns as it is.  The
    errors of the breaker are values of its library and wrap no sentinel of
    the domain; nothing in the program returns [ErrCircuitOpen]. *)
Definition Send (refused : option string) (Unmarshal : string → option ProviderResponse)
    (fresh : UUID) (stamp : string) (x : Exchange) : error + ProviderResponse :=
  match refused with
  | Some msg => inl (Opaque msg)
  | None => doSend Unmarshal fresh stamp x
  end.

End provider.

(** ** Package [app]: intake service, delivery coordinator, scheduler *)

Module app.
Import uuid domain world.

Record CreateNotificationInput := {
  in_Channel : Channel;
  in_Recipient : string;
  in_Content : string;
  in_Priority : Priority;
  in_ScheduledAt : option Time;
  in_IdempotencyKey : option string;
  in_TemplateID : option UUID;
  in_TemplateVariables : gmap string string;
}.

(** The assignments that follow [NewNotification] in both create paths. *)
Definition attach (n : Notification) (batchID : option UUID)
    (input : CreateNotificationInput) : Notification :=
  {| ID := ID n; BatchID := batchID; IdempotencyKey := in_IdempotencyKey input;
     NChannel := NChannel n; Recipient := Recipient n; Content := Content n;
     NPriority := NPriority n; NStatus := NStatus n;
     ScheduledAt := ScheduledAt n; SentAt := SentAt n; FailedAt := FailedAt n;
     ErrorMessage := ErrorMessage n; RetryCount := RetryCount n;
     MaxRetries := MaxRetries n; ProviderMessageID := ProviderMessageID n;
     TemplateID := in_TemplateID input;
     TemplateVariables := in_TemplateVariables input;
     CreatedAt := CreatedAt n; UpdatedAt := UpdatedAt n |}.

(** [if n.ScheduledAt != nil { EnqueueScheduled } else { Enqueue }] *)
Definition publish (n : Notification) (w : World) : option error * World :=
  match ScheduledAt n with
  | Some _ => queue.EnqueueScheduled n w
  | None => queue.Enqueue n w
  end.

Section services.
Context `{template.Engine}.

(** The content of the notification: the input's, or the rendered body of
    the referenced template. *)
Definition content_of (input : CreateNotificationInput) (w : World)
    : (error + string) * World :=
  match in_TemplateID input with
  | None => (inr (in_Content input), w)
  | Some templateID =>
      match postgres.GetTemplateByID templateID w with
      | (inl err, w) => (inl err, w)
      | (inr tmpl, w) => (Render tmpl (in_TemplateVariables input), w)
      end
  end.

(** [NotificationService.Create] *)
Definition Create (input : CreateNotificationInput) (w : World)
    : (error + Notification) * World :=
  let '(hit, w) :=
    match in_IdempotencyKey input with
    | Some key =>
        let '((found, existingID, _), w) := postgres.Check key w in
        (if found then Some existingID else None, w)
    | None => (None, w)
    end in
  match hit with
  | Some existingID => postgres.GetByID (default uuid.Nil (uuid.Parse existingID)) w
  | None =>
      match content_of input w with
      | (inl err, w) => (inl err, w)
      | (inr content, w) =>
          let '(id, w') := new_uuid w in
          match NewNotification (in_Channel input) (in_Recipient input) content
                  (in_Priority input) (in_ScheduledAt input) id (clock w) with
          | inl err => (inl err, w)
          | inr created =>
              let notification := attach created None input in
              match postgres.Create notification w' with
              | (Some err, w) => (inl err, w)
              | (None, w) =>
                  let w :=
                    match in_IdempotencyKey input with
                    | Some key => (postgres.SetNX key (uuid.String (ID notification)) w).2
                    | None => w
                    end in
                  match publish notification w with
                  | (Some err, w) => (inl err, w)
                  | (None, w) => (inr notification, w)
                  end
              end
          end
      end
  end.

(** The first loop of [CreateBatch]: build every child, stop at the first
    error. *)
Fixpoint build (batchID : UUID) (inputs : list CreateNotificationInput) (w : World)
    : (error + list Notification) * World :=
  match inputs with
  | [] => (inr [], w)
  | input :: rest =>
      match content_of input w with
      | (inl err, w) => (inl err, w)
      | (inr content, w) =>
          let '(id, w') := new_uuid w in
          match NewNotification (in_Channel input) (in_Recipient input) content
                  (in_Priority input) (in_ScheduledAt input) id (clock w) with
          | inl err => (inl err, w)
          | inr created =>
              match build batchID rest w' with
              | (inl err, w) => (inl err, w)
              | (inr ns, w) => (inr (attach created (Some batchID) input :: ns), w)
              end
          end
      end
  end.

(** The second loop of [CreateBatch]: publish child by child, errors
    dropped. *)
Fixpoint publish_all (ns : list Notification) (w : World) : World :=
  match ns with
  | [] => w
  | n :: rest => publish_all rest (publish n w).2
  end.

(** [NotificationService.CreateBatch] *)
Definition CreateBatch (inputs : list CreateNotificationInput) (w : World)
    : (error + NotificationBatch * list Notification) * World :=
  if bool_decide (length inputs = 0%nat) then (inl (Sentinel ErrBatchEmpty), w)
  else if bool_decide (1000 < length inputs)%nat then (inl (Sentinel ErrBatchTooLarge), w)
  else
    let '(batchID, w) := new_uuid w in
    let batch := {| batch_ID := batchID; TotalCount := Z.of_nat (length inputs);
                    PendingCount := Z.of_nat (length inputs); DeliveredCount := 0;
                    FailedCount := 0; CancelledCount := 0;
                    batch_CreatedAt := clock w |} in
    match build batchID inputs w with
    | (inl err, w) => (inl err, w)
    | (inr ns, w) =>
        match postgres.CreateBatch batch ns w with
        | (Some err, w) => (inl err, w)
        | (None, w) => (inr (batch, ns), publish_all ns w)
        end
    end.

End services.

(** The batch counter update that follows a terminal status change. *)
Definition count (n : Notification) (status : Status) (w : World) : World :=
  match BatchID n with
  | Some batchID => (postgres.IncrementBatchCounter batchID status w).2
  | None => w
  end.

(** [NotificationService.Cancel] *)
Definition Cancel (id : UUID) (w : World) : option error * World :=
  match postgres.GetByID id w with
  | (inl err, w) => (Some err, w)
  | (inr n, w) =>
      match domain.Cancel n (clock w) with
      | inl err => (Some err, w)
      | inr n =>
          match postgres.Cancel id w with
          | (Some err, w) => (Some err, w)
          | (None, w) => (None, count n StatusCancelled w)
          end
      end
  end.

(** [s.provider.Send]: the provider is asked and the call recorded. *)
Definition Send (n : Notification) (w : World) : (error + ProviderResponse) * World :=
  (provider w (length (sent w)) n, set_sent w (sent w ++ [n])).

(** [DeliveryService.broadcastStatus] *)
Definition broadcastStatus (n : Notification) (w : World) : World :=
  set_hub w (hub w ++ [{| SNotificationID := uuid.String (ID n); SStatus := NStatus n |}]).

Definition isTransient (err : error) : bool :=
  errors.Is err ErrProviderUnavailable || errors.Is err ErrCircuitOpen.

(** [DeliveryService.ProcessDelivery]; [None] is the [nil] error. *)
Definition ProcessDelivery (notificationID : string) (w : World) : option error * World :=
  match uuid.Parse notificationID with
  | None => (Some (Opaque "invalid UUID"), w)
  | Some id =>
      match postgres.GetByID id w with
      | (inl err, w) => (Some err, w)
      | (inr notification, w) =>
          if bool_decide (NStatus notification = StatusCancelled)
             || bool_decide (NStatus notification = StatusDelivered)
          then (None, w)
          else
            let notification := MarkProcessing notification (clock w) in
            match postgres.UpdateStatus notification w with
            | (Some err, w) => (Some err, w)
            | (None, w) =>
                match Send notification w with
                | (inl sendErr, w) =>
                    let notification := IncrementRetry notification (clock w) in
                    if isTransient sendErr && HasRetriesLeft notification then
                      (Some sendErr, (postgres.UpdateStatus notification w).2)
                    else
                      let notification :=
                        MarkFailed notification (errors.Error sendErr) (clock w) in
                      let w := (postgres.UpdateStatus notification w).2 in
                      let w := count notification StatusFailed w in
                      (None, broadcastStatus notification w)
                | (inr resp, w) =>
                    let notification :=
                      MarkDelivered notification (MessageID resp) (clock w) in
                    let w := (postgres.UpdateStatus notification w).2 in
                    let w := count notification StatusDelivered w in
                    (None, broadcastStatus notification w)
                end
            end
      end
  end.

(** The body of the loop of [Scheduler.processScheduled]. *)
Definition promote (w : World) (n : Notification) : World :=
  let n := setStatus n StatusPending (clock w) in
  match postgres.UpdateStatus n w with
  | (Some _, w) => w
  | (None, w) => (queue.Enqueue n w).2
  end.

(** [Scheduler.processScheduled] *)
Definition processScheduled (w : World) : World :=
  match postgres.ListDueScheduled 100 w with
  | (inl _, w) => w
  | (inr ns, w) => foldl promote w ns
  end.

(** [Scheduler.recoverStuck]; the body of its loop is the one of
    [processScheduled]. *)
Definition recoverStuck (w : World) : World :=
  match postgres.ListStuckProcessing (5 * postgres.Minute) 50 w with
  | (inl _, w) => w
  | (inr ns, w) => foldl promote w ns
  end.

(** One tick of [Scheduler.Run]. *)
Definition tick (w : World) : World := recoverStuck (processScheduled w).

Record CreateTemplateInput := {
  tin_Name : string;
  tin_Channel : Channel;
  tin_Body : string;
}.

(** [TemplateService.Create] *)
Definition CreateTemplate `{template.Engine} (input : CreateTemplateInput) (w : World)
    : (error + Template) * World :=
  let '(id, w') := new_uuid w in
  match NewTemplate (tin_Name input) (tin_Channel input) (tin_Body input) id with
  | inl err => (inl err, w)
  | inr tmpl =>
      match postgres.CreateTemplate tmpl w' with
      | (Some err, w) => (inl err, w)
      | (None, w) => (inr tmpl, w)
      end
  end.

End app.

(** ** Package [http]: what the handlers make of the services' results *)

Module http.
Import uuid domain world.

(** The status code [handleDomainError] answers with. *)
Definition handleDomainError (err : error) : Z :=
  if errors.Is err ErrNotificationNotFound || errors.Is err ErrBatchNotFound
     || errors.Is err ErrTemplateNotFound
  then 404
  else if errors.Is err ErrInvalidChannel || errors.Is err ErrInvalidRecipient
          || errors.Is err ErrEmptyRecipient || errors.Is err ErrEmptyContent
          || errors.Is err ErrContentTooLong || errors.Is err ErrInvalidPriority
          || errors.Is err ErrBatchTooLarge || errors.Is err ErrBatchEmpty
          || errors.Is err ErrEmptyTemplateName || errors.Is err ErrEmptyTemplateBody
          || errors.Is err ErrInvalidTemplateBody
  then 400
  else if errors.Is err ErrInvalidStatusTransition then 409
  else if errors.Is err ErrDuplicateIdempotencyKey || errors.Is err ErrDuplicateTemplateName
  then 409
  else 500.

(** [NotificationResponse] *)
Record NotificationResponse := {
  r_ID : string;
  r_BatchID : option string;
  r_Channel : string;
  r_Recipient : string;
  r_Content : string;
  r_Priority : string;
  r_Status : string;
  r_ScheduledAt : option Time;
  r_SentAt : option Time;
  r_FailedAt : option Time;
  r_ErrorMessage : option string;
  r_RetryCount : Z;
  r_MaxRetries : Z;
  r_ProviderMessageID : option string;
  r_TemplateID : option string;
  r_TemplateVariables : gmap string string;
  r_CreatedAt : Time;
  r_UpdatedAt : Time;
}.

Definition NewNotificationResponse (n : Notification) : NotificationResponse :=
  {| r_ID := uuid.String (ID n); r_BatchID := uuid.String <$> BatchID n;
     r_Channel := NChannel n; r_Recipient := Recipient n; r_Content := Content n;
     r_Priority := NPriority n; r_Status := status_string (NStatus n);
     r_ScheduledAt := ScheduledAt n; r_SentAt := SentAt n; r_FailedAt := FailedAt n;
     r_ErrorMessage := ErrorMessage n; r_RetryCount := RetryCount n;
     r_MaxRetries := MaxRetries n; r_ProviderMessageID := ProviderMessageID n;
     r_TemplateID := uuid.String <$> TemplateID n;
     r_TemplateVariables := TemplateVariables n;
     r_CreatedAt := CreatedAt n; r_UpdatedAt := UpdatedAt n |}.

(** [ListResponse[NotificationResponse]] *)
Record ListResponse := {
  Data : list NotificationResponse;
  NextCursor : option string;
}.

(** [NewNotificationListResponse]; [None] is the run-time panic of
    [notifications[len(notifications)-1]] on an empty slice. *)
Definition NewNotificationListResponse (notifications : list Notification) (pageSize : Z)
    : option ListResponse :=
  let data := NewNotificationResponse <$> notifications in
  if bool_decide (Z.of_nat (length notifications) = pageSize) then
    match last notifications with
    | Some n => Some {| Data := data; NextCursor := Some (uuid.String (ID n)) |}
    | None => None
    end
  else Some {| Data := data; NextCursor := None |}.

(** What a handler answers: a status code with a body, or a panic. *)
Inductive Answer :=
| Listed (code : Z) (body : ListResponse)
| Failed (code : Z)
| Panic.

(** [NotificationHandler.List] from the filter on: the page size handed to
    the response is the one of the request, not the one the query used. *)
Definition ListHandler (filter : NotificationFilter) (w : World) : Answer * World :=
  match postgres.List filter w with
  | (inl _, w) => (Failed 500, w)
  | (inr notifications, w) =>
      match NewNotificationListResponse notifications (f_PageSize filter) with
      | Some body => (Listed 200 body, w)
      | None => (Panic, w)
      end
  end.

End http.

(** ** Vocabulary of the statements *)

Module spec.
Import uuid domain world.

(** The terminal states. *)
Definition terminal (s : Status) : bool :=
  match s with
  | StatusDelivered | StatusFailed | StatusCancelled => true
  | _ => false
  end.

(** The transitions of the status machine. *)
Definition transition (from to : Status) : bool :=
  match from, to with
  | StatusPending, StatusCancelled | StatusScheduled, StatusCancelled
  | StatusScheduled, StatusPending
  | StatusPending, StatusProcessing
  | StatusProcessing, StatusPending
  | StatusProcessing, StatusDelivered
  | StatusProcessing, StatusFailed => true
  | _, _ => false
  end.

(** The rows of the table of notifications. *)
Definition rows (w : World) : list Notification :=
  (map_to_list (notifications (db w))).*2.

(** Every row is stored under its own id. *)
Definition keyed (d : DB) : Prop :=
  ∀ k row, notifications d !! k = Some row → ID row = k.

(** The stored status of a notification. *)
Definition status_of (w : World) (id : UUID) : option Status :=
  NStatus <$> notifications (db w) !! id.

(** [pending + delivered + failed + cancelled] of a batch. *)
Definition tally (b : NotificationBatch) : Z :=
  PendingCount b + DeliveredCount b + FailedCount b + CancelledCount b.

Definition batches (w : World) : gmap UUID NotificationBatch :=
  notification_batches (db w).

(** Atomicity of the counter with the status of the child: between [w] and
    [w'] the batch [bid] changed exactly if the stored status of the child
    [id] went from a state that is not terminal to a terminal one. *)
Definition counted_with_transition (w w' : World) (id bid : UUID) : Prop :=
  batches w' !! bid ≠ batches w !! bid
  ↔ (terminal <$> status_of w id = Some false ∧ terminal <$> status_of w' id = Some true).

(** An operation that took [w] to [w'] touched neither the tables, nor the
    log, nor the provider, nor the status sink. *)
Definition untouched (w w' : World) : Prop :=
  db w' = db w ∧ log w' = log w ∧ sent w' = sent w ∧ hub w' = hub w.

(** [k] re-deliveries of the same id, one after the other. *)
Fixpoint redeliver (k : nat) (notificationID : string) (w : World) : World :=
  match k with
  | O => w
  | S k' => (app.ProcessDelivery notificationID (redeliver k' notificationID w)).2
  end.

(** The message [Enqueue] writes for a notification, if its priority has
    a topic. *)
Definition message_of (n : Notification) : option Message :=
  (λ topic, queue.message_for topic n) <$> queue.topicForPriority (NPriority n).

(** The id of the notification a create returned, if it returned one. *)
Definition returned_id (r : error + Notification) : option UUID :=
  match r with
  | inr n => Some (ID n)
  | inl _ => None
  end.

(** The provider answers every call with a transient error. *)
Definition keeps_failing (w : World) : Prop :=
  ∀ k x, ∃ e, provider w k x = inl e ∧ app.isTransient e = true.

(** The rows a committed batch adds to the table. *)
Definition with_children (ns : list Notification) (m : gmap UUID Notification)
    : gmap UUID Notification :=
  foldl (λ m n, <[ID n := postgres.inserted n]> m) m ns.

(** Neither of the two errors of the size check. *)
Definition no_size_error (e : error) : Prop :=
  errors.Is e ErrBatchEmpty = false ∧ errors.Is e ErrBatchTooLarge = false.

(** The body names the variable in one of its actions. *)
Definition references (body name : string) : Prop :=
  ∃ nodes, template.subst_Parse body = inr nodes
           ∧ template.Field (list_ascii_of_string name) ∈ nodes.

(** The lookup of the idempotency key finds nothing that is still valid. *)
Definition misses (input : app.CreateNotificationInput) (w : World) : Prop :=
  match app.in_IdempotencyKey input with
  | None => True
  | Some key =>
      match idempotency_keys (db w) !! key with
      | Some (_, expires_at) => expires_at ≤ clock w
      | None => True
      end
  end.

(** The columns of a notification that are set when it is created. *)
Definition fixed_columns (n : Notification) :=
  (ID n, BatchID n, IdempotencyKey n, NChannel n, Recipient n, Content n,
   NPriority n, ScheduledAt n, MaxRetries n, TemplateID n, TemplateVariables n,
   CreatedAt n).

(** Every row of [w] is still a row of [w'], with the columns set at its
    creation unchanged. *)
Definition rows_kept (w w' : World) : Prop :=
  ∀ k row, notifications (db w) !! k = Some row →
    ∃ row', notifications (db w') !! k = Some row'
            ∧ fixed_columns row' = fixed_columns row.

(** The strings a pattern stands for. *)
Fixpoint lang (r : regexp.re) (s : list ascii) : Prop :=
  match r with
  | regexp.Empty => False
  | regexp.Eps => s = []
  | regexp.Cls f => ∃ c, s = [c] ∧ f c = true
  | regexp.Cat r1 r2 => ∃ s1 s2, s = (s1 ++ s2)%list ∧ lang r1 s1 ∧ lang r2 s2
  | regexp.Alt r1 r2 => lang r1 s ∨ lang r2 s
  | regexp.Star r' => ∃ ss, s = concat ss ∧ Forall (lang r') ss
  end.

(** The filter of the request for the next page: the same conditions,
    with the cursor the previous answer gave. *)
Definition next_page (f : NotificationFilter) (cursor : UUID) : NotificationFilter :=
  {| f_Status := f_Status f; f_Channel := f_Channel f; f_DateFrom := f_DateFrom f;
     f_DateTo := f_DateTo f; f_BatchID := f_BatchID f; f_Cursor := Some cursor;
     f_PageSize := f_PageSize f |}.

(** The ids of the stored rows grow with their creation times. *)
Definition ids_follow_creation (w : World) : Prop :=
  ∀ a b, a ∈ rows w → b ∈ rows w → CreatedAt a < CreatedAt b → (ID a < ID b)%N.

(** The row the table holds after the insert of [n]: the columns of the
    statement as given, its three time stamps cut to whole microseconds,
    and the defaults of the columns it does not list. *)
Definition inserted_row (n : Notification) : Notification :=
  {| ID := ID n; BatchID := BatchID n; IdempotencyKey := IdempotencyKey n;
     NChannel := NChannel n; Recipient := Recipient n; Content := Content n;
     NPriority := NPriority n; NStatus := NStatus n;
     ScheduledAt := (λ t, 1000 * (t / 1000)) <$> ScheduledAt n;
     SentAt := None; FailedAt := None; ErrorMessage := None; RetryCount := 0;
     MaxRetries := MaxRetries n; ProviderMessageID := None; TemplateID := TemplateID n;
     TemplateVariables := TemplateVariables n;
     CreatedAt := 1000 * (CreatedAt n / 1000); UpdatedAt := 1000 * (UpdatedAt n / 1000) |}.

(** The child of the batch [batchID] that stands for an input without a
    template, made at [now] with the id [id]. *)
Definition batch_child (batchID : UUID) (now : Time) (input : app.CreateNotificationInput)
    (id : UUID) : Notification :=
  {| ID := id; BatchID := Some batchID; IdempotencyKey := app.in_IdempotencyKey input;
     NChannel := app.in_Channel input; Recipient := app.in_Recipient input;
     Content := app.in_Content input; NPriority := app.in_Priority input;
     NStatus := match app.in_ScheduledAt input with
                | Some _ => StatusScheduled
                | None => StatusPending
                end;
     ScheduledAt := app.in_ScheduledAt input; SentAt := None; FailedAt := None;
     ErrorMessage := None; RetryCount := 0;
     MaxRetries := if decide (app.in_Priority input = PriorityHigh) then 5
                   else if decide (app.in_Priority input = PriorityNormal) then 3 else 2;
     ProviderMessageID := None; TemplateID := None;
     TemplateVariables := app.in_TemplateVariables input;
     CreatedAt := now; UpdatedAt := now |}.

End spec.

(** ** Worlds for the worked cases *)

Module cases.
Import uuid domain world.

Definition empty_db : DB :=
  {| notifications := ∅; notification_batches := ∅; idempotency_keys := ∅;
     templates := ∅ |}.

Definition accepted : ProviderResponse :=
  {| MessageID := "abc"; RStatus := "accepted"; Timestamp := "2026-01-01T00:00:00Z" |}.

(** A world with the given tables, provider and I/O failures; ids are
    handed out from 100 on. *)
Definition world_of (d : DB) (p : nat → Notification → error + ProviderResponse)
    (fs : list bool) : World :=
  {| db := d; log := []; committed := []; hub := []; sent := [];
     provider := p; faults := fs; uuids := λ k, N.of_nat (100 + k);
     uuid_next := 0; clock := 1000 |}.

(** The same world at a later time. *)
Definition at_time (now : Time) (w : World) : World :=
  {| db := db w; log := log w; committed := committed w; hub := hub w; sent := sent w;
     provider := provider w; faults := faults w; uuids := uuids w;
     uuid_next := uuid_next w; clock := now |}.

Definition accepting : nat → Notification → error + ProviderResponse :=
  λ _ _, inr accepted.
Definition unavailable : nat → Notification → error + ProviderResponse :=
  λ _ _, inl (Wrapf ErrProviderUnavailable "status 503").
Definition rejecting : nat → Notification → error + ProviderResponse :=
  λ _ _, inl (Opaque "permanent provider error: status 400").

(** A stored sms notification of priority normal. *)
Definition row (id : UUID) (batchID : option UUID) (status : Status) (retries : Z)
    : Notification :=
  {| ID := id; BatchID := batchID; IdempotencyKey := None; NChannel := ChannelSMS;
     Recipient := "+905530050594"; Content := "Hello"; NPriority := PriorityNormal;
     NStatus := status; ScheduledAt := None; SentAt := None; FailedAt := None;
     ErrorMessage := None; RetryCount := retries; MaxRetries := 3;
     ProviderMessageID := None; TemplateID := None; TemplateVariables := ∅;
     CreatedAt := 0; UpdatedAt := 0 |}.

(** A stored sms notification that waits for its time. *)
Definition scheduled_row (id : UUID) (scheduledAt : Time) : Notification :=
  {| ID := id; BatchID := None; IdempotencyKey := None; NChannel := ChannelSMS;
     Recipient := "+905530050594"; Content := "Hello"; NPriority := PriorityNormal;
     NStatus := StatusScheduled; ScheduledAt := Some scheduledAt; SentAt := None;
     FailedAt := None; ErrorMessage := None; RetryCount := 0; MaxRetries := 3;
     ProviderMessageID := None; TemplateID := None; TemplateVariables := ∅;
     CreatedAt := 0; UpdatedAt := 0 |}.

Definition with_row (n : Notification) (d : DB) : DB :=
  set_notifications d (<[ID n := n]> (notifications d)).

(** A batch of [total] children, all pending. *)
Definition with_batch (id : UUID) (total : Z) (d : DB) : DB :=
  set_batches d (<[id := {| batch_ID := id; TotalCount := total; PendingCount := total;
                            DeliveredCount := 0; FailedCount := 0; CancelledCount := 0;
                            batch_CreatedAt := 0 |}]> (notification_batches d)).

Definition id7 : string := "00000000-0000-0000-0000-000000000007".

(** A message whose notification id is no uuid. *)
Definition bad_payload : NotificationPayload :=
  {| NotificationID := "not-a-uuid"; PChannel := "sms" |}.
Definition bad_message : Message :=
  {| Topic := "notifications.normal"; Key := "not-a-uuid"; MValue := Json bad_payload |}.

Definition sms (key : option string) (scheduledAt : option Time)
    : app.CreateNotificationInput :=
  {| app.in_Channel := ChannelSMS; app.in_Recipient := "+905530050594";
     app.in_Content := "Hello"; app.in_Priority := PriorityNormal;
     app.in_ScheduledAt := scheduledAt; app.in_IdempotencyKey := key;
     app.in_TemplateID := None; app.in_TemplateVariables := ∅ |}.

(** Two stored templates, one with a body that does not parse. *)
Definition greeting : Template :=
  {| tmpl_ID := 50%N; tmpl_Name := "welcome"; tmpl_Channel := ChannelSMS;
     tmpl_Body := "Hello {{.Name}}" |}.
Definition broken : Template :=
  {| tmpl_ID := 51%N; tmpl_Name := "broken"; tmpl_Channel := ChannelSMS;
     tmpl_Body := "Hello {{.Name" |}.
Definition with_template (t : Template) (d : DB) : DB :=
  {| notifications := notifications d; notification_batches := notification_batches d;
     idempotency_keys := idempotency_keys d;
     templates := <[tmpl_ID t := t]> (templates d) |}.

(** A request that takes its content from a template. *)
Definition templated (templateID : UUID) (variables : gmap string string)
    : app.CreateNotificationInput :=
  {| app.in_Channel := ChannelSMS; app.in_Recipient := "+905530050594";
     app.in_Content := ""; app.in_Priority := PriorityNormal;
     app.in_ScheduledAt := None; app.in_IdempotencyKey := None;
     app.in_TemplateID := Some templateID; app.in_TemplateVariables := variables |}.

End cases.

(** * Properties *)

Import uuid domain world spec.
Local Open Scope list_scope.

(** ** The I/O oracle and the repositories *)

Section repositories.
Implicit Types (w : World) (n : Notification) (id : UUID).

Lemma io_quiet w : faults w = [] → io w = (false, w).
Proof. unfold io. intros ->. reflexivity. Qed.

(** Consulting the oracle changes nothing but the oracle. *)
Lemma io_frame w :
  db (io w).2 = db w ∧ log (io w).2 = log w ∧ sent (io w).2 = sent w
  ∧ hub (io w).2 = hub w ∧ committed (io w).2 = committed w
  ∧ clock (io w).2 = clock w ∧ provider (io w).2 = provider w
  ∧ uuids (io w).2 = uuids w ∧ uuid_next (io w).2 = uuid_next w.
Proof. unfold io. destruct (faults w); simpl; repeat split. Qed.

Lemma GetByID_quiet id w :
  faults w = [] →
  postgres.GetByID id w =
    (match notifications (db w) !! id with
     | Some row => inr row
     | None => inl (Sentinel ErrNotificationNotFound)
     end, w).
Proof.
  intros Hq. unfold postgres.GetByID. rewrite io_quiet by done.
  destruct (notifications (db w) !! id); reflexivity.
Qed.

(** A read returns a stored row and changes nothing but the oracle. *)
Lemma GetByID_inv id w n w' :
  postgres.GetByID id w = (inr n, w') →
  notifications (db w) !! id = Some n ∧ untouched w w' ∧ clock w' = clock w
  ∧ provider w' = provider w ∧ committed w' = committed w.
Proof.
  unfold postgres.GetByID. destruct (io_frame w) as (Hd & Hl & Hs & Hh & Hc & Hk & Hp & _).
  destruct (io w) as [failed w1]; simpl in *. destruct failed; [discriminate|].
  rewrite <- Hd. destruct (notifications (db w1) !! id); [|discriminate].
  intros [= <- <-]. unfold untouched. rewrite Hd. auto 10.
Qed.

(** A failed read changes nothing but the oracle either. *)
Lemma GetByID_frame id w : untouched w (postgres.GetByID id w).2.
Proof.
  unfold postgres.GetByID, untouched. destruct (io_frame w) as (Hd & Hl & Hs & Hh & _).
  destruct (io w) as [failed w1]; simpl in *. destruct failed; simpl; [done|].
  destruct (notifications (db w1) !! id); simpl; done.
Qed.

Lemma UpdateStatus_quiet n w :
  faults w = [] →
  postgres.UpdateStatus n w =
    (None, set_db w (set_notifications (db w)
       (alter (λ row, touch row (NStatus n) (SentAt n) (FailedAt n) (ErrorMessage n)
                        (RetryCount n) (ProviderMessageID n) (UpdatedAt n))
              (ID n) (notifications (db w))))).
Proof. intros Hq. unfold postgres.UpdateStatus. rewrite io_quiet by done. reflexivity. Qed.

Lemma IncrementBatchCounter_quiet b s w :
  faults w = [] → terminal s = true →
  postgres.IncrementBatchCounter b s w =
    (None, set_db w (set_batches (db w)
       (alter (postgres.bump s) b (notification_batches (db w))))).
Proof.
  intros Hq Ht. unfold postgres.IncrementBatchCounter.
  destruct s; try discriminate; rewrite io_quiet by done; reflexivity.
Qed.

End repositories.

(** ** The delivery coordinator skips delivered and cancelled rows *)

Section skip.

(** C1, as amended: when the re-fetched row is [delivered] or [cancelled],
    [ProcessDelivery] returns [nil] and has touched neither the tables, nor
    the provider, nor the status sink, nor the log. *)
Theorem ProcessDelivery_skips_delivered_and_cancelled
    (notificationID : string) (id : UUID) (n : Notification) (w w' : World) :
  uuid.Parse notificationID = Some id →
  postgres.GetByID id w = (inr n, w') →
  NStatus n = StatusDelivered ∨ NStatus n = StatusCancelled →
  (app.ProcessDelivery notificationID w).1 = None
  ∧ untouched w (app.ProcessDelivery notificationID w).2.
Proof.
  intros Hparse Hget Hst. unfold app.ProcessDelivery. rewrite Hparse, Hget.
  apply GetByID_inv in Hget as (_ & Hu & _).
  destruct Hst as [-> | ->]; simpl; auto.
Qed.

Lemma ProcessDelivery_skips_delivered_and_cancelled_witness :
  let w := cases.world_of (cases.with_row (cases.row 7%N None StatusDelivered 0) cases.empty_db)
             cases.accepting [] in
  (app.ProcessDelivery cases.id7 w).1 = None
  ∧ untouched w (app.ProcessDelivery cases.id7 w).2.
Proof.
  intros w.
  apply (ProcessDelivery_skips_delivered_and_cancelled cases.id7 7%N
           (cases.row 7%N None StatusDelivered 0) w w).
  - vm_compute. reflexivity.
  - vm_compute. reflexivity.
  - left. reflexivity.
Defined.

(** C1, as stated, fails for the third terminal state: a [failed] row is
    set to [processing], sent to the provider again and ends [delivered]. *)
Lemma ProcessDelivery_reprocesses_failed_row :
  ¬ (∀ (notificationID : string) (id : UUID) (n : Notification) (w w' : World),
       uuid.Parse notificationID = Some id →
       postgres.GetByID id w = (inr n, w') →
       terminal (NStatus n) = true →
       (app.ProcessDelivery notificationID w).1 = None
       ∧ untouched w (app.ProcessDelivery notificationID w).2).
Proof.
  intros H.
  pose (w := cases.world_of (cases.with_row (cases.row 7%N None StatusFailed 3) cases.empty_db)
               cases.accepting []).
  destruct (H cases.id7 7%N (cases.row 7%N None StatusFailed 3) w w) as (_ & _ & _ & Hsent & _).
  - vm_compute. reflexivity.
  - vm_compute. reflexivity.
  - reflexivity.
  - vm_compute in Hsent. discriminate Hsent.
Qed.

(** What happens to that row, step by step. *)
Example failed_row_leaves_its_terminal_state :
  let w := cases.world_of (cases.with_row (cases.row 7%N None StatusFailed 3) cases.empty_db)
             cases.accepting [] in
  let w' := (app.ProcessDelivery cases.id7 w).2 in
  status_of w 7%N = Some StatusFailed
  ∧ status_of w' 7%N = Some StatusDelivered
  ∧ length (sent w') = 1%nat.
Proof. vm_compute. auto. Qed.

End skip.

(** ** Transient errors: retry until the retries are used up *)

Section retries.

(** One attempt that meets a transient error, on a quiet oracle. *)
Lemma attempt_transient (notificationID : string) (id : UUID) (n : Notification) (e : error) (w : World) :
  uuid.Parse notificationID = Some id →
  faults w = [] →
  notifications (db w) !! id = Some n →
  ID n = id →
  NStatus n ≠ StatusCancelled → NStatus n ≠ StatusDelivered →
  provider w (length (sent w)) (MarkProcessing n (clock w)) = inl e →
  app.isTransient e = true →
  let r := app.ProcessDelivery notificationID w in
  faults r.2 = [] ∧ provider r.2 = provider w ∧ clock r.2 = clock w
  ∧ length (sent r.2) = S (length (sent w))
  ∧ ∃ row, notifications (db r.2) !! id = Some row
      ∧ ID row = id
      ∧ RetryCount row = RetryCount n + 1
      ∧ MaxRetries row = MaxRetries n
      ∧ if RetryCount n + 1 <? MaxRetries n
        then r.1 = Some e ∧ NStatus row = StatusProcessing
        else r.1 = None ∧ NStatus row = StatusFailed
             ∧ ErrorMessage row = Some (errors.Error e).
Proof.
  intros Hparse Hq Hrow Hid Hc Hd Hprov Htr r. subst r.
  unfold app.ProcessDelivery. rewrite Hparse, GetByID_quiet, Hrow by done.
  rewrite !bool_decide_eq_false_2 by done. cbn [orb].
  rewrite UpdateStatus_quiet by done.
  unfold app.Send. cbn [provider sent set_db]. rewrite Hprov, Htr. cbn [andb].
  unfold HasRetriesLeft. cbn [RetryCount MaxRetries IncrementRetry MarkProcessing setStatus touch].
  destruct (RetryCount n + 1 <? MaxRetries n) eqn:Hleft.
  - rewrite UpdateStatus_quiet by done. cbn.
    rewrite length_app. cbn. repeat split; try done; try lia.
    rewrite Hid, !lookup_alter_eq, Hrow. cbn. eexists. split; [reflexivity|]. cbn. done.
  - rewrite UpdateStatus_quiet by done. cbn.
    unfold app.count. cbn [BatchID MarkFailed IncrementRetry MarkProcessing setStatus touch].
    destruct (BatchID n) as [b|].
    + rewrite IncrementBatchCounter_quiet by done. cbn.
      rewrite length_app. cbn. repeat split; try done; try lia.
      rewrite Hid, !lookup_alter_eq, Hrow. cbn. eexists. split; [reflexivity|]. cbn. done.
    + cbn. rewrite length_app. cbn. repeat split; try done; try lia.
      rewrite Hid, !lookup_alter_eq, Hrow. cbn. eexists. split; [reflexivity|]. cbn. done.
Qed.

Lemma redeliver_while_retries_left (notificationID : string) (id : UUID) (n : Notification) (w : World) :
  uuid.Parse notificationID = Some id →
  faults w = [] →
  notifications (db w) !! id = Some n →
  ID n = id →
  NStatus n ≠ StatusCancelled → NStatus n ≠ StatusDelivered →
  keeps_failing w →
  ∀ k : nat, RetryCount n + Z.of_nat k < MaxRetries n →
    let wk := redeliver k notificationID w in
    faults wk = [] ∧ provider wk = provider w
    ∧ ∃ row, notifications (db wk) !! id = Some row ∧ ID row = id
        ∧ RetryCount row = RetryCount n + Z.of_nat k
        ∧ MaxRetries row = MaxRetries n
        ∧ NStatus row ≠ StatusCancelled ∧ NStatus row ≠ StatusDelivered.
Proof.
  intros Hparse Hq Hrow Hid Hc Hd Hfail k. induction k as [|k IH]; intros Hk wk; subst wk.
  - cbn. repeat split; try done. exists n. repeat split; try done. lia.
  - destruct IH as (Hq' & Hp' & row & Hrow' & Hid' & Hrc & Hmax & Hc' & Hd'); [lia|].
    cbn [redeliver].
    destruct (Hfail (length (sent (redeliver k notificationID w)))
                (MarkProcessing row (clock (redeliver k notificationID w)))) as (e & He & Htr).
    rewrite <- Hp' in He.
    destruct (attempt_transient notificationID id row e _ Hparse Hq' Hrow' Hid' Hc' Hd' He Htr)
      as (Hq2 & Hp2 & _ & _ & row2 & Hrow2 & Hid2 & Hrc2 & Hmax2 & Hres).
    split; [done|]. split; [congruence|].
    exists row2. split; [done|]. split; [done|]. split; [lia|]. split; [congruence|].
    destruct (RetryCount row + 1 <? MaxRetries row) eqn:Hlt.
    + destruct Hres as [_ ->]. done.
    + apply Z.ltb_ge in Hlt. lia.
Qed.

(** C2, as amended: under transient errors only, every attempt on a row
    that is neither cancelled nor delivered stores one retry more; it
    returns the transient error and leaves the row [processing] while the
    new count is below [max_retries], and otherwise it marks the row
    [failed] and returns nil.  A row that starts below [max_retries] is
    therefore failed exactly when its count reaches [max_retries], and
    with the retries of priority normal the third attempt is the one that
    fails the row, at [retry_count = 3].  A row that is delivered again
    with its count already at [max_retries] or above is failed with a
    count above [max_retries]. *)
Theorem transient_errors_exhaust_retries
    (notificationID : string) (id : UUID) (n : Notification) (w : World) :
  uuid.Parse notificationID = Some id →
  faults w = [] →
  notifications (db w) !! id = Some n →
  ID n = id →
  NStatus n ≠ StatusCancelled → NStatus n ≠ StatusDelivered →
  keeps_failing w →
  (let attempt := app.ProcessDelivery notificationID w in
   ∃ row, notifications (db attempt.2) !! id = Some row
     ∧ RetryCount row = RetryCount n + 1
     ∧ MaxRetries row = MaxRetries n
     ∧ if RetryCount n + 1 <? MaxRetries n
       then (∃ e, attempt.1 = Some e ∧ app.isTransient e = true)
            ∧ NStatus row = StatusProcessing
       else attempt.1 = None ∧ NStatus row = StatusFailed
            ∧ MaxRetries row ≤ RetryCount row
            ∧ (RetryCount row = MaxRetries row ↔ RetryCount n < MaxRetries n)
            ∧ ∃ e, app.isTransient e = true ∧ ErrorMessage row = Some (errors.Error e))
  ∧ (∀ k : nat, RetryCount n + Z.of_nat k < MaxRetries n →
     let attempt := app.ProcessDelivery notificationID (redeliver k notificationID w) in
     ∃ row, notifications (db attempt.2) !! id = Some row
       ∧ RetryCount row = RetryCount n + Z.of_nat k + 1
       ∧ MaxRetries row = MaxRetries n
       ∧ if RetryCount row <? MaxRetries row
         then (∃ e, attempt.1 = Some e ∧ app.isTransient e = true)
              ∧ NStatus row = StatusProcessing
         else attempt.1 = None ∧ NStatus row = StatusFailed
              ∧ RetryCount row = MaxRetries row
              ∧ ∃ e, app.isTransient e = true ∧ ErrorMessage row = Some (errors.Error e))
  ∧ (RetryCount n = 0 → MaxRetries n = priorityMaxRetries PriorityNormal →
     is_Some (app.ProcessDelivery notificationID w).1
     ∧ is_Some (app.ProcessDelivery notificationID (redeliver 1 notificationID w)).1
     ∧ (app.ProcessDelivery notificationID (redeliver 2 notificationID w)).1 = None
     ∧ ∃ row, notifications (db (redeliver 3 notificationID w)) !! id = Some row
         ∧ NStatus row = StatusFailed ∧ RetryCount row = 3).
Proof.
  intros Hparse Hq Hrow Hid Hc Hd Hfail.
  assert (Hone : let attempt := app.ProcessDelivery notificationID w in
     ∃ row, notifications (db attempt.2) !! id = Some row
       ∧ RetryCount row = RetryCount n + 1
       ∧ MaxRetries row = MaxRetries n
       ∧ if RetryCount n + 1 <? MaxRetries n
         then (∃ e, attempt.1 = Some e ∧ app.isTransient e = true)
              ∧ NStatus row = StatusProcessing
         else attempt.1 = None ∧ NStatus row = StatusFailed
              ∧ MaxRetries row ≤ RetryCount row
              ∧ (RetryCount row = MaxRetries row ↔ RetryCount n < MaxRetries n)
              ∧ ∃ e, app.isTransient e = true
                     ∧ ErrorMessage row = Some (errors.Error e)).
  { intros attempt. subst attempt.
    destruct (Hfail (length (sent w)) (MarkProcessing n (clock w))) as (e & He & Htr).
    destruct (attempt_transient notificationID id n e w Hparse Hq Hrow Hid Hc Hd He Htr)
      as (_ & _ & _ & _ & row & Hrow' & _ & Hrc & Hmax & Hres).
    exists row. split; [done|]. split; [done|]. split; [done|].
    destruct (RetryCount n + 1 <? MaxRetries n) eqn:Hlt.
    - destruct Hres as [-> ->]. eauto.
    - destruct Hres as (-> & -> & ->). apply Z.ltb_ge in Hlt.
      split; [done|]. split; [done|]. split; [lia|]. split; [lia|]. eauto. }
  assert (Hmain : ∀ k : nat, RetryCount n + Z.of_nat k < MaxRetries n →
     let attempt := app.ProcessDelivery notificationID (redeliver k notificationID w) in
     ∃ row, notifications (db attempt.2) !! id = Some row
       ∧ RetryCount row = RetryCount n + Z.of_nat k + 1
       ∧ MaxRetries row = MaxRetries n
       ∧ if RetryCount row <? MaxRetries row
         then (∃ e, attempt.1 = Some e ∧ app.isTransient e = true)
              ∧ NStatus row = StatusProcessing
         else attempt.1 = None ∧ NStatus row = StatusFailed
              ∧ RetryCount row = MaxRetries row
              ∧ ∃ e, app.isTransient e = true ∧ ErrorMessage row = Some (errors.Error e)).
  { intros k Hk attempt. subst attempt.
    destruct (redeliver_while_retries_left notificationID id n w Hparse Hq Hrow Hid Hc Hd
                Hfail k Hk) as (Hq' & Hp' & row & Hrow' & Hid' & Hrc & Hmax & Hc' & Hd').
    destruct (Hfail (length (sent (redeliver k notificationID w)))
                (MarkProcessing row (clock (redeliver k notificationID w)))) as (e & He & Htr).
    rewrite <- Hp' in He.
    destruct (attempt_transient notificationID id row e _ Hparse Hq' Hrow' Hid' Hc' Hd' He Htr)
      as (_ & _ & _ & _ & row2 & Hrow2 & Hid2 & Hrc2 & Hmax2 & Hres).
    exists row2. split; [done|]. split; [lia|]. split; [congruence|].
    rewrite Hrc2, Hmax2.
    destruct (RetryCount row + 1 <? MaxRetries row) eqn:Hlt.
    - destruct Hres as [-> ->]. eauto.
    - destruct Hres as (-> & -> & ->). apply Z.ltb_ge in Hlt.
      repeat split; try done; [lia | eauto]. }
  split; [exact Hone|]. split; [exact Hmain|].
  intros Hrc0 Hmax3. change (priorityMaxRetries PriorityNormal) with 3 in Hmax3.
  destruct (Hmain 0%nat) as (r1 & _ & Hc1 & Hm1 & H1); [lia|].
  destruct (Hmain 1%nat) as (r2 & _ & Hc2 & Hm2 & H2); [lia|].
  destruct (Hmain 2%nat) as (r3 & Hr3 & Hc3 & Hm3 & H3); [lia|].
  cbn [redeliver] in *.
  replace (RetryCount r1 <? MaxRetries r1) with true in H1 by (symmetry; apply Z.ltb_lt; lia).
  replace (RetryCount r2 <? MaxRetries r2) with true in H2 by (symmetry; apply Z.ltb_lt; lia).
  replace (RetryCount r3 <? MaxRetries r3) with false in H3 by (symmetry; apply Z.ltb_ge; lia).
  destruct H1 as [(e1 & -> & _) _]. destruct H2 as [(e2 & -> & _) _].
  destruct H3 as (-> & Hst3 & _).
  repeat split; eauto. exists r3. repeat split; try done. lia.
Qed.

Lemma transient_errors_exhaust_retries_witness :
  let w := cases.world_of (cases.with_row (cases.row 7%N None StatusPending 0) cases.empty_db)
             cases.unavailable [] in
  ∃ row, notifications (db (redeliver 3 cases.id7 w)) !! 7%N = Some row
    ∧ NStatus row = StatusFailed ∧ RetryCount row = 3.
Proof.
  intros w.
  destruct (transient_errors_exhaust_retries cases.id7 7%N
              (cases.row 7%N None StatusPending 0) w) as (_ & _ & H).
  - vm_compute. reflexivity.
  - reflexivity.
  - vm_compute. reflexivity.
  - reflexivity.
  - discriminate.
  - discriminate.
  - intros k x. eexists. split; [reflexivity|]. reflexivity.
  - apply H; reflexivity.
Defined.

(** C2, as stated, fails for a row whose count is already at
    [max_retries]: a failed row that is delivered again (the guard does not
    skip it), or the row of the repository's own test of exhausted
    retries, ends [failed] with one retry more than [max_retries]. *)
Lemma replayed_row_exceeds_max_retries :
  ¬ (∀ (notificationID : string) (id : UUID) (n : Notification) (w : World),
       uuid.Parse notificationID = Some id →
       faults w = [] →
       notifications (db w) !! id = Some n →
       ID n = id →
       NStatus n ≠ StatusCancelled → NStatus n ≠ StatusDelivered →
       keeps_failing w →
       ∀ row, notifications (db (app.ProcessDelivery notificationID w).2) !! id = Some row →
         NStatus row = StatusFailed → RetryCount row = MaxRetries row).
Proof.
  intros H.
  pose (w := cases.world_of
               (cases.with_row (cases.row 7%N None StatusFailed 3) cases.empty_db)
               cases.unavailable []).
  assert (Hrow : ∃ row, notifications (db (app.ProcessDelivery cases.id7 w).2) !! 7%N
                        = Some row ∧ NStatus row = StatusFailed
                        ∧ RetryCount row = 4 ∧ MaxRetries row = 3).
  { vm_compute. eexists. repeat split. }
  destruct Hrow as (row & Hrow & Hst & Hrc & Hmax).
  specialize (H cases.id7 7%N (cases.row 7%N None StatusFailed 3) w).
  assert (Heq : RetryCount row = MaxRetries row).
  { apply H; [vm_compute; reflexivity|reflexivity|vm_compute; reflexivity|reflexivity
              |discriminate|discriminate| |exact Hrow|exact Hst].
    intros k x. eexists. split; reflexivity. }
  lia.
Qed.

(** The retries of a new notification are those of its priority. *)
Lemma NewNotification_retries channel recipient content priority scheduledAt id now n :
  NewNotification channel recipient content priority scheduledAt id now = inr n →
  RetryCount n = 0 ∧ MaxRetries n = priorityMaxRetries priority
  ∧ (MaxRetries n = 5 ∨ MaxRetries n = 3 ∨ MaxRetries n = 2)
  ∧ terminal (NStatus n) = false ∧ ID n = id.
Proof.
  unfold NewNotification.
  destruct (validateChannel channel); [discriminate|].
  destruct (validateRecipient channel recipient); [discriminate|].
  destruct (validateContent channel content); [discriminate|].
  destruct (validatePriority priority) eqn:Hp; [discriminate|].
  intros [= <-]. cbn. repeat split; try done.
  - unfold validatePriority in Hp. unfold priorityMaxRetries.
    repeat case_bool_decide; auto; discriminate.
  - destruct scheduledAt; reflexivity.
Qed.

End retries.

(** ** Batch counters *)

Section counters.

(** One terminal increment, in one statement. *)
Lemma bump_tally st b :
  terminal st = true →
  TotalCount (postgres.bump st b) = TotalCount b
  ∧ tally (postgres.bump st b) = tally b
  ∧ PendingCount (postgres.bump st b) = PendingCount b - 1
  ∧ DeliveredCount (postgres.bump st b) + FailedCount (postgres.bump st b)
      + CancelledCount (postgres.bump st b)
    = DeliveredCount b + FailedCount b + CancelledCount b + 1.
Proof.
  unfold tally, postgres.bump. intros Ht.
  cbn [TotalCount PendingCount DeliveredCount FailedCount CancelledCount].
  destruct st; try discriminate; repeat case_bool_decide; try congruence; lia.
Qed.

(** What a counter update does to the table of batches. *)
Lemma IncrementBatchCounter_batches bid st w :
  batches (postgres.IncrementBatchCounter bid st w).2 = batches w
  ∨ terminal st = true
    ∧ batches (postgres.IncrementBatchCounter bid st w).2
      = alter (postgres.bump st) bid (batches w).
Proof.
  unfold postgres.IncrementBatchCounter, batches.
  destruct (io_frame w) as (Hd & _).
  destruct st; cbn; auto; destruct (io w) as [[] w1]; cbn in *; rewrite ?Hd; auto.
Qed.

Lemma IncrementBatchCounter_notifications bid st w :
  notifications (db (postgres.IncrementBatchCounter bid st w).2) = notifications (db w)
  ∧ sent (postgres.IncrementBatchCounter bid st w).2 = sent w
  ∧ hub (postgres.IncrementBatchCounter bid st w).2 = hub w
  ∧ log (postgres.IncrementBatchCounter bid st w).2 = log w.
Proof.
  unfold postgres.IncrementBatchCounter.
  destruct (io_frame w) as (Hd & Hl & Hs & Hh & _).
  destruct st; cbn; auto; destruct (io w) as [[] w1]; cbn in *; rewrite ?Hd; auto.
Qed.

Lemma UpdateStatus_batches n w :
  batches (postgres.UpdateStatus n w).2 = batches w.
Proof.
  unfold postgres.UpdateStatus, batches. destruct (io_frame w) as (Hd & _).
  destruct (io w) as [[] w1]; cbn in *; rewrite ?Hd; auto.
Qed.

Lemma count_batches n st w :
  batches (app.count n st w) = batches w
  ∨ ∃ bid, BatchID n = Some bid ∧ terminal st = true
      ∧ batches (app.count n st w) = alter (postgres.bump st) bid (batches w).
Proof.
  unfold app.count. destruct (BatchID n) as [bid|]; [|auto].
  destruct (IncrementBatchCounter_batches bid st w) as [H | [Ht H]]; eauto.
Qed.

Lemma broadcastStatus_batches n w : batches (app.broadcastStatus n w) = batches w.
Proof. reflexivity. Qed.

Lemma ProcessDelivery_batches s w :
  batches (app.ProcessDelivery s w).2 = batches w
  ∨ ∃ bid st, terminal st = true
      ∧ batches (app.ProcessDelivery s w).2 = alter (postgres.bump st) bid (batches w).
Proof.
  unfold app.ProcessDelivery.
  destruct (uuid.Parse s) as [id|]; [|auto].
  pose proof (GetByID_frame id w) as (Hd & _).
  destruct (postgres.GetByID id w) as [[err|n] w1]; cbn [snd] in *;
    [left; unfold batches; congruence|].
  assert (H1 : batches w1 = batches w) by (unfold batches; congruence).
  destruct (_ || _); [auto|].
  pose proof (UpdateStatus_batches (MarkProcessing n (clock w1)) w1) as H2.
  destruct (postgres.UpdateStatus (MarkProcessing n (clock w1)) w1) as [[err|] w2];
    cbn [snd] in *; [left; congruence|].
  unfold app.Send.
  set (w3 := set_sent w2 _).
  assert (H3 : batches w3 = batches w) by (unfold w3, batches in *; cbn; congruence).
  destruct (provider w2 _ _) as [sendErr|resp].
  - destruct (_ && _); cbn [snd].
    + rewrite UpdateStatus_batches. auto.
    + rewrite broadcastStatus_batches.
      match goal with |- context [app.count ?m ?st (postgres.UpdateStatus ?m' ?x).2] =>
        pose proof (UpdateStatus_batches m' x) as H4;
        destruct (count_batches m st (postgres.UpdateStatus m' x).2) as [Hc | (bid & _ & Ht & Hc)] end.
      * left. congruence.
      * right. exists bid, StatusFailed. split; [done|]. congruence.
  - cbn [snd]. rewrite broadcastStatus_batches.
    match goal with |- context [app.count ?m ?st (postgres.UpdateStatus ?m' ?x).2] =>
      pose proof (UpdateStatus_batches m' x) as H4;
      destruct (count_batches m st (postgres.UpdateStatus m' x).2) as [Hc | (bid & _ & Ht & Hc)] end.
    + left. congruence.
    + right. exists bid, StatusDelivered. split; [done|]. congruence.
Qed.

Lemma Cancel_row_batches id w :
  batches (postgres.Cancel id w).2 = batches w.
Proof.
  unfold postgres.Cancel, batches. destruct (io_frame w) as (Hd & _).
  destruct (io w) as [[] w1]; cbn in *; [congruence|].
  destruct (notifications (db w1) !! id) as [row|]; cbn; [|congruence].
  destruct (CanCancel row); cbn; congruence.
Qed.

Lemma Cancel_batches id w :
  batches (app.Cancel id w).2 = batches w
  ∨ ∃ bid, batches (app.Cancel id w).2 = alter (postgres.bump StatusCancelled) bid (batches w).
Proof.
  unfold app.Cancel.
  pose proof (GetByID_frame id w) as (Hd & _).
  destruct (postgres.GetByID id w) as [[err|n] w1]; cbn [snd] in *;
    [left; unfold batches; congruence|].
  assert (H1 : batches w1 = batches w) by (unfold batches; congruence).
  destruct (domain.Cancel n (clock w1)) as [err|n']; cbn [snd]; [auto|].
  pose proof (Cancel_row_batches id w1) as H2.
  destruct (postgres.Cancel id w1) as [[err|] w2]; cbn [snd] in *; [left; congruence|].
  destruct (count_batches n' StatusCancelled w2) as [Hc | (bid & _ & Ht & Hc)].
  - left. congruence.
  - right. exists bid. congruence.
Qed.

(** A table of batches after at most one terminal increment. *)
Lemma alter_bump_tally st bid (m m' : gmap UUID NotificationBatch) k b :
  m' = m ∨ terminal st = true ∧ m' = alter (postgres.bump st) bid m →
  m !! k = Some b →
  ∃ b', m' !! k = Some b' ∧ TotalCount b' = TotalCount b ∧ tally b' = tally b
    ∧ (b' = b ∨ PendingCount b' = PendingCount b - 1).
Proof.
  intros [-> | [Ht ->]] Hb; [eauto 10|].
  destruct (decide (bid = k)) as [->|Hne].
  - rewrite lookup_alter_eq, Hb. cbn. eexists; split; [done|].
    destruct (bump_tally st b Ht) as (? & ? & ? & _). auto.
  - rewrite lookup_alter_ne by done. eauto 10.
Qed.

(** C3, as amended: every counter update keeps
    [pending + delivered + failed + cancelled] and [total] of every batch;
    a terminal increment takes exactly one from [pending] in the same
    statement.  The delivery path and the cancel path change a batch by
    at most one such increment.  (The increment is a statement of its own,
    sent after the status update of the child.) *)
Theorem batch_counters_keep_their_tally :
  (∀ bid st w b, batches w !! bid = Some b →
     ∃ b', batches (postgres.IncrementBatchCounter bid st w).2 !! bid = Some b'
       ∧ TotalCount b' = TotalCount b ∧ tally b' = tally b
       ∧ (b' = b
          ∨ terminal st = true ∧ b' = postgres.bump st b
            ∧ PendingCount b' = PendingCount b - 1
            ∧ DeliveredCount b' + FailedCount b' + CancelledCount b'
              = DeliveredCount b + FailedCount b + CancelledCount b + 1))
  ∧ (∀ notificationID w k b, batches w !! k = Some b →
       ∃ b', batches (app.ProcessDelivery notificationID w).2 !! k = Some b'
         ∧ TotalCount b' = TotalCount b ∧ tally b' = tally b
         ∧ (b' = b ∨ PendingCount b' = PendingCount b - 1))
  ∧ (∀ id w k b, batches w !! k = Some b →
       ∃ b', batches (app.Cancel id w).2 !! k = Some b'
         ∧ TotalCount b' = TotalCount b ∧ tally b' = tally b
         ∧ (b' = b ∨ PendingCount b' = PendingCount b - 1)).
Proof.
  split; [|split].
  - intros bid st w b Hb.
    destruct (IncrementBatchCounter_batches bid st w) as [-> | [Ht ->]].
    + exists b. auto.
    + rewrite lookup_alter_eq, Hb. cbn. eexists. split; [done|].
      destruct (bump_tally st b Ht) as (? & ? & ? & ?). auto 10.
  - intros s w k b Hb.
    destruct (ProcessDelivery_batches s w) as [H | (bid & st & Ht & H)].
    + eapply (alter_bump_tally StatusFailed k); eauto.
    + eapply (alter_bump_tally st bid); eauto.
  - intros id w k b Hb.
    destruct (Cancel_batches id w) as [H | (bid & H)].
    + eapply (alter_bump_tally StatusCancelled k); eauto.
    + eapply (alter_bump_tally StatusCancelled bid); eauto.
Qed.

Lemma batch_counters_keep_their_tally_witness :
  let w := cases.world_of
             (cases.with_batch 9%N 2
                (cases.with_row (cases.row 7%N (Some 9%N) StatusPending 0) cases.empty_db))
             cases.accepting [] in
  ∃ b', batches (app.ProcessDelivery cases.id7 w).2 !! 9%N = Some b'
    ∧ TotalCount b' = 2 ∧ tally b' = 2.
Proof.
  intros w.
  destruct batch_counters_keep_their_tally as (_ & H & _).
  destruct (H cases.id7 w 9%N
              {| batch_ID := 9%N; TotalCount := 2; PendingCount := 2; DeliveredCount := 0;
                 FailedCount := 0; CancelledCount := 0; batch_CreatedAt := 0 |})
    as (b' & Hb' & Htot & Htal & _).
  - vm_compute. reflexivity.
  - exists b'. auto.
Defined.

(** C3, as stated, fails in its last part: when the statement that stores
    [failed] is lost, the counter is moved all the same, and the child is
    left [processing] with its batch already counting it as failed. *)
Lemma counter_update_is_not_atomic :
  ¬ (∀ (notificationID : string) (id bid : UUID) (n : Notification) (w : World),
       uuid.Parse notificationID = Some id →
       notifications (db w) !! id = Some n →
       BatchID n = Some bid →
       counted_with_transition w (app.ProcessDelivery notificationID w).2 id bid).
Proof.
  intros H.
  pose (w := cases.world_of
               (cases.with_batch 9%N 2
                  (cases.with_row (cases.row 7%N (Some 9%N) StatusPending 0) cases.empty_db))
               cases.rejecting [false; false; true; false]).
  destruct (H cases.id7 7%N 9%N (cases.row 7%N (Some 9%N) StatusPending 0) w) as [Hto _].
  - vm_compute. reflexivity.
  - vm_compute. reflexivity.
  - reflexivity.
  - destruct Hto as [_ Hafter].
    + vm_compute. discriminate.
    + vm_compute in Hafter. discriminate Hafter.
Qed.

(** The same run, spelled out. *)
Example lost_status_update_still_counts :
  let w := cases.world_of
             (cases.with_batch 9%N 2
                (cases.with_row (cases.row 7%N (Some 9%N) StatusPending 0) cases.empty_db))
             cases.rejecting [false; false; true; false] in
  let w' := (app.ProcessDelivery cases.id7 w).2 in
  status_of w' 7%N = Some StatusProcessing
  ∧ (FailedCount <$> batches w' !! 9%N) = Some 1
  ∧ (PendingCount <$> batches w' !! 9%N) = Some 1.
Proof. vm_compute. auto. Qed.

End counters.

(** ** Idempotency keys *)

Section idempotency.

(** C4 at work.  The first create stores its row but its [SetNX] is lost
    (the error is logged only); the second create with the same key, inside
    the validity window, misses in [Check], collides on the unique column
    and returns [ErrDuplicateIdempotencyKey] instead of the stored row. *)
Theorem duplicate_key_collision_returns_error :
  let w := cases.world_of cases.empty_db cases.accepting [false; false; true; false] in
  let first := app.Create (cases.sms (Some "k") None) w in
  let second := app.Create (cases.sms (Some "k") None) first.2 in
  returned_id first.1 = Some 100%N
  ∧ (IdempotencyKey <$> notifications (db first.2) !! 100%N) = Some (Some "k")
  ∧ second.1 = inl (Sentinel ErrDuplicateIdempotencyKey)
  ∧ length (log second.2) = 1%nat.
Proof. vm_compute. auto. Qed.

(** The same collision in the race: the winner has inserted its row and
    has not reached [SetNX] yet. *)
Example duplicate_key_race :
  let w := cases.world_of cases.empty_db cases.accepting [] in
  let winner := app.attach (cases.row 7%N None StatusPending 0) None (cases.sms (Some "k") None) in
  let loser := app.Create (cases.sms (Some "k") None) (postgres.Create winner w).2 in
  loser.1 = inl (Sentinel ErrDuplicateIdempotencyKey).
Proof. vm_compute. auto. Qed.

(** Once the key is recorded, a second create finds the first row. *)
Example recorded_key_returns_first_row :
  let w := cases.world_of cases.empty_db cases.accepting [] in
  let first := app.Create (cases.sms (Some "k") None) w in
  let second := app.Create (cases.sms (Some "k") None) first.2 in
  returned_id first.1 = Some 100%N ∧ returned_id second.1 = Some 100%N
  ∧ length (log second.2) = 1%nat.
Proof. vm_compute. auto. Qed.

End idempotency.

(** ** Ids that cannot be delivered *)

Section unusable_ids.

Lemma CommitMessages_quiet msg w :
  faults w = [] → queue.CommitMessages msg w = set_committed w (committed w ++ [msg]).
Proof. intros Hq. unfold queue.CommitMessages. rewrite io_quiet by done. reflexivity. Qed.

Lemma retry_quiet msg w :
  faults w = [] → queue.retry msg w = set_log w (log w ++ [msg]).
Proof.
  intros Hq. unfold queue.retry. rewrite io_quiet by done. destruct msg; reflexivity.
Qed.

(** The loop of the consumer looks at nothing but whether the handler
    returned an error. *)
Lemma consume_quiet (handler : queue.MessageHandler) msg payload w :
  MValue msg = Json payload →
  faults (handler (NotificationID payload) w).2 = [] →
  let after := (handler (NotificationID payload) w).2 in
  let w' := queue.consume handler msg w in
  committed w' = committed after ++ [msg]
  ∧ db w' = db after ∧ sent w' = sent after ∧ hub w' = hub after
  ∧ log w' = log after
            ++ match (handler (NotificationID payload) w).1 with
               | Some _ => [msg]
               | None => []
               end.
Proof.
  intros Hv Hq after w'. subst after w'. unfold queue.consume. rewrite Hv.
  destruct (handler (NotificationID payload) w) as [[err|] w1]; cbn [fst snd] in *.
  - rewrite retry_quiet by done. rewrite CommitMessages_quiet by done. cbn. done.
  - rewrite CommitMessages_quiet by done. cbn. rewrite app_nil_r. done.
Qed.

(** C5, as amended: for an id that does not parse and for an id without a
    row the coordinator returns the error it met, having touched nothing;
    that error is not [nil], so the consumer writes the message to its
    topic again before it commits, as it does for every error of the
    handler, and it writes nothing again when the handler returned [nil]. *)
Theorem unusable_id_is_an_error_and_is_republished
    (msg : Message) (payload : NotificationPayload) (w : World) :
  MValue msg = Json payload →
  faults w = [] →
  uuid.Parse (NotificationID payload) = None
  ∨ (∃ id, uuid.Parse (NotificationID payload) = Some id
           ∧ notifications (db w) !! id = None) →
  (∃ err, app.ProcessDelivery (NotificationID payload) w = (Some err, w)
          ∧ app.isTransient err = false)
  ∧ (let w' := queue.consume app.ProcessDelivery msg w in
     log w' = log w ++ [msg] ∧ committed w' = committed w ++ [msg]
     ∧ db w' = db w ∧ sent w' = sent w ∧ hub w' = hub w)
  ∧ (∀ handler : queue.MessageHandler,
       faults (handler (NotificationID payload) w).2 = [] →
       (handler (NotificationID payload) w).1 = None →
       log (queue.consume handler msg w) = log (handler (NotificationID payload) w).2).
Proof.
  intros Hv Hq Hbad.
  assert (Hpd : ∃ err, app.ProcessDelivery (NotificationID payload) w = (Some err, w)
                       ∧ app.isTransient err = false).
  { unfold app.ProcessDelivery. destruct Hbad as [-> | (id & -> & Hnone)].
    - eexists. split; reflexivity.
    - rewrite GetByID_quiet, Hnone by done. eexists. split; reflexivity. }
  split; [exact Hpd|]. split.
  - destruct Hpd as (err & Hpd & _).
    destruct (consume_quiet app.ProcessDelivery msg payload w Hv) as (Hc & Hd & Hs & Hh & Hl).
    { rewrite Hpd. done. }
    rewrite Hpd in *. cbn [fst snd] in *. auto.
  - intros handler Hq' Hnil.
    destruct (consume_quiet handler msg payload w Hv Hq') as (_ & _ & _ & _ & Hl).
    rewrite Hl, Hnil, app_nil_r. done.
Qed.

Lemma unusable_id_is_an_error_and_is_republished_witness :
  let w := cases.world_of cases.empty_db cases.accepting [] in
  log (queue.consume app.ProcessDelivery cases.bad_message w) = [cases.bad_message].
Proof.
  intros w.
  destruct (unusable_id_is_an_error_and_is_republished cases.bad_message
              cases.bad_payload w)
    as (_ & (Hl & _) & _).
  - reflexivity.
  - reflexivity.
  - left. vm_compute. reflexivity.
  - exact Hl.
Defined.

(** C5, as stated, fails: the message with the unparseable id is on the
    log again after the consumer handled it. *)
Lemma unparseable_id_is_republished :
  ¬ (∀ (msg : Message) (payload : NotificationPayload) (w : World),
       MValue msg = Json payload →
       uuid.Parse (NotificationID payload) = None
       ∨ (∃ id, uuid.Parse (NotificationID payload) = Some id
                ∧ notifications (db w) !! id = None) →
       log (queue.consume app.ProcessDelivery msg w) = log w).
Proof.
  intros H.
  specialize (H cases.bad_message cases.bad_payload
                (cases.world_of cases.empty_db cases.accepting []) eq_refl).
  assert (Hp : uuid.Parse "not-a-uuid" = None) by (vm_compute; reflexivity).
  specialize (H (or_introl Hp)). vm_compute in H. discriminate H.
Qed.

End unusable_ids.

(** ** The provider's answer becomes a kind of error in one place *)

Section classification.





(** When the breaker refuses the call, the error [Send] returns is the
    breaker's own, which the coordinator does not take as transient:
    [ErrCircuitOpen], which it would take as transient, is never what the
    provider returns. *)
Lemma Send_refused_is_not_transient msg Unmarshal fresh stamp x :
  ∃ e, provider.Send (Some msg) Unmarshal fresh stamp x = inl e
       ∧ app.isTransient e = false
  ∧ ∀ r, provider.Send None Unmarshal fresh stamp x = r →
         r ≠ inl (Sentinel ErrCircuitOpen).
Proof.
  eexists. split; [reflexivity|]. split; [reflexivity|].
  intros r <-. unfold provider.Send, provider.doSend.
  repeat case_match; discriminate.
Qed.

End classification.

(** ** Status updates: which of them are conditional *)

Section conditional_updates.

Lemma CanCancel_spec row :
  CanCancel row = true ↔ NStatus row = StatusPending ∨ NStatus row = StatusScheduled.
Proof.
  unfold CanCancel. rewrite orb_true_iff, !bool_decide_eq_true. reflexivity.
Qed.

Lemma Cancel_quiet id w :
  faults w = [] →
  postgres.Cancel id w =
    match notifications (db w) !! id with
    | Some row =>
        if CanCancel row
        then (None, set_db w (set_notifications (db w)
                       (<[id := setStatus row StatusCancelled (clock w)]>
                          (notifications (db w)))))
        else (Some (Sentinel ErrInvalidStatusTransition), w)
    | None => (Some (Sentinel ErrInvalidStatusTransition), w)
    end.
Proof. intros Hq. unfold postgres.Cancel. rewrite io_quiet by done. reflexivity. Qed.

(** C7, as amended: the cancel statement is conditional, it changes a row
    only from [pending] or [scheduled] and reports a conflict otherwise, so
    a second cancel is a conflict, at the repository as at the service;
    [UpdateStatus], which stores every other status, is by id alone: it
    overwrites whatever status the row has and reports no conflict. *)
Theorem cancel_is_conditional_update_status_is_not (w : World) :
  faults w = [] →
  (∀ id row, notifications (db w) !! id = Some row →
     NStatus row = StatusPending ∨ NStatus row = StatusScheduled →
     (postgres.Cancel id w).1 = None
     ∧ status_of (postgres.Cancel id w).2 id = Some StatusCancelled)
  ∧ (∀ id row, notifications (db w) !! id = Some row →
       NStatus row ≠ StatusPending → NStatus row ≠ StatusScheduled →
       postgres.Cancel id w = (Some (Sentinel ErrInvalidStatusTransition), w)
       ∧ (∃ e, app.Cancel id w = (Some e, w)
               ∧ errors.Is e ErrInvalidStatusTransition = true))
  ∧ (∀ id row, notifications (db w) !! id = Some row →
       NStatus row = StatusPending ∨ NStatus row = StatusScheduled →
       (postgres.Cancel id (postgres.Cancel id w).2).1
       = Some (Sentinel ErrInvalidStatusTransition))
  ∧ (∀ n row, notifications (db w) !! ID n = Some row →
       (postgres.UpdateStatus n w).1 = None
       ∧ status_of (postgres.UpdateStatus n w).2 (ID n) = Some (NStatus n)).
Proof.
  intros Hq. split; [|split; [|split]].
  - intros id row Hrow Hst. rewrite Cancel_quiet, Hrow by done.
    rewrite (proj2 (CanCancel_spec row) Hst). unfold status_of.
    cbn [fst snd db set_db notifications set_notifications].
    rewrite lookup_insert_eq. done.
  - intros id row Hrow Hp Hs. split.
    + rewrite Cancel_quiet, Hrow by done. unfold CanCancel.
      rewrite !bool_decide_eq_false_2 by done. reflexivity.
    + unfold app.Cancel. rewrite GetByID_quiet, Hrow by done.
      unfold domain.Cancel, CanCancel. rewrite !bool_decide_eq_false_2 by done.
      eexists. split; reflexivity.
  - intros id row Hrow Hst. rewrite (Cancel_quiet id w), Hrow by done.
    rewrite (proj2 (CanCancel_spec row) Hst). cbn [fst snd].
    rewrite Cancel_quiet by done.
    cbn [db set_db notifications set_notifications].
    rewrite lookup_insert_eq. reflexivity.
  - intros n row Hrow. rewrite UpdateStatus_quiet by done. split; [reflexivity|].
    unfold status_of. cbn [fst snd db set_db notifications set_notifications].
    rewrite lookup_alter_eq, Hrow. reflexivity.
Qed.

Lemma cancel_is_conditional_update_status_is_not_witness :
  let w := cases.world_of (cases.with_row (cases.row 7%N None StatusPending 0) cases.empty_db)
             cases.accepting [] in
  (postgres.Cancel 7%N (postgres.Cancel 7%N w).2).1 = Some (Sentinel ErrInvalidStatusTransition).
Proof.
  intros w.
  destruct (cancel_is_conditional_update_status_is_not w eq_refl) as (_ & _ & H & _).
  apply (H 7%N (cases.row 7%N None StatusPending 0)).
  - vm_compute. reflexivity.
  - left. reflexivity.
Defined.

(** C7, as stated, fails for [UpdateStatus]: stored over a cancelled row,
    [processing] replaces [cancelled] and no conflict is reported, though
    the status machine has no such transition. *)
Lemma UpdateStatus_is_unconditional :
  ¬ (∀ (n row : Notification) (w : World),
       faults w = [] →
       notifications (db w) !! ID n = Some row →
       transition (NStatus row) (NStatus n) = false →
       errors.Is <$> (postgres.UpdateStatus n w).1 = Some (errors.Is (Sentinel ErrInvalidStatusTransition)) ∧
       status_of (postgres.UpdateStatus n w).2 (ID n) = Some (NStatus row)).
Proof.
  intros H.
  destruct (H (cases.row 7%N None StatusProcessing 0) (cases.row 7%N None StatusCancelled 0)
              (cases.world_of
                 (cases.with_row (cases.row 7%N None StatusCancelled 0) cases.empty_db)
                 cases.accepting [])) as [_ Hst].
  - reflexivity.
  - vm_compute. reflexivity.
  - reflexivity.
  - vm_compute in Hst. discriminate Hst.
Qed.

End conditional_updates.

(** ** Scheduled notifications *)

Section scheduled.

#[local] Instance by_scheduled_at_total : Total postgres.by_scheduled_at.
Proof.
  intros a b. unfold postgres.by_scheduled_at.
  destruct (ScheduledAt a), (ScheduledAt b); auto. lia.
Qed.

#[local] Instance by_scheduled_at_trans : Transitive postgres.by_scheduled_at.
Proof.
  intros a b c. unfold postgres.by_scheduled_at.
  destruct (ScheduledAt a), (ScheduledAt b), (ScheduledAt c); auto; try lia; contradiction.
Qed.

Lemma elem_of_rows w n : n ∈ rows w ↔ ∃ k, notifications (db w) !! k = Some n.
Proof.
  unfold rows. rewrite list_elem_of_fmap. split.
  - intros ([k n'] & -> & Hin). exists k. by apply elem_of_map_to_list.
  - intros (k & Hk). exists (k, n). split; [done|]. by apply elem_of_map_to_list.
Qed.

Lemma rows_ids_NoDup w : keyed (db w) → NoDup (ID <$> rows w).
Proof.
  intros Hkeyed. unfold rows.
  replace (ID <$> (map_to_list (notifications (db w))).*2)
    with ((map_to_list (notifications (db w))).*1).
  { apply NoDup_fst_map_to_list. }
  rewrite <- list_fmap_compose. apply list_fmap_ext.
  intros i [k n] Hin. apply list_elem_of_lookup_2, elem_of_map_to_list in Hin.
  cbn. symmetry. by apply Hkeyed.
Qed.

(** What the query of the scheduler selects. *)
Lemma ListDueScheduled_selects limit w ns w' :
  postgres.ListDueScheduled limit w = (inr ns, w') →
  untouched w w' ∧ clock w' = clock w
  ∧ (length ns ≤ limit)%nat
  ∧ Forall (λ n, n ∈ rows w ∧ postgres.due (clock w) n = true) ns
  ∧ StronglySorted postgres.by_scheduled_at ns
  ∧ (∀ m, m ∈ rows w → postgres.due (clock w) m = true → m ∉ ns →
       length ns = limit ∧ Forall (λ n, postgres.by_scheduled_at n m) ns)
  ∧ (keyed (db w) → NoDup (ID <$> ns)).
Proof.
  unfold postgres.ListDueScheduled.
  destruct (io_frame w) as (Hd & Hl & Hs & Hh & _ & Hk & _).
  destruct (io w) as [[] w1]; cbn [fst snd] in *; [discriminate|].
  intros [= <- <-]. rewrite Hd, Hk. fold (rows w).
  set (l := merge_sort postgres.by_scheduled_at
              (filter (λ n, postgres.due (clock w) n = true) (rows w))).
  assert (Hperm : l ≡ₚ filter (λ n, postgres.due (clock w) n = true) (rows w))
    by apply merge_sort_Permutation.
  assert (Hsorted : StronglySorted postgres.by_scheduled_at l)
    by apply (StronglySorted_merge_sort _).
  rewrite <- (take_drop limit l) in Hsorted.
  apply StronglySorted_app in Hsorted as (Hs12 & Hs1 & _).
  split; [by unfold untouched|]. split; [done|]. split; [rewrite length_take; lia|].
  split; [|split; [done|split]].
  - apply Forall_forall. intros n Hn.
    assert (n ∈ l) as Hnl by (eapply subseteq_take; eauto).
    rewrite Hperm in Hnl. apply list_elem_of_filter in Hnl. tauto.
  - intros m Hm Hdue Hnot.
    assert (m ∈ l) as Hml by (rewrite Hperm; apply list_elem_of_filter; done).
    rewrite <- (take_drop limit l) in Hml. apply elem_of_app in Hml as [?|Hrest]; [done|].
    split.
    + rewrite length_take. apply Nat.min_l.
      destruct (decide (limit ≤ length l)%nat) as [|Hlt]; [done|].
      rewrite drop_ge in Hrest by lia. by apply elem_of_nil in Hrest.
    + apply Forall_forall. intros n Hn. by apply Hs12.
  - intros Hkeyed.
    eapply sublist_NoDup; [|apply fmap_sublist, sublist_take].
    rewrite Hperm.
    eapply sublist_NoDup; [apply (rows_ids_NoDup w Hkeyed)|].
    apply fmap_sublist, sublist_filter.
Qed.

Lemma Enqueue_frame n w :
  db (queue.Enqueue n w).2 = db w ∧ clock (queue.Enqueue n w).2 = clock w
  ∧ (log (queue.Enqueue n w).2 = log w
     ∨ ∃ m, message_of n = Some m ∧ log (queue.Enqueue n w).2 = log w ++ [m]).
Proof.
  unfold queue.Enqueue, message_of.
  destruct (queue.topicForPriority (NPriority n)) as [topic|]; cbn [fst snd]; [|auto].
  destruct (io_frame w) as (Hd & Hl & _ & _ & _ & Hk & _).
  destruct (io w) as [[] w1]; cbn [fst snd db clock log set_log] in *; [auto|].
  rewrite Hl. split; [done|]. split; [done|]. right. eexists. split; [reflexivity|done].
Qed.

Lemma message_of_setStatus n st now : message_of (setStatus n st now) = message_of n.
Proof. reflexivity. Qed.

(** A status update either fails and changes nothing, or rewrites the
    row with the id of its argument. *)
Lemma UpdateStatus_cases n w :
  clock (postgres.UpdateStatus n w).2 = clock w
  ∧ log (postgres.UpdateStatus n w).2 = log w
  ∧ sent (postgres.UpdateStatus n w).2 = sent w
  ∧ hub (postgres.UpdateStatus n w).2 = hub w
  ∧ (is_Some (postgres.UpdateStatus n w).1 ∧ db (postgres.UpdateStatus n w).2 = db w
     ∨ (postgres.UpdateStatus n w).1 = None
       ∧ db (postgres.UpdateStatus n w).2
         = set_notifications (db w)
             (alter (λ row, touch row (NStatus n) (SentAt n) (FailedAt n) (ErrorMessage n)
                              (RetryCount n) (ProviderMessageID n) (UpdatedAt n))
                    (ID n) (notifications (db w)))).
Proof.
  unfold postgres.UpdateStatus.
  destruct (io_frame w) as (Hd & Hl & Hs & Hh & _ & Hk & _).
  destruct (io w) as [[] w1]; cbn [fst snd] in *.
  - repeat split; try done. left. split; [by eexists|done].
  - cbn. rewrite Hd. repeat split; try done. right. done.
Qed.

(** One turn of the loop: the row is stored as [pending] before anything
    is written to the log. *)
Lemma promote_step w n :
  clock (app.promote w n) = clock w
  ∧ (∀ id, id ≠ ID n →
       notifications (db (app.promote w n)) !! id = notifications (db w) !! id)
  ∧ (is_Some (notifications (db w) !! ID n) →
       is_Some (notifications (db (app.promote w n)) !! ID n))
  ∧ (log (app.promote w n) = log w
     ∨ ∃ m, message_of n = Some m ∧ log (app.promote w n) = log w ++ [m]
            ∧ (is_Some (notifications (db w) !! ID n) →
               status_of (app.promote w n) (ID n) = Some StatusPending)).
Proof.
  unfold app.promote. set (n' := setStatus n StatusPending (clock w)).
  destruct (UpdateStatus_cases n' w) as (Hk & Hl & _ & _ & Hcase).
  destruct (postgres.UpdateStatus n' w) as [[err|] w1]; cbn [fst snd] in *.
  { destruct Hcase as [[_ Hd] | [? _]]; [|discriminate]. rewrite Hd. auto 10. }
  destruct Hcase as [[[? ?] _] | [_ Hd]]; [discriminate|].
  destruct (Enqueue_frame n' w1) as (Hd2 & Hk2 & Hl2).
  unfold status_of. rewrite Hd2, Hk2, Hd.
  cbn [notifications set_notifications]. change (ID n') with (ID n).
  split; [done|]. split; [|split].
  - intros id Hne. by rewrite lookup_alter_ne.
  - intros [row Hrow]. rewrite lookup_alter_eq, Hrow. by eexists.
  - destruct Hl2 as [Hl2 | (m & Hm & Hl2)]; [left; congruence|].
    right. exists m. split; [done|]. split; [congruence|].
    intros [row Hrow]. rewrite lookup_alter_eq, Hrow. reflexivity.
Qed.

(** The whole loop, over rows with distinct ids. *)
Lemma promote_all ns : ∀ w,
  NoDup (ID <$> ns) →
  Forall (λ n, is_Some (notifications (db w) !! ID n)) ns →
  ∃ published msgs,
    published `sublist_of` ns
    ∧ Forall2 (λ n m, message_of n = Some m) published msgs
    ∧ log (foldl app.promote w ns) = log w ++ msgs
    ∧ Forall (λ n, status_of (foldl app.promote w ns) (ID n) = Some StatusPending) published
    ∧ (∀ id, id ∉ ID <$> ns →
         notifications (db (foldl app.promote w ns)) !! id = notifications (db w) !! id).
Proof.
  induction ns as [|n ns IH]; intros w Hnd Hex.
  - exists [], []. cbn. rewrite app_nil_r. repeat split; auto.
  - cbn [foldl]. rewrite fmap_cons in Hnd. apply NoDup_cons in Hnd as [Hn Hnd].
    apply Forall_cons in Hex as [Hhead Hex].
    destruct (promote_step w n) as (Hk & Hother & Hsome & Hlog).
    destruct (IH (app.promote w n) Hnd) as (pub & msgs & Hsub & Hmsg & Hl & Hst & Hfr).
    { eapply Forall_impl; [exact Hex|]. intros m Hm. cbn.
      destruct (decide (ID m = ID n)) as [->|Hne]; [auto|]. by rewrite Hother. }
    assert (Hfr' : ∀ id, id ∉ ID <$> n :: ns →
              notifications (db (foldl app.promote (app.promote w n) ns)) !! id
              = notifications (db w) !! id).
    { intros id Hid. rewrite fmap_cons in Hid. apply not_elem_of_cons in Hid as [Hne Hid].
      rewrite Hfr by done. by apply Hother. }
    destruct Hlog as [Hlog | (m & Hm & Hlog & Hpend)].
    + exists pub, msgs. split; [by apply sublist_cons|]. split; [done|].
      split; [congruence|]. split; done.
    + exists (n :: pub), (m :: msgs). split; [by apply sublist_skip|].
      split; [by constructor|]. split; [rewrite Hl, Hlog, <- app_assoc; done|].
      split; [|done]. constructor; [|done].
      unfold status_of. rewrite Hfr by done. by apply Hpend.
Qed.

(** On a quiet oracle every selected row is stored as [pending] and every
    one whose priority has a topic is published, in the order selected. *)
Lemma promote_all_quiet ns : ∀ w,
  faults w = [] →
  NoDup (ID <$> ns) →
  Forall (λ n, is_Some (notifications (db w) !! ID n)) ns →
  faults (foldl app.promote w ns) = []
  ∧ log (foldl app.promote w ns) = log w ++ omap message_of ns
  ∧ Forall (λ n, status_of (foldl app.promote w ns) (ID n) = Some StatusPending) ns
  ∧ (∀ id, id ∉ ID <$> ns →
       notifications (db (foldl app.promote w ns)) !! id = notifications (db w) !! id).
Proof.
  induction ns as [|n ns IH]; intros w Hq Hnd Hex.
  - cbn. rewrite app_nil_r. auto.
  - cbn [foldl]. rewrite fmap_cons in Hnd. apply NoDup_cons in Hnd as [Hn Hnd].
    apply Forall_cons in Hex as [[row Hrow] Hex].
    assert (Hstep : faults (app.promote w n) = []
              ∧ log (app.promote w n) = log w ++ omap message_of [n]
              ∧ status_of (app.promote w n) (ID n) = Some StatusPending
              ∧ ∀ id, id ≠ ID n →
                  notifications (db (app.promote w n)) !! id = notifications (db w) !! id).
    { unfold app.promote. rewrite UpdateStatus_quiet by done.
      unfold queue.Enqueue, status_of.
      change (NPriority (setStatus n StatusPending (clock w))) with (NPriority n).
      change (omap message_of [n]) with (option_list (message_of n)).
      unfold message_of.
      destruct (queue.topicForPriority (NPriority n)) as [topic|]; cbn [fst snd].
      - rewrite io_quiet by done.
        cbn [fst snd faults log db set_log set_db notifications set_notifications
             fmap option_fmap option_map option_list ID setStatus touch].
        rewrite lookup_alter_eq, Hrow.
        split; [done|]. split; [done|]. split; [done|].
        intros id Hne. by rewrite lookup_alter_ne.
      - cbn [fst snd faults log db set_log set_db notifications set_notifications
             fmap option_fmap option_map option_list ID setStatus touch].
        rewrite lookup_alter_eq, Hrow, app_nil_r.
        split; [done|]. split; [done|]. split; [done|].
        intros id Hne. by rewrite lookup_alter_ne. }
    destruct Hstep as (Hq1 & Hl1 & Hst1 & Hfr1).
    destruct (IH (app.promote w n) Hq1 Hnd) as (Hq2 & Hl2 & Hst2 & Hfr2).
    { eapply Forall_impl; [exact Hex|]. intros m Hm. cbn.
      destruct (decide (ID m = ID n)) as [->|Hne].
      - unfold status_of in Hst1.
        destruct (notifications (db (app.promote w n)) !! ID n); [by eexists|discriminate].
      - by rewrite Hfr1. }
    split; [done|]. split; [|split].
    + rewrite Hl2, Hl1, <- app_assoc. f_equal. cbn. destruct (message_of n); reflexivity.
    + constructor; [|done]. unfold status_of. rewrite Hfr2 by done. exact Hst1.
    + intros id Hid. rewrite fmap_cons in Hid. apply not_elem_of_cons in Hid as [Hne Hid].
      rewrite Hfr2 by done. by apply Hfr1.
Qed.

Lemma due_inv now n :
  postgres.due now n = true →
  NStatus n = StatusScheduled ∧ ∃ t, ScheduledAt n = Some t ∧ t ≤ now.
Proof.
  unfold postgres.due. intros [Hs Ht]%andb_true_iff. apply bool_decide_eq_true in Hs.
  split; [done|]. destruct (ScheduledAt n) as [t|]; [|discriminate].
  exists t. split; [done|]. by apply Z.leb_le.
Qed.

(** The frame of the intake path on the log. *)
Lemma Check_frame key w : untouched w (postgres.Check key w).2.
Proof.
  unfold postgres.Check, untouched. destruct (io_frame w) as (Hd & Hl & Hs & Hh & _).
  destruct (io w) as [[] w1]; cbn [fst snd] in *; [done|].
  destruct (idempotency_keys (db w1) !! key) as [[id expires]|]; [|done].
  destruct (clock w1 <? expires); done.
Qed.

Lemma SetNX_frame key id w :
  log (postgres.SetNX key id w).2 = log w
  ∧ notifications (db (postgres.SetNX key id w).2) = notifications (db w)
  ∧ notification_batches (db (postgres.SetNX key id w).2) = notification_batches (db w).
Proof.
  unfold postgres.SetNX. destruct (io_frame w) as (Hd & Hl & _).
  destruct (io w) as [[] w1]; cbn [fst snd] in *; [by rewrite Hd|].
  destruct (uuid.Parse id); [|cbn [fst snd]; by rewrite Hd].
  destruct (idempotency_keys (db w1) !! key);
    cbn [fst snd log db set_db notifications notification_batches set_keys];
    rewrite ?Hd; done.
Qed.

Lemma GetTemplateByID_frame id w : untouched w (postgres.GetTemplateByID id w).2.
Proof.
  unfold postgres.GetTemplateByID, untouched.
  destruct (io_frame w) as (Hd & Hl & Hs & Hh & _).
  destruct (io w) as [[] w1]; cbn [fst snd] in *; [done|].
  destruct (templates (db w1) !! id); done.
Qed.

Lemma insert_notification_cases n d :
  (∃ code constraintName,
     (postgres.insert_notification n d).1 = Some (PgError code constraintName))
  ∧ (postgres.insert_notification n d).2 = d
  ∨ (postgres.insert_notification n d).1 = None
    ∧ notifications d !! ID n = None
    ∧ (postgres.insert_notification n d).2
      = set_notifications d (<[ID n := postgres.inserted n]> (notifications d)).
Proof.
  unfold postgres.insert_notification.
  destruct (notifications d !! ID n); [left; split; [by do 2 eexists|done]|].
  destruct (postgres.key_taken _ _); [left; split; [by do 2 eexists|done]|]. right. done.
Qed.

Lemma wrapIDempotencyError_is_Some e :
  is_Some e → is_Some (postgres.wrapIDempotencyError e).
Proof.
  intros [x ->]. unfold postgres.wrapIDempotencyError.
  destruct x; try by eexists. destruct (_ && _); by eexists.
Qed.

(** The insert of the single create: an error and no change, or the row. *)
Lemma Create_row_cases n w :
  log (postgres.Create n w).2 = log w
  ∧ (is_Some (postgres.Create n w).1 ∧ db (postgres.Create n w).2 = db w
     ∨ (postgres.Create n w).1 = None
       ∧ db (postgres.Create n w).2
         = set_notifications (db w) (<[ID n := postgres.inserted n]> (notifications (db w)))).
Proof.
  unfold postgres.Create. destruct (io_frame w) as (Hd & Hl & _).
  destruct (io w) as [[] w1]; cbn [fst snd] in *.
  { split; [done|]. left. split; [by eexists|done]. }
  destruct (insert_notification_cases n (db w1))
    as [[(code & cn & Hsome) Heq] | (Hnone & _ & Heq)];
    destruct (postgres.insert_notification n (db w1)) as [err d]; cbn [fst snd] in *; subst d.
  - split; [done|]. left. split; [apply wrapIDempotencyError_is_Some; subst; by eexists|done].
  - subst err. split; [done|]. right. split; [done|]. by rewrite Hd.
Qed.

Section with_engine.
Context `{template.Engine}.

Lemma content_of_frame input w : untouched w (app.content_of input w).2.
Proof.
  unfold app.content_of. destruct (app.in_TemplateID input) as [tid|]; [|by unfold untouched].
  pose proof (GetTemplateByID_frame tid w) as Hu.
  destruct (postgres.GetTemplateByID tid w) as [[err|tmpl] w1]; exact Hu.
Qed.

Lemma publish_scheduled n t w : ScheduledAt n = Some t → app.publish n w = (None, w).
Proof. unfold app.publish. intros ->. reflexivity. Qed.

Lemma NewNotification_fields channel recipient content priority scheduledAt id now n :
  NewNotification channel recipient content priority scheduledAt id now = inr n →
  ID n = id ∧ ScheduledAt n = scheduledAt ∧ Content n = content ∧ NPriority n = priority
  ∧ NChannel n = channel ∧ BatchID n = None.
Proof.
  unfold NewNotification.
  destruct (validateChannel channel); [discriminate|].
  destruct (validateRecipient channel recipient); [discriminate|].
  destruct (validateContent channel content); [discriminate|].
  destruct (validatePriority priority); [discriminate|].
  intros [= <-]. cbn. done.
Qed.

Lemma Create_scheduled_log input t w :
  app.in_ScheduledAt input = Some t → log (app.Create input w).2 = log w.
Proof.
  intros Hsched. unfold app.Create.
  assert (Hhit : ∀ w0, log w0 = log w →
            log (match app.in_IdempotencyKey input with
                 | Some key =>
                     let '(found, existingID, _, w1) := postgres.Check key w0 in
                     (if found then Some existingID else None, w1)
                 | None => (None, w0)
                 end).2 = log w).
  { intros w0 Hw0. destruct (app.in_IdempotencyKey input) as [key|]; [|done].
    pose proof (Check_frame key w0) as (_ & Hl & _).
    destruct (postgres.Check key w0) as [[[found existingID] err] w1]. cbn in *. congruence. }
  specialize (Hhit w eq_refl).
  destruct (match app.in_IdempotencyKey input with
            | Some key => _ | None => _ end) as [hit w0]. cbn [snd] in Hhit.
  destruct hit as [existingID|].
  { pose proof (GetByID_frame (default Nil (Parse existingID)) w0) as (_ & Hl & _). congruence. }
  pose proof (content_of_frame input w0) as (_ & Hl1 & _).
  destruct (app.content_of input w0) as [[err|content] w1]; cbn [fst snd] in *; [congruence|].
  unfold new_uuid.
  destruct (NewNotification _ _ _ _ _ _ _) as [err|created] eqn:Hnew; cbn [snd]; [congruence|].
  apply NewNotification_fields in Hnew as (_ & Hs & _).
  match goal with |- context [postgres.Create ?m ?x] =>
    destruct (Create_row_cases m x) as (Hl2 & _);
    destruct (postgres.Create m x) as [[err|] w2] end; cbn [fst snd] in *.
  { rewrite Hl2. cbn. congruence. }
  rewrite publish_scheduled with (t := t) by (cbn; congruence). cbn [snd].
  destruct (app.in_IdempotencyKey input) as [key|].
  - match goal with |- context [postgres.SetNX ?k ?i ?x] =>
      destruct (SetNX_frame k i x) as (Hl3 & _) end.
    rewrite Hl3, Hl2. cbn. congruence.
  - rewrite Hl2. cbn. congruence.
Qed.

End with_engine.

(** What a published message carries. *)
Lemma message_of_fields n m :
  message_of n = Some m →
  Topic m = "notifications." +:+ NPriority n
  ∧ Key m = uuid.String (ID n)
  ∧ MValue m = Json {| NotificationID := uuid.String (ID n); PChannel := NChannel n |}.
Proof.
  unfold message_of, queue.topicForPriority.
  repeat case_bool_decide; cbn; intros [= <-];
    match goal with Hp : NPriority n = _ |- _ => rewrite Hp end; done.
Qed.

Lemma message_of_is_Some n :
  is_Some (message_of n)
  ↔ NPriority n = PriorityHigh ∨ NPriority n = PriorityNormal ∨ NPriority n = PriorityLow.
Proof.
  unfold message_of, queue.topicForPriority.
  repeat case_bool_decide; cbn; split; intros Hs; auto; try by eexists.
  - by destruct Hs.
  - destruct Hs as [?|[?|?]]; done.
Qed.

(** The messages of the rows that have a topic, one for each, in order. *)
Lemma omap_message_of (l : list Notification) :
  Forall2 (λ n m, message_of n = Some m)
    (filter (λ n, NPriority n = PriorityHigh ∨ NPriority n = PriorityNormal
                  ∨ NPriority n = PriorityLow) l)
    (omap message_of l).
Proof.
  induction l as [|n l IH]; [constructor|].
  destruct (message_of n) as [m|] eqn:Hm.
  - rewrite filter_cons_True by (apply message_of_is_Some; rewrite Hm; by eexists).
    cbn [omap list_omap]. rewrite Hm. by constructor.
  - rewrite filter_cons_False; [cbn [omap list_omap]; by rewrite Hm|].
    intros Hp. apply message_of_is_Some in Hp. rewrite Hm in Hp. by destruct Hp.
Qed.

Lemma StronglySorted_impl_elem {A} (R R' : relation A) (l : list A) :
  (∀ a b, a ∈ l → b ∈ l → R a b → R' a b) →
  StronglySorted R l → StronglySorted R' l.
Proof.
  intros Himpl Hs. induction Hs as [|x l Hl IH Hx]; [constructor|].
  constructor.
  - apply IH. intros a b Ha Hb. apply Himpl; by right.
  - apply Forall_forall. intros b Hb. apply Himpl; [by left|by right|].
    by eapply Forall_forall in Hx.
Qed.

(** C8: a create that carries [scheduled_at] leaves the log as it was,
    whatever else it does.  A run of the scheduler whose query succeeds
    selects at most 100 rows, no row twice, every one of them stored with
    status [scheduled] and [scheduled_at] no later than now, ordered by
    [scheduled_at], the earliest first; a stored row with status
    [scheduled] and [scheduled_at] no later than now is passed over only
    when 100 rows with no later [scheduled_at] were selected.  Every
    message the run writes is for a selected row: its topic is
    [notifications.] followed by the priority of the row, its key and its
    payload carry the id of the row, and the row is stored as [pending] by
    then.  When no I/O call fails, every selected row ends [pending] and
    exactly the selected rows of priority high, normal or low are
    published, one message each, in the order selected. *)
Theorem scheduled_rows_are_published_by_the_scheduler
    `{template.Engine} :
  (∀ input t w, app.in_ScheduledAt input = Some t → log (app.Create input w).2 = log w)
  ∧ (∀ w, keyed (db w) →
       (head (faults w) = Some true ∧ untouched w (app.processScheduled w))
       ∨ ∃ selected,
           (length selected ≤ 100)%nat
           ∧ NoDup (ID <$> selected)
           ∧ Forall (λ n, notifications (db w) !! ID n = Some n
                          ∧ NStatus n = StatusScheduled
                          ∧ ∃ t, ScheduledAt n = Some t ∧ t ≤ clock w) selected
           ∧ StronglySorted (λ a b, ∃ ta tb, ScheduledAt a = Some ta
                                      ∧ ScheduledAt b = Some tb ∧ ta ≤ tb) selected
           ∧ (∀ m t, notifications (db w) !! ID m = Some m →
                NStatus m = StatusScheduled → ScheduledAt m = Some t → t ≤ clock w →
                m ∉ selected →
                length selected = 100%nat
                ∧ Forall (λ n, ∃ tn, ScheduledAt n = Some tn ∧ tn ≤ t) selected)
           ∧ (∃ published msgs,
                published `sublist_of` selected
                ∧ Forall2 (λ n m, Topic m = "notifications." +:+ NPriority n
                                  ∧ Key m = uuid.String (ID n)
                                  ∧ MValue m = Json {| NotificationID := uuid.String (ID n);
                                                       PChannel := NChannel n |})
                    published msgs
                ∧ log (app.processScheduled w) = log w ++ msgs
                ∧ Forall (λ n, status_of (app.processScheduled w) (ID n)
                               = Some StatusPending) published)
           ∧ (faults w = [] →
                Forall (λ n, status_of (app.processScheduled w) (ID n)
                             = Some StatusPending) selected
                ∧ ∃ msgs,
                    log (app.processScheduled w) = log w ++ msgs
                    ∧ Forall2 (λ n m, Topic m = "notifications." +:+ NPriority n
                                      ∧ Key m = uuid.String (ID n)
                                      ∧ MValue m
                                        = Json {| NotificationID := uuid.String (ID n);
                                                  PChannel := NChannel n |})
                        (filter (λ n, NPriority n = PriorityHigh
                                      ∨ NPriority n = PriorityNormal
                                      ∨ NPriority n = PriorityLow) selected)
                        msgs)).
Proof.
  split; [apply Create_scheduled_log|].
  intros w Hkeyed. unfold app.processScheduled.
  destruct (postgres.ListDueScheduled 100 w) as [[err|selected] w1] eqn:Hquery.
  - left. unfold postgres.ListDueScheduled in Hquery.
    destruct (io_frame w) as (Hd & Hl & Hs & Hh & _). unfold io in *.
    destruct (faults w) as [|[] rest]; cbn in *; try discriminate.
    injection Hquery as _ <-. split; [done|]. by unfold untouched.
  - right. exists selected.
    assert (Hquiet : faults w = [] → w1 = w).
    { intros Hq. unfold postgres.ListDueScheduled in Hquery. rewrite io_quiet in Hquery by done.
      by injection Hquery as _ <-. }
    apply ListDueScheduled_selects in Hquery
      as ((Hd & Hl & _) & Hk & Hlen & Hsel & Hsorted & Hold & Hnd).
    specialize (Hnd Hkeyed).
    assert (Hstored : Forall (λ n, notifications (db w) !! ID n = Some n) selected).
    { eapply Forall_impl; [exact Hsel|]. intros n [(k & Hrow)%elem_of_rows _].
      cbn. by rewrite (Hkeyed k n Hrow). }
    assert (Hex : Forall (λ n, is_Some (notifications (db w1) !! ID n)) selected).
    { eapply Forall_impl; [exact Hstored|]. intros n Hn. cbn. rewrite Hd, Hn. by eexists. }
    assert (Hdue : ∀ n, n ∈ selected →
              NStatus n = StatusScheduled ∧ ∃ t, ScheduledAt n = Some t ∧ t ≤ clock w).
    { intros n Hn. eapply Forall_forall in Hsel as [_ Hdue]; [|done]. by apply due_inv. }
    assert (Hfields : ∀ l msgs,
              Forall2 (λ n m, message_of n = Some m) l msgs →
              Forall2 (λ n m, Topic m = "notifications." +:+ NPriority n
                              ∧ Key m = uuid.String (ID n)
                              ∧ MValue m = Json {| NotificationID := uuid.String (ID n);
                                                   PChannel := NChannel n |}) l msgs).
    { intros l msgs Hf. eapply Forall2_impl; [exact Hf|]. intros n m. apply message_of_fields. }
    split; [done|]. split; [done|]. split; [|split; [|split; [|split]]].
    + apply Forall_forall. intros n Hn.
      split; [by eapply Forall_forall in Hstored|]. by apply Hdue.
    + eapply StronglySorted_impl_elem; [|exact Hsorted].
      intros a b Ha Hb Hab.
      destruct (Hdue a Ha) as (_ & ta & Hta & _). destruct (Hdue b Hb) as (_ & tb & Htb & _).
      unfold postgres.by_scheduled_at in Hab. rewrite Hta, Htb in Hab. eauto.
    + intros m t Hm Hst Ht Hle Hnot.
      destruct (Hold m) as [Hfull Hall]; [apply elem_of_rows; eauto| |done|].
      { unfold postgres.due. rewrite Ht, bool_decide_eq_true_2 by done.
        by apply Z.leb_le. }
      split; [done|]. apply Forall_forall. intros n Hn.
      destruct (Hdue n Hn) as (_ & tn & Htn & _). exists tn. split; [done|].
      eapply Forall_forall in Hall; [|exact Hn].
      unfold postgres.by_scheduled_at in Hall. by rewrite Htn, Ht in Hall.
    + destruct (promote_all selected w1 Hnd Hex) as (pub & msgs & Hsub & Hmsgs & Hlog & Hst & _).
      exists pub, msgs. rewrite Hlog, Hl. split; [done|]. split; [by apply Hfields|done].
    + intros Hq. rewrite (Hquiet Hq) in *.
      destruct (promote_all_quiet selected w Hq Hnd Hex) as (_ & Hlog & Hst & _).
      split; [done|]. exists (omap message_of selected). split; [done|].
      apply Hfields, omap_message_of.
Qed.

Lemma scheduled_rows_are_published_by_the_scheduler_witness :
  let w := cases.world_of cases.empty_db cases.accepting [] in
  let due := cases.world_of (cases.with_row (cases.scheduled_row 7%N 500) cases.empty_db)
               cases.accepting [] in
  log (app.Create (cases.sms None (Some 5000)) w).2 = log w
  ∧ ∃ selected, cases.scheduled_row 7%N 500 ∈ selected
      ∧ Forall (λ n, status_of (app.processScheduled due) (ID n) = Some StatusPending)
          selected
      ∧ ∃ msgs, log (app.processScheduled due) = log due ++ msgs
          ∧ Forall2 (λ n m, Topic m = "notifications." +:+ NPriority n
                            ∧ Key m = uuid.String (ID n)
                            ∧ MValue m = Json {| NotificationID := uuid.String (ID n);
                                                 PChannel := NChannel n |})
              (filter (λ n, NPriority n = PriorityHigh ∨ NPriority n = PriorityNormal
                            ∨ NPriority n = PriorityLow) selected)
              msgs.
Proof.
  intros w due.
  destruct scheduled_rows_are_published_by_the_scheduler as [Hcreate Htick].
  split.
  - apply (Hcreate (cases.sms None (Some 5000)) 5000 w). reflexivity.
  - destruct (Htick due)
      as [[Hhead _] | (selected & _ & _ & Hsel & _ & Hall & _ & Hquiet)].
    + intros k row Hrow. cbn in Hrow.
      apply lookup_insert_Some in Hrow as [[<- <-] | [_ Hrow]]; [reflexivity|].
      by rewrite lookup_empty in Hrow.
    + discriminate Hhead.
    + exists selected. destruct (Hquiet eq_refl) as [Hst Hlog].
      split; [|split; [exact Hst|exact Hlog]].
      destruct selected as [|n rest].
      * destruct (Hall (cases.scheduled_row 7%N 500) 500) as [Hlen _];
          [reflexivity|reflexivity|reflexivity|cbn; lia|apply not_elem_of_nil|].
        discriminate Hlen.
      * apply Forall_cons in Hsel as [[Hn _] _]. cbn in Hn.
        apply lookup_insert_Some in Hn as [[_ <-] | [_ Hn]]; [by left|].
        by rewrite lookup_empty in Hn.
Defined.

(** A scheduled create and the tick that follows its due time. *)
Example scheduled_then_promoted :
  let w := cases.world_of cases.empty_db cases.accepting [] in
  let created := (app.Create (cases.sms None (Some 5000)) w).2 in
  let early := app.processScheduled created in
  let late := app.processScheduled (cases.at_time 6000 created) in
  log created = [] ∧ status_of created 100%N = Some StatusScheduled
  ∧ log early = [] ∧ status_of early 100%N = Some StatusScheduled
  ∧ Topic <$> log late = ["notifications.normal"]
  ∧ status_of late 100%N = Some StatusPending.
Proof. vm_compute. auto 10. Qed.

End scheduled.

(** ** Rows stay under their own id *)

Section keys.

Lemma keyed_empty : keyed cases.empty_db.
Proof. intros k row H. cbn in H. by rewrite lookup_empty in H. Qed.

Lemma keyed_insert_notification n d :
  keyed d → keyed (postgres.insert_notification n d).2.
Proof.
  intros Hk. destruct (insert_notification_cases n d) as [[_ ->] | (_ & _ & ->)]; [done|].
  intros k row. cbn. rewrite lookup_insert. case_decide as Hid.
  - intros [= <-]. by subst k.
  - apply Hk.
Qed.

Lemma keyed_Create n w : keyed (db w) → keyed (db (postgres.Create n w).2).
Proof.
  intros Hk. destruct (Create_row_cases n w) as (_ & [[_ ->] | [_ ->]]); [done|].
  intros k row. cbn. rewrite lookup_insert. case_decide as Hid.
  - intros [= <-]. by subst k.
  - apply Hk.
Qed.

Lemma keyed_UpdateStatus n w : keyed (db w) → keyed (db (postgres.UpdateStatus n w).2).
Proof.
  intros Hk. destruct (UpdateStatus_cases n w) as (_ & _ & _ & _ & [[_ ->] | [_ ->]]); [done|].
  intros k row. cbn. rewrite lookup_alter. case_decide as Hid.
  - subst k. destruct (notifications (db w) !! ID n) as [old|] eqn:Hold; [|done].
    intros [= <-]. cbn. by apply Hk.
  - apply Hk.
Qed.

Lemma keyed_Cancel id w : keyed (db w) → keyed (db (postgres.Cancel id w).2).
Proof.
  intros Hk. unfold postgres.Cancel. destruct (io_frame w) as (Hd & _).
  destruct (io w) as [[] w1]; cbn [fst snd] in *; [by rewrite Hd|].
  destruct (notifications (db w1) !! id) as [old|] eqn:Hold; cbn [snd]; [|by rewrite Hd].
  destruct (CanCancel old); cbn [snd]; [|by rewrite Hd].
  intros k row. cbn. rewrite lookup_insert. case_decide as Hid.
  - subst k. intros [= <-]. cbn. rewrite Hd in Hold. by apply Hk.
  - rewrite Hd. apply Hk.
Qed.

End keys.

(** ** Batch create *)

Section batch_create.

Lemma key_taken_spec (m : gmap UUID Notification) (key : string) :
  postgres.key_taken m (Some key) = true
  ↔ ∃ id row, m !! id = Some row ∧ IdempotencyKey row = Some key.
Proof.
  unfold postgres.key_taken. rewrite existsb_exists. split.
  - intros (row & Hin & Hk). apply bool_decide_eq_true in Hk.
    apply list_elem_of_In, list_elem_of_fmap in Hin as ([id row'] & -> & Hin).
    apply elem_of_map_to_list in Hin. eauto.
  - intros (id & row & Hrow & Hk). exists row. split; [|by apply bool_decide_eq_true].
    apply list_elem_of_In, list_elem_of_fmap. exists (id, row). split; [done|].
    by apply elem_of_map_to_list.
Qed.

(** What the insert keeps of a notification. *)
Lemma inserted_is_inserted_row n : postgres.inserted n = inserted_row n.
Proof. reflexivity. Qed.

(** The loop of inserts goes through when the oracle is quiet, the ids
    are new and differ, and no key is held by a row or given twice. *)
Lemma insert_children_accepts ns : ∀ w d,
  faults w = [] →
  NoDup (ID <$> ns) →
  Forall (λ n, notifications d !! ID n = None) ns →
  NoDup (omap IdempotencyKey ns) →
  (∀ id row k, notifications d !! id = Some row → IdempotencyKey row = Some k →
     k ∉ omap IdempotencyKey ns) →
  (postgres.insert_children ns w d).1 = (None, w).
Proof.
  induction ns as [|n ns IH]; intros w d Hq Hnd Hnew Hkeys Hheld;
    cbn [postgres.insert_children]; [done|].
  rewrite io_quiet by done.
  apply NoDup_cons in Hnd as [Hn Hnd]. apply Forall_cons in Hnew as [Hnone Hnew].
  unfold postgres.insert_notification. rewrite Hnone.
  assert (Htaken : postgres.key_taken (notifications d) (IdempotencyKey n) = false).
  { destruct (IdempotencyKey n) as [k|] eqn:Hk; [|done].
    destruct (postgres.key_taken (notifications d) (Some k)) eqn:Ht; [|done].
    apply key_taken_spec in Ht as (id & row & Hrow & Hrk).
    exfalso. apply (Hheld id row k Hrow Hrk). cbn [omap list_omap]. rewrite Hk. by left. }
  rewrite Htaken. apply IH; [done|done| | |].
  - apply Forall_forall. intros n' Hn'. cbn.
    rewrite lookup_insert_ne.
    + by eapply Forall_forall in Hnew.
    + intros Heq. apply Hn. rewrite Heq. apply list_elem_of_fmap. eauto.
  - cbn [omap list_omap] in Hkeys. destruct (IdempotencyKey n); [|done].
    by apply NoDup_cons in Hkeys as [_ ?].
  - intros id row k Hrow Hrk Hin. cbn in Hrow.
    apply lookup_insert_Some in Hrow as [[_ <-] | [_ Hrow]].
    + cbn in Hrk. cbn [omap list_omap] in Hkeys. rewrite Hrk in Hkeys.
      by apply NoDup_cons in Hkeys as [? _].
    + apply (Hheld id row k Hrow Hrk). cbn [omap list_omap].
      destruct (IdempotencyKey n); [by right|done].
Qed.

(** The transaction commits under the same conditions, when the id of the
    batch is new as well. *)
Lemma CreateBatch_tx_accepts batch ns w :
  faults w = [] →
  notification_batches (db w) !! batch_ID batch = None →
  NoDup (ID <$> ns) →
  Forall (λ n, notifications (db w) !! ID n = None) ns →
  NoDup (omap IdempotencyKey ns) →
  (∀ id row k, notifications (db w) !! id = Some row → IdempotencyKey row = Some k →
     k ∉ omap IdempotencyKey ns) →
  (postgres.CreateBatch batch ns w).1 = None
  ∧ faults (postgres.CreateBatch batch ns w).2 = [].
Proof.
  intros Hq Hfresh Hnd Hnew Hkeys Hheld. unfold postgres.CreateBatch.
  rewrite !io_quiet by done. unfold postgres.insert_batch. rewrite Hfresh.
  pose proof (insert_children_accepts ns w
                (set_batches (db w)
                   (<[batch_ID batch:=postgres.inserted_batch batch]>
                      (notification_batches (db w)))) Hq Hnd Hnew Hkeys Hheld) as Hc.
  destruct (postgres.insert_children ns w _) as [[e w1] d1]; cbn [fst snd] in *.
  injection Hc as -> ->. rewrite io_quiet by done. done.
Qed.

Lemma with_children_cons n ns m :
  with_children (n :: ns) m = with_children ns (<[ID n := postgres.inserted n]> m).
Proof. reflexivity. Qed.

Lemma with_children_other ns : ∀ m k,
  k ∉ ID <$> ns → with_children ns m !! k = m !! k.
Proof.
  induction ns as [|n ns IH]; intros m k Hk; [done|].
  rewrite with_children_cons, IH.
  - apply lookup_insert_ne. intros Heq. apply Hk. rewrite <- Heq. by left.
  - intros Hin. apply Hk. by right.
Qed.

Lemma with_children_lookup ns : ∀ m n,
  NoDup (ID <$> ns) → n ∈ ns → with_children ns m !! ID n = Some (inserted_row n).
Proof.
  induction ns as [|a ns IH]; intros m n Hnd Hn; [by apply elem_of_nil in Hn|].
  apply NoDup_cons in Hnd as [Ha Hnd]. rewrite with_children_cons.
  apply elem_of_cons in Hn as [->|Hn].
  - rewrite (with_children_other ns _ (ID a) Ha). apply lookup_insert_eq.
  - by apply IH.
Qed.

(** With a quiet oracle the second loop writes the message of every child
    that has a topic and carries no [scheduled_at], in order. *)
Lemma publish_all_quiet ns : ∀ w,
  faults w = [] →
  faults (app.publish_all ns w) = []
  ∧ log (app.publish_all ns w)
    = log w ++ omap message_of (filter (λ n, ScheduledAt n = None) ns).
Proof.
  induction ns as [|n ns IH]; intros w Hq; cbn [app.publish_all].
  - split; [done|]. by rewrite app_nil_r.
  - unfold app.publish. destruct (ScheduledAt n) eqn:Hs.
    + rewrite filter_cons_False by (by rewrite Hs). by apply IH.
    + rewrite filter_cons_True by done. cbn [omap list_omap].
      unfold queue.Enqueue, message_of.
      destruct (queue.topicForPriority (NPriority n)) as [topic|]; cbn [fst snd fmap option_fmap option_map].
      * rewrite io_quiet by done. cbn [snd].
        destruct (IH (set_log w (log w ++ [queue.message_for topic n])) Hq) as [Hf Hl].
        split; [done|]. rewrite Hl. cbn [log set_log]. by rewrite <- app_assoc.
      * by apply IH.
Qed.

Lemma message_of_all (l : list Notification) :
  Forall (λ n, validatePriority (NPriority n) = None) l →
  Forall2 (λ n m, Topic m = "notifications." +:+ NPriority n
                  ∧ Key m = uuid.String (ID n)
                  ∧ MValue m = Json {| NotificationID := uuid.String (ID n);
                                       PChannel := NChannel n |})
    l (omap message_of l).
Proof.
  induction 1 as [|n l Hp _ IH]; [constructor|].
  cbn [omap list_omap].
  destruct (message_of n) as [m|] eqn:Hm.
  - constructor; [by apply message_of_fields|done].
  - exfalso. revert Hp Hm. unfold validatePriority, message_of, queue.topicForPriority.
    repeat case_bool_decide; cbn; discriminate.
Qed.

(** The children of a batch of inputs that pass the validation. *)
Lemma batch_children batchID now (g : nat → UUID) inputs : ∀ k,
  let ns := zip_with (batch_child batchID now) inputs (g <$> seq k (length inputs)) in
  ID <$> ns = g <$> seq k (length inputs)
  ∧ omap IdempotencyKey ns = omap app.in_IdempotencyKey inputs
  ∧ (Forall (λ input, validatePriority (app.in_Priority input) = None) inputs →
     Forall (λ n, validatePriority (NPriority n) = None) ns).
Proof.
  induction inputs as [|input inputs IH]; intros k; cbn zeta; [by repeat split|].
  destruct (IH (S k)) as (Hid & Hkey & Hp). cbn zeta in *.
  cbn [length seq fmap list_fmap zip_with omap list_omap batch_child ID IdempotencyKey].
  split; [by f_equal|]. split.
  - destruct (app.in_IdempotencyKey input); [by f_equal|done].
  - intros [H1 H2]%Forall_cons. constructor; [done|by apply Hp].
Qed.

Lemma insert_children_cases ns : ∀ w d,
  let r := postgres.insert_children ns w d in
  db r.1.2 = db w ∧ log r.1.2 = log w
  ∧ match r.1.1 with
    | Some e => no_size_error e
    | None =>
        notifications r.2 = with_children ns (notifications d)
        ∧ notification_batches r.2 = notification_batches d
        ∧ idempotency_keys r.2 = idempotency_keys d
        ∧ templates r.2 = templates d
    end.
Proof.
  induction ns as [|n ns IH]; intros w d; cbn [postgres.insert_children].
  - cbn. auto 10.
  - destruct (io_frame w) as (Hd & Hl & _).
    destruct (io w) as [[] w1]; cbn [fst snd] in *.
    { cbn. split; [done|]. split; [done|]. by split. }
    destruct (insert_notification_cases n d) as [[(code & cn & He) Heq] | (Hnone & _ & Heq)];
      destruct (postgres.insert_notification n d) as [err d']; cbn [fst snd] in *; subst.
    + cbn [fst snd]. split; [done|]. split; [done|].
      unfold postgres.wrapIDempotencyError.
      destruct (bool_decide (code = postgres.unique_violation) && _); by split.
    + specialize (IH w1 (set_notifications d (<[ID n:=postgres.inserted n]> (notifications d)))).
      cbn zeta in IH. destruct IH as (Hd2 & Hl2 & IH).
      split; [congruence|]. split; [congruence|].
      destruct (postgres.insert_children ns w1 _) as [[[e|] w2] d2]; cbn [fst snd] in *; done.
Qed.

(** The transaction: an error and the tables as they were, or the batch
    row and every child. *)
Lemma CreateBatch_tx_cases batch ns w :
  let r := postgres.CreateBatch batch ns w in
  log r.2 = log w
  ∧ match r.1 with
    | Some e => db r.2 = db w ∧ no_size_error e
    | None =>
        notification_batches (db w) !! batch_ID batch = None
        ∧ notification_batches (db r.2)
          = <[batch_ID batch := postgres.inserted_batch batch]> (notification_batches (db w))
        ∧ notifications (db r.2) = with_children ns (notifications (db w))
        ∧ idempotency_keys (db r.2) = idempotency_keys (db w)
        ∧ templates (db r.2) = templates (db w)
    end.
Proof.
  unfold postgres.CreateBatch.
  destruct (io_frame w) as (Hd & Hl & _).
  destruct (io w) as [[] w1]; cbn [fst snd] in *; [by repeat split|].
  destruct (io_frame w1) as (Hd1 & Hl1 & _).
  destruct (io w1) as [[] w2]; cbn [fst snd] in *; [repeat split; congruence|].
  unfold postgres.insert_batch.
  destruct (notification_batches (db w2) !! batch_ID batch) eqn:Hfresh; cbn [fst snd].
  { repeat split; congruence. }
  pose proof (insert_children_cases ns w2
                (set_batches (db w2)
                   (<[batch_ID batch:=postgres.inserted_batch batch]>
                      (notification_batches (db w2))))) as Hc.
  cbn zeta in Hc. destruct Hc as (Hd3 & Hl3 & Hc).
  destruct (postgres.insert_children ns w2 _) as [[[e|] w3] d3]; cbn [fst snd] in *.
  { repeat split; try congruence; apply Hc. }
  destruct Hc as (Hn & Hb & Hk & Ht).
  destruct (io_frame w3) as (Hd4 & Hl4 & _).
  destruct (io w3) as [[] w4]; cbn [fst snd] in *; [repeat split; congruence|].
  cbn [db set_db log]. rewrite Hn, Hb, Hk, Ht. cbn.
  split; [congruence|]. repeat split; congruence.
Qed.
Lemma NewNotification_error channel recipient content priority scheduledAt id now e :
  NewNotification channel recipient content priority scheduledAt id now = inl e →
  no_size_error e.
Proof.
  unfold NewNotification, validateChannel, validateRecipient, validateContent,
    validatePriority, no_size_error.
  repeat case_match; intros [= <-]; simplify_eq; by split.
Qed.

Section with_engine.
Context `{template.Engine}.

Lemma content_of_error input w e :
  (app.content_of input w).1 = inl e → no_size_error e.
Proof.
  unfold app.content_of, postgres.GetTemplateByID, Render, no_size_error.
  repeat case_match; cbn [fst snd]; intros [= <-]; simplify_eq; by split.
Qed.

(** The first loop: nothing is stored or published while the children are
    built, and every child gets the id of the batch. *)
Lemma build_cases batchID inputs : ∀ w,
  untouched w (app.build batchID inputs w).2
  ∧ match (app.build batchID inputs w).1 with
    | inl e => no_size_error e
    | inr ns =>
        length ns = length inputs
        ∧ Forall (λ n, BatchID n = Some batchID) ns
    end.
Proof.
  induction inputs as [|input inputs IH]; intros w; cbn [app.build].
  - cbn. by unfold untouched.
  - pose proof (content_of_frame input w) as Hu.
    pose proof (content_of_error input w) as He.
    destruct (app.content_of input w) as [[err|content] w1]; cbn [fst snd] in *; [auto|].
    unfold new_uuid.
    destruct (NewNotification _ _ _ _ _ _ _) as [err|created] eqn:Hnew; cbn [fst snd].
    { split; [done|]. by eapply NewNotification_error. }
    destruct (IH (set_uuid_next w1 (S (uuid_next w1)))) as [Hu2 Hres].
    destruct (app.build batchID inputs _) as [[err|ns] w2]; cbn [fst snd] in *.
    + split; [|done]. destruct Hu as (? & ? & ? & ?), Hu2 as (? & ? & ? & ?).
      unfold untouched. cbn in *. repeat split; congruence.
    + split.
      * destruct Hu as (? & ? & ? & ?), Hu2 as (? & ? & ? & ?).
        unfold untouched. cbn in *. repeat split; congruence.
      * destruct Hres as [Hlen Hall]. cbn. split; [by rewrite Hlen|].
        constructor; [reflexivity|done].
Qed.

(** The first loop accepts inputs that carry no template and pass the
    four checks: it builds one child for each, with the next ids. *)
Lemma build_accepts batchID inputs : ∀ w,
  Forall (λ input,
            app.in_TemplateID input = None
            ∧ validateChannel (app.in_Channel input) = None
            ∧ validateRecipient (app.in_Channel input) (app.in_Recipient input) = None
            ∧ validateContent (app.in_Channel input) (app.in_Content input) = None
            ∧ validatePriority (app.in_Priority input) = None) inputs →
  (app.build batchID inputs w).1
  = inr (zip_with (batch_child batchID (clock w)) inputs
           (uuids w <$> seq (uuid_next w) (length inputs)))
  ∧ faults (app.build batchID inputs w).2 = faults w.
Proof.
  induction inputs as [|input inputs IH]; intros w Hvalid; cbn [app.build]; [done|].
  apply Forall_cons in Hvalid as [(Htid & Hch & Hrec & Hcont & Hp) Hvalid].
  unfold app.content_of. rewrite Htid. unfold new_uuid, NewNotification.
  rewrite Hch, Hrec, Hcont, Hp.
  destruct (IH (set_uuid_next w (S (uuid_next w))) Hvalid) as [Hns Hf].
  destruct (app.build batchID inputs _) as [[err|ns] w2]; cbn [fst snd] in *; [discriminate|].
  injection Hns as ->. split; [|done].
  cbn [length seq fmap list_fmap zip_with]. f_equal. f_equal.
  unfold batch_child, app.attach. cbn. rewrite Htid. f_equal.
  revert Hp. unfold validatePriority, priorityMaxRetries.
  repeat case_bool_decide; repeat case_decide; cbn; try done.
Qed.

End with_engine.

(** The second loop: the tables stay as committed, and every message
    written is the one of a child that carries no [scheduled_at]. *)
Lemma publish_all_cases ns : ∀ w,
  db (app.publish_all ns w) = db w
  ∧ ∃ msgs, log (app.publish_all ns w) = log w ++ msgs
      ∧ Forall (λ m, ∃ n, n ∈ ns ∧ ScheduledAt n = None ∧ message_of n = Some m) msgs.
Proof.
  induction ns as [|n ns IH]; intros w; cbn [app.publish_all].
  - split; [done|]. exists []. by rewrite app_nil_r.
  - destruct (IH (app.publish n w).2) as (Hd & msgs & Hl & Hall).
    assert (Hall' : Forall (λ m, ∃ n0, n0 ∈ n :: ns ∧ ScheduledAt n0 = None
                                      ∧ message_of n0 = Some m) msgs).
    { eapply Forall_impl; [exact Hall|]. intros m (n0 & ? & ? & ?). exists n0.
      split; [by right|done]. }
    unfold app.publish in *. destruct (ScheduledAt n) eqn:Hs; cbn [fst snd queue.EnqueueScheduled] in *.
    + split; [done|]. eauto.
    + destruct (Enqueue_frame n w) as (Hd1 & _ & [Hl1 | (m & Hm & Hl1)]).
      * split; [congruence|]. exists msgs. split; [congruence|done].
      * split; [congruence|]. exists (m :: msgs). split.
        -- rewrite Hl, Hl1, <- app_assoc. done.
        -- constructor; [|done]. exists n. split; [by left|done].
Qed.

(** C9: an empty input and an input of more than 1000 are rejected with
    the world as it was.  For every other size the size check lets the
    input through; then either an error is returned, with the tables and
    the log as they were, or the batch row and every child are in the
    tables together, every child carries the id of the batch, and what was
    written to the log since are messages of children of this batch.
    And a batch of 1 to 1000 inputs is accepted, stored and published
    when nothing stands in its way: no I/O call fails, every input passes
    the four checks and names no template, the ids handed out are new and
    differ from each other, and no idempotency key is given twice or held
    by a stored row.  Then the batch and one child for each input are
    returned, the batch row and every child are stored, and one message
    is written for each child without [scheduled_at], in the order of the
    inputs, to the topic of its priority and keyed by its id. *)
Theorem CreateBatch_is_all_or_nothing `{template.Engine}
    (inputs : list app.CreateNotificationInput) (w : World) :
  (length inputs = 0%nat → app.CreateBatch inputs w = (inl (Sentinel ErrBatchEmpty), w))
  ∧ ((1000 < length inputs)%nat →
     app.CreateBatch inputs w = (inl (Sentinel ErrBatchTooLarge), w))
  ∧ match (app.CreateBatch inputs w).1 with
    | inl e =>
        db (app.CreateBatch inputs w).2 = db w
        ∧ log (app.CreateBatch inputs w).2 = log w
        ∧ ((1 ≤ length inputs ≤ 1000)%nat → no_size_error e)
    | inr (batch, ns) =>
        (1 ≤ length inputs ≤ 1000)%nat
        ∧ length ns = length inputs
        ∧ TotalCount batch = Z.of_nat (length inputs)
        ∧ PendingCount batch = Z.of_nat (length inputs)
        ∧ Forall (λ n, BatchID n = Some (batch_ID batch)) ns
        ∧ batches w !! batch_ID batch = None
        ∧ batches (app.CreateBatch inputs w).2
          = <[batch_ID batch := postgres.inserted_batch batch]> (batches w)
        ∧ notifications (db (app.CreateBatch inputs w).2)
          = with_children ns (notifications (db w))
        ∧ ∃ msgs, log (app.CreateBatch inputs w).2 = log w ++ msgs
            ∧ Forall (λ m, ∃ n, n ∈ ns ∧ ScheduledAt n = None
                                ∧ message_of n = Some m) msgs
    end
  ∧ (let batchID := uuids w (uuid_next w) in
     let ids := uuids w <$> seq (S (uuid_next w)) (length inputs) in
     let keys := omap app.in_IdempotencyKey inputs in
     let ns := zip_with (batch_child batchID (clock w)) inputs ids in
     let w' := (app.CreateBatch inputs w).2 in
     faults w = [] →
     (1 ≤ length inputs ≤ 1000)%nat →
     Forall (λ input,
               app.in_TemplateID input = None
               ∧ validateChannel (app.in_Channel input) = None
               ∧ validateRecipient (app.in_Channel input) (app.in_Recipient input) = None
               ∧ validateContent (app.in_Channel input) (app.in_Content input) = None
               ∧ validatePriority (app.in_Priority input) = None) inputs →
     batches w !! batchID = None →
     NoDup ids →
     Forall (λ id, notifications (db w) !! id = None) ids →
     NoDup keys →
     (∀ id row k, notifications (db w) !! id = Some row →
        IdempotencyKey row = Some k → k ∉ keys) →
     (app.CreateBatch inputs w).1
     = inr ({| batch_ID := batchID; TotalCount := Z.of_nat (length inputs);
               PendingCount := Z.of_nat (length inputs); DeliveredCount := 0;
               FailedCount := 0; CancelledCount := 0; batch_CreatedAt := clock w |}, ns)
     ∧ length ns = length inputs
     ∧ batches w' !! batchID
       = Some {| batch_ID := batchID; TotalCount := Z.of_nat (length inputs);
                 PendingCount := Z.of_nat (length inputs); DeliveredCount := 0;
                 FailedCount := 0; CancelledCount := 0;
                 batch_CreatedAt := 1000 * (clock w / 1000) |}
     ∧ Forall (λ n, notifications (db w') !! ID n = Some (inserted_row n)) ns
     ∧ ∃ msgs,
         log w' = log w ++ msgs
         ∧ Forall2 (λ n m, Topic m = "notifications." +:+ NPriority n
                           ∧ Key m = uuid.String (ID n)
                           ∧ MValue m = Json {| NotificationID := uuid.String (ID n);
                                                PChannel := NChannel n |})
             (filter (λ n, ScheduledAt n = None) ns) msgs).
Proof.
  unfold app.CreateBatch. split; [|split; [|split]].
  - intros Hlen. by rewrite bool_decide_eq_true_2.
  - intros Hlen. rewrite bool_decide_eq_false_2 by lia. by rewrite bool_decide_eq_true_2.
  - case_bool_decide as Hempty; [cbn; repeat split; lia|].
    case_bool_decide as Hlarge; [cbn; repeat split; lia|].
    unfold new_uuid.
    set (w0 := set_uuid_next w (S (uuid_next w))).
    set (batchID := uuids w (uuid_next w)).
    destruct (build_cases batchID inputs w0) as [(Hd & Hl & _) Hb].
    change (db w0) with (db w) in Hd. change (log w0) with (log w) in Hl.
    destruct (app.build batchID inputs w0) as [[err|ns] w1]; cbn [fst snd] in *.
    { split; [done|]. split; [done|]. intros _. exact Hb. }
    destruct Hb as [Hlen Hall].
    match goal with |- context [postgres.CreateBatch ?b ns w1] =>
      pose proof (CreateBatch_tx_cases b ns w1) as Htx; cbn zeta in Htx;
      destruct (postgres.CreateBatch b ns w1) as [[err|] w2] end; cbn [fst snd] in *.
    { destruct Htx as (Hl2 & Hd2 & Hns). repeat split; try congruence; apply Hns. }
    destruct Htx as (Hl2 & Hfresh & Hbat & Hnot & _).
    destruct (publish_all_cases ns w2) as (Hd3 & msgs & Hl3 & Hmsgs).
    unfold batches. rewrite Hd3. cbn [batch_ID TotalCount PendingCount] in *.
    split; [lia|]. split; [done|]. split; [done|]. split; [done|]. split; [done|].
    split; [by rewrite <- Hd|]. split; [by rewrite Hbat, Hd|]. split; [by rewrite Hnot, Hd|].
    exists msgs. split; [congruence|done].
  - intros Hq Hsize Hvalid Hfresh Hnd Hnew Hkeys Hheld. unfold batches in *.
    rewrite bool_decide_eq_false_2 by lia. rewrite bool_decide_eq_false_2 by lia.
    unfold new_uuid.
    set (batchID := uuids w (uuid_next w)) in *.
    set (ids := uuids w <$> seq (S (uuid_next w)) (length inputs)) in *.
    set (ns := zip_with (batch_child batchID (clock w)) inputs ids).
    set (w0 := set_uuid_next w (S (uuid_next w))).
    destruct (build_cases batchID inputs w0) as [(Hd & Hl & _) _].
    destruct (build_accepts batchID inputs w0 Hvalid) as [Hbuilt Hf].
    change (db w0) with (db w) in Hd. change (log w0) with (log w) in Hl.
    change (faults w0) with (faults w) in Hf.
    change (zip_with _ _ _) with ns in Hbuilt.
    destruct (app.build batchID inputs w0) as [[err|ns0] w1]; cbn [fst snd] in *;
      [discriminate|].
    injection Hbuilt as ->.
    destruct (batch_children batchID (clock w) (uuids w) inputs (S (uuid_next w)))
      as (Hids & Hks & Hprio).
    cbn zeta in Hids, Hks, Hprio. fold ids in Hids, Hks, Hprio. fold ns in Hids, Hks, Hprio.
    assert (Hnd' : NoDup (ID <$> ns)) by (by rewrite Hids).
    match goal with |- context [postgres.CreateBatch ?b ns w1] => set (b0 := b) end.
    destruct (CreateBatch_tx_accepts b0 ns w1) as [Hok Hq2].
    { congruence. }
    { by rewrite Hd. }
    { done. }
    { apply Forall_forall. intros n Hn. rewrite Hd.
      eapply Forall_forall in Hnew; [exact Hnew|].
      rewrite <- Hids. apply list_elem_of_fmap. eauto. }
    { by rewrite Hks. }
    { rewrite Hks, Hd. exact Hheld. }
    pose proof (CreateBatch_tx_cases b0 ns w1) as Htx. cbn zeta in Htx.
    destruct (postgres.CreateBatch b0 ns w1) as [[err|] w2]; cbn [fst snd] in *;
      [discriminate|].
    destruct Htx as (Hl2 & _ & Hbat & Hnot & _).
    destruct (publish_all_cases ns w2) as (Hd3 & _).
    destruct (publish_all_quiet ns w2 Hq2) as [_ Hl3].
    split; [reflexivity|]. split.
    { rewrite <- (length_fmap ID ns), Hids. unfold ids. by rewrite length_fmap, length_seq. }
    split; [by rewrite Hd3, Hbat, lookup_insert_eq|]. split.
    + apply Forall_forall. intros n Hn. rewrite Hd3, Hnot. by apply with_children_lookup.
    + eexists. split; [rewrite Hl3, Hl2, Hl; reflexivity|].
      apply message_of_all.
      apply Forall_forall. intros n [_ Hn]%list_elem_of_filter.
      eapply Forall_forall in Hprio; [exact Hprio| |exact Hn].
      eapply Forall_impl; [exact Hvalid|]. by intros input (_ & _ & _ & _ & ?).
Qed.

Lemma CreateBatch_is_all_or_nothing_witness :
  let w := cases.world_of cases.empty_db cases.accepting [] in
  let inputs := [cases.sms None None; cases.sms (Some "k") (Some 5000)] in
  app.CreateBatch [] w = (inl (Sentinel ErrBatchEmpty), w)
  ∧ app.CreateBatch (replicate 1001 (cases.sms None None)) w
    = (inl (Sentinel ErrBatchTooLarge), w)
  ∧ (app.CreateBatch inputs w).1
    = inr ({| batch_ID := 100%N; TotalCount := 2; PendingCount := 2; DeliveredCount := 0;
              FailedCount := 0; CancelledCount := 0; batch_CreatedAt := 1000 |},
           [batch_child 100%N 1000 (cases.sms None None) 101%N;
            batch_child 100%N 1000 (cases.sms (Some "k") (Some 5000)) 102%N])
  ∧ batches (app.CreateBatch inputs w).2 !! 100%N
    = Some {| batch_ID := 100%N; TotalCount := 2; PendingCount := 2; DeliveredCount := 0;
              FailedCount := 0; CancelledCount := 0; batch_CreatedAt := 1000 |}
  ∧ notifications (db (app.CreateBatch inputs w).2) !! 102%N
    = Some (inserted_row (batch_child 100%N 1000 (cases.sms (Some "k") (Some 5000)) 102%N))
  ∧ ∃ m, log (app.CreateBatch inputs w).2 = [m]
         ∧ Topic m = "notifications.normal"
         ∧ Key m = "00000000-0000-0000-0000-000000000065".
Proof.
  intros w inputs. split; [|split].
  - apply (proj1 (CreateBatch_is_all_or_nothing [] w)). reflexivity.
  - apply (proj1 (proj2 (CreateBatch_is_all_or_nothing
                           (replicate 1001 (cases.sms None None)) w))).
    rewrite length_replicate. lia.
  - destruct (proj2 (proj2 (proj2 (CreateBatch_is_all_or_nothing inputs w))))
      as (Hres & _ & Hbatch & Hrows & msgs & Hlog & Hmsgs).
    + reflexivity.
    + cbn. lia.
    + repeat constructor.
    + reflexivity.
    + apply (bool_decide_unpack _). vm_compute. exact I.
    + repeat constructor.
    + apply (bool_decide_unpack _). vm_compute. exact I.
    + intros id row k Hrow. cbn in Hrow. by rewrite lookup_empty in Hrow.
    + split; [exact Hres|]. split; [exact Hbatch|]. split.
      * apply Forall_cons in Hrows as [_ Hrows]. apply Forall_cons in Hrows as [Hrow _].
        exact Hrow.
      * cbn in Hmsgs.
        apply Forall2_cons_inv_l in Hmsgs as (m & rest & (Ht & Hk & _) & Hrest & ->).
        apply Forall2_nil_inv_l in Hrest as ->.
        exists m. split; [exact Hlog|]. split; [exact Ht|exact Hk].
Defined.

(** The sizes at the two ends of the range. *)
Example batch_of_1000_is_accepted :
  let w := cases.world_of cases.empty_db cases.accepting [] in
  let r := app.CreateBatch (replicate 1000 (cases.sms None None)) w in
  match r.1 with
  | inr (batch, ns) => TotalCount batch = 1000 ∧ length ns = 1000%nat
  | inl _ => False
  end
  ∧ size (notifications (db r.2)) = 1000%nat
  ∧ length (log r.2) = 1000%nat.
Proof. vm_compute. auto. Qed.

Example batch_of_one_is_accepted :
  let w := cases.world_of cases.empty_db cases.accepting [] in
  let r := app.CreateBatch [cases.sms None None] w in
  match r.1 with
  | inr (batch, ns) => TotalCount batch = 1 ∧ length ns = 1%nat
  | inl _ => False
  end
  ∧ size (notifications (db r.2)) = 1%nat ∧ size (batches r.2) = 1%nat
  ∧ length (log r.2) = 1%nat.
Proof. vm_compute. auto. Qed.

End batch_create.

(** ** Templates *)

Section templates.

Lemma Check_quiet_miss input key w :
  faults w = [] → app.in_IdempotencyKey input = Some key → misses input w →
  postgres.Check key w = ((false, "", None), w).
Proof.
  intros Hq Hkey Hmiss. unfold postgres.Check. rewrite io_quiet by done.
  unfold misses in Hmiss. rewrite Hkey in Hmiss.
  destruct (idempotency_keys (db w) !! key) as [[id expires]|]; [|done].
  replace (clock w <? expires) with false by (symmetry; apply Z.ltb_ge; lia). done.
Qed.

(** C10, as amended: when no valid key is found and the referenced
    template is read, the body is rendered with the variables of the
    request; if rendering fails, for a body that does not parse or an
    execution that stops, the create returns that render error and the
    world is as it was; if it succeeds, a notification that is created has
    the rendered text as its content.  In the substitution grammar the
    only render error is a body that does not parse: a variable that the
    map lacks is printed as a placeholder. *)
Theorem render_failure_stops_the_create `{template.Engine}
    (input : app.CreateNotificationInput) (templateID : UUID) (tmpl : Template) (w : World) :
  faults w = [] →
  misses input w →
  app.in_TemplateID input = Some templateID →
  templates (db w) !! templateID = Some tmpl →
  match Render tmpl (app.in_TemplateVariables input) with
  | inl e =>
      app.Create input w = (inl e, w)
      ∧ errors.Is e ErrTemplateRenderFailed = true
      ∧ ((∃ msg, template.Parse (tmpl_Name tmpl) (tmpl_Body tmpl) = inl msg)
         ∨ ∃ t msg, template.Parse (tmpl_Name tmpl) (tmpl_Body tmpl) = inr t
                    ∧ template.Execute t (app.in_TemplateVariables input) = inl msg)
  | inr content =>
      ∀ n, (app.Create input w).1 = inr n →
           Content n = content ∧ TemplateID n = Some templateID
           ∧ TemplateVariables n = app.in_TemplateVariables input
  end
  ∧ (∀ t vars,
       match @Render template.substitution t vars with
       | inl _ => ∃ msg, template.subst_Parse (tmpl_Body t) = inl msg
       | inr out => ∃ nodes, template.subst_Parse (tmpl_Body t) = inr nodes
                             ∧ out = template.subst_run nodes vars
       end).
Proof.
  intros Hq Hmiss Htid Htmpl. split.
  - assert (Hstart : app.Create input w =
       match Render tmpl (app.in_TemplateVariables input) with
       | inl e => (inl e, w)
       | inr content =>
           let '(id, w') := new_uuid w in
           match NewNotification (app.in_Channel input) (app.in_Recipient input) content
                   (app.in_Priority input) (app.in_ScheduledAt input) id (clock w) with
           | inl err => (inl err, w)
           | inr created =>
               let notification := app.attach created None input in
               match postgres.Create notification w' with
               | (Some err, w) => (inl err, w)
               | (None, w) =>
                   let w :=
                     match app.in_IdempotencyKey input with
                     | Some key => (postgres.SetNX key (uuid.String (ID notification)) w).2
                     | None => w
                     end in
                   match app.publish notification w with
                   | (Some err, w) => (inl err, w)
                   | (None, w) => (inr notification, w)
                   end
               end
           end
       end).
    { unfold app.Create.
      destruct (app.in_IdempotencyKey input) as [key|] eqn:Hkey.
      - rewrite (Check_quiet_miss input key w) by done. cbn [fst snd].
        unfold app.content_of, postgres.GetTemplateByID.
        rewrite Htid, io_quiet, Htmpl by done.
        destruct (Render tmpl _); done.
      - unfold app.content_of, postgres.GetTemplateByID.
        rewrite Htid, io_quiet, Htmpl by done.
        destruct (Render tmpl _); done. }
    rewrite Hstart. clear Hstart.
    destruct (Render tmpl (app.in_TemplateVariables input)) as [e|content] eqn:Hrender.
    + split; [done|]. unfold Render in Hrender.
      destruct (template.Parse (tmpl_Name tmpl) (tmpl_Body tmpl)) as [msg|t] eqn:Hparse.
      * injection Hrender as <-. split; [done|]. left. by eexists.
      * destruct (template.Execute t _) as [msg|out] eqn:Hexec; [|discriminate].
        injection Hrender as <-. split; [done|]. right. by exists t, msg.
    + intros n. unfold new_uuid.
      destruct (NewNotification _ _ _ _ _ _ _) as [err|created] eqn:Hnew; [discriminate|].
      apply NewNotification_fields in Hnew as (_ & _ & Hcontent & _).
      destruct (postgres.Create _ _) as [[err|] w1]; [discriminate|].
      cbn zeta. destruct (app.publish _ _) as [[err|] w2]; [discriminate|].
      cbn [fst]. intros [= <-]. cbn. done.
  - intros t vars. unfold Render. cbn [template.Parse template.Execute template.substitution].
    destruct (template.subst_Parse (tmpl_Body t)) as [msg|nodes]; eauto.
Qed.

Lemma render_failure_stops_the_create_witness :
  let w := cases.world_of (cases.with_template cases.broken cases.empty_db)
             cases.accepting [] in
  ∃ e, app.Create (cases.templated 51%N ∅) w = (inl e, w)
       ∧ errors.Is e ErrTemplateRenderFailed = true.
Proof.
  intros w.
  pose proof (proj1 (render_failure_stops_the_create (cases.templated 51%N ∅) 51%N
                       cases.broken w eq_refl I eq_refl eq_refl)) as Hr.
  destruct (Render cases.broken (app.in_TemplateVariables (cases.templated 51%N ∅)))
    as [e|content] eqn:Hrender.
  - exists e. destruct Hr as (Hc & He & _). done.
  - vm_compute in Hrender. discriminate Hrender.
Defined.

(** C10, as stated, fails for the missing variable: the create goes
    through, stores the row and publishes it. *)
Lemma missing_variable_is_no_render_error :
  ¬ (∀ (input : app.CreateNotificationInput) (templateID : UUID) (tmpl : Template)
       (name : string) (w : World),
       app.in_TemplateID input = Some templateID →
       templates (db w) !! templateID = Some tmpl →
       references (tmpl_Body tmpl) name →
       app.in_TemplateVariables input !! name = None →
       ∃ e, (app.Create input w).1 = inl e
            ∧ errors.Is e ErrTemplateRenderFailed = true
            ∧ db (app.Create input w).2 = db w
            ∧ log (app.Create input w).2 = log w).
Proof.
  intros H.
  destruct (H (cases.templated 50%N ∅) 50%N cases.greeting "Name"
              (cases.world_of (cases.with_template cases.greeting cases.empty_db)
                 cases.accepting [])) as (e & He & _).
  - reflexivity.
  - vm_compute. reflexivity.
  - eexists. split; [vm_compute; reflexivity|]. vm_compute. set_solver.
  - reflexivity.
  - vm_compute in He. discriminate He.
Qed.

(** What that create does. *)
Example missing_variable_is_printed_as_placeholder :
  let w := cases.world_of (cases.with_template cases.greeting cases.empty_db)
             cases.accepting [] in
  let r := app.Create (cases.templated 50%N ∅) w in
  match r.1 with
  | inr n => Content n = "Hello <no value>"
  | inl _ => False
  end
  ∧ (Content <$> notifications (db r.2) !! 100%N) = Some "Hello <no value>"
  ∧ length (log r.2) = 1%nat.
Proof. vm_compute. auto. Qed.

End templates.

(** * Further properties of the code *)

(** ** The text form of an id *)

Section uuid_text.

Lemma hexval_hexdigit (h : N) : (h < 16)%N → uuid.hexval (uuid.hexdigit h) = Some h.
Proof.
  intros Hh.
  assert (Hin : h ∈ N.of_nat <$> seq 0 16).
  { apply list_elem_of_fmap. exists (N.to_nat h). split; [lia|].
    apply elem_of_seq. lia. }
  cbn in Hin. set_unfold. 
  repeat (destruct Hin as [-> | Hin]; [vm_compute; reflexivity|]). done.
Qed.

Lemma xtob_hexdigit (b : N) :
  (b < 256)%N → uuid.xtob (uuid.hexdigit (b / 16)) (uuid.hexdigit (b mod 16)) = Some b.
Proof.
  intros Hb. unfold uuid.xtob.
  rewrite !hexval_hexdigit.
  - f_equal. rewrite N.mul_comm. symmetry. apply N.div_mod. lia.
  - apply N.mod_lt. lia.
  - apply N.Div0.div_lt_upper_bound. lia.
Qed.

Lemma byte_at_lt u i : (uuid.byte_at u i < 256)%N.
Proof. unfold uuid.byte_at. apply N.mod_lt. lia. Qed.

Lemma div_step (u k k' : N) :
  k' = (k + 1)%N →
  (u / 256 ^ k = 256 * (u / 256 ^ k') + (u / 256 ^ k) mod 256)%N.
Proof.
  intros ->. rewrite N.pow_add_r, N.pow_1_r, <- N.Div0.div_div.
  apply N.div_mod. lia.
Qed.

(** The text of an id reads back as the id. *)
Lemma Parse_String (u : UUID) : (u < 2 ^ 128)%N → uuid.Parse (uuid.String u) = Some u.
Proof.
  intros Hu. unfold uuid.Parse, uuid.String.
  rewrite list_ascii_of_string_of_list_ascii.
  cbn [uuid.hex_bytes app length].
  unfold uuid.parse_dashed.
  cbn [uuid.at_ nth].
  replace (regexp.is_char "-"%char "-"%char) with true by reflexivity. cbn [andb].
  unfold uuid.dashed_offsets. cbn [uuid.read_bytes uuid.at_ nth].
  rewrite !xtob_hexdigit by apply byte_at_lt.
  f_equal. unfold uuid.byte_at.
  repeat match goal with
         | |- context [(15 - N.of_nat ?i)%N] =>
             let v := eval vm_compute in (15 - N.of_nat i)%N in
             change (15 - N.of_nat i)%N with v
         end.
  pose proof (div_step u 0 1 eq_refl) as H0. pose proof (div_step u 1 2 eq_refl) as H1.
  pose proof (div_step u 2 3 eq_refl) as H2. pose proof (div_step u 3 4 eq_refl) as H3.
  pose proof (div_step u 4 5 eq_refl) as H4. pose proof (div_step u 5 6 eq_refl) as H5.
  pose proof (div_step u 6 7 eq_refl) as H6. pose proof (div_step u 7 8 eq_refl) as H7.
  pose proof (div_step u 8 9 eq_refl) as H8. pose proof (div_step u 9 10 eq_refl) as H9.
  pose proof (div_step u 10 11 eq_refl) as H10. pose proof (div_step u 11 12 eq_refl) as H11.
  pose proof (div_step u 12 13 eq_refl) as H12. pose proof (div_step u 13 14 eq_refl) as H13.
  pose proof (div_step u 14 15 eq_refl) as H14. pose proof (div_step u 15 16 eq_refl) as H15.
  assert (H16 : (u / 256 ^ 16 = 0)%N).
  { apply N.div_small. replace (256 ^ 16)%N with (2 ^ 128)%N by (vm_compute; reflexivity).
    exact Hu. }
  assert (Hq0 : (u / 256 ^ 0 = u)%N) by (rewrite N.pow_0_r; apply N.div_1_r).
  rewrite Hq0 in *. rewrite H16 in *.
  generalize dependent (u / 256 ^ 1)%N. intros q1.
  generalize dependent (u / 256 ^ 2)%N. intros q2.
  generalize dependent (u / 256 ^ 3)%N. intros q3.
  generalize dependent (u / 256 ^ 4)%N. intros q4.
  generalize dependent (u / 256 ^ 5)%N. intros q5.
  generalize dependent (u / 256 ^ 6)%N. intros q6.
  generalize dependent (u / 256 ^ 7)%N. intros q7.
  generalize dependent (u / 256 ^ 8)%N. intros q8.
  generalize dependent (u / 256 ^ 9)%N. intros q9.
  generalize dependent (u / 256 ^ 10)%N. intros q10.
  generalize dependent (u / 256 ^ 11)%N. intros q11.
  generalize dependent (u / 256 ^ 12)%N. intros q12.
  generalize dependent (u / 256 ^ 13)%N. intros q13.
  generalize dependent (u / 256 ^ 14)%N. intros q14.
  generalize dependent (u / 256 ^ 15)%N. intros q15.
  intros. lia.
Qed.
End uuid_text.

(** ** What a new notification is *)

Section new_notification.

Lemma validateChannel_spec ch :
  validateChannel ch = None ↔ ch = ChannelSMS ∨ ch = ChannelEmail ∨ ch = ChannelPush.
Proof.
  unfold validateChannel. repeat case_bool_decide; cbn; split; auto; try discriminate.
  intros [?|[?|?]]; done.
Qed.

Lemma validatePriority_spec p :
  validatePriority p = None ↔ p = PriorityHigh ∨ p = PriorityNormal ∨ p = PriorityLow.
Proof.
  unfold validatePriority. repeat case_bool_decide; cbn; split; auto; try discriminate.
  intros [?|[?|?]]; done.
Qed.

Lemma validateContent_spec ch content :
  ch = ChannelSMS ∨ ch = ChannelEmail ∨ ch = ChannelPush →
  validateContent ch content = None
  ↔ content ≠ ""
    ∧ Z.of_nat (String.length content)
      ≤ (if decide (ch = ChannelSMS) then 160
         else if decide (ch = ChannelEmail) then 10000 else 4096).
Proof.
  intros Hch. unfold validateContent, channelContentLimits.
  case_bool_decide as Hne; [split; [discriminate|tauto]|].
  destruct Hch as [Hch|[Hch|Hch]]; subst ch;
    repeat (case_bool_decide; try done); repeat (case_decide; try done);
    match goal with |- context [?a <? ?b] => destruct (Z.ltb_spec a b) end;
    (split; [first [discriminate | intros _; split; [done|lia]]
            |first [done | intros [_ ?]; lia]]).
Qed.

(** X1: the requests [NewNotification] accepts and what it makes of
    them.  A notification is made exactly when the channel is one of the
    three, the recipient passes the check of the channel, the content is
    not empty and no longer than 160 bytes for sms, 10000 for email and
    4096 for push, and the priority is one of the three.  It then starts
    [scheduled] if a time was given and [pending] otherwise, with no
    retries counted and at most 5, 3 or 2 to come for priority high,
    normal or low, with nothing sent, failed or attributed to a batch, a
    key or a template yet. *)
Theorem NewNotification_accepts (channel : Channel) (recipient content : string)
    (priority : Priority) (scheduledAt : option Time) (id : UUID) (now : Time) :
  let limit := if decide (channel = ChannelSMS) then 160
               else if decide (channel = ChannelEmail) then 10000 else 4096 in
  let retries := if decide (priority = PriorityHigh) then 5
                 else if decide (priority = PriorityNormal) then 3 else 2 in
  let accepted :=
    (channel = ChannelSMS ∨ channel = ChannelEmail ∨ channel = ChannelPush)
    ∧ validateRecipient channel recipient = None
    ∧ content ≠ "" ∧ Z.of_nat (String.length content) ≤ limit
    ∧ (priority = PriorityHigh ∨ priority = PriorityNormal ∨ priority = PriorityLow) in
  match NewNotification channel recipient content priority scheduledAt id now with
  | inl e => ¬ accepted
  | inr n =>
      accepted
      ∧ n = {| ID := id; BatchID := None; IdempotencyKey := None; NChannel := channel;
               Recipient := recipient; Content := content; NPriority := priority;
               NStatus := match scheduledAt with
                          | Some _ => StatusScheduled
                          | None => StatusPending
                          end;
               ScheduledAt := scheduledAt; SentAt := None; FailedAt := None;
               ErrorMessage := None; RetryCount := 0; MaxRetries := retries;
               ProviderMessageID := None; TemplateID := None; TemplateVariables := ∅;
               CreatedAt := now; UpdatedAt := now |}
  end.
Proof.
  intros limit retries accepted. subst limit retries accepted. unfold NewNotification.
  destruct (validateChannel channel) as [e|] eqn:Hch.
  { intros (Hin & _). apply validateChannel_spec in Hin. congruence. }
  apply validateChannel_spec in Hch.
  destruct (validateRecipient channel recipient) as [e|] eqn:Hrec.
  { intros (_ & Hr & _). discriminate Hr. }
  destruct (validateContent channel content) as [e|] eqn:Hcont.
  { intros (_ & _ & Hne & Hlen & _).
    assert (validateContent channel content = None) by (by apply validateContent_spec).
    congruence. }
  apply validateContent_spec in Hcont; [|done].
  destruct (validatePriority priority) as [e|] eqn:Hp.
  { intros (_ & _ & _ & _ & Hpin). apply validatePriority_spec in Hpin. congruence. }
  apply validatePriority_spec in Hp.
  split; [tauto|]. f_equal.
  unfold priorityMaxRetries. destruct Hp as [Hp|[Hp|Hp]]; subst priority; reflexivity.
Qed.

End new_notification.

(** ** The recipients the validation accepts *)

Section recipients.
Import regexp.

Lemma nullable_lang r : nullable r = true ↔ lang r [].
Proof.
  induction r as [| |f|r1 IH1 r2 IH2|r1 IH1 r2 IH2|r IH]; cbn.
  - split; [discriminate|done].
  - done.
  - split; [discriminate|]. intros (c & Hc & _). discriminate Hc.
  - rewrite andb_true_iff, IH1, IH2. split.
    + intros [H1 H2]. by exists [], [].
    + intros (s1 & s2 & Heq & H1 & H2). symmetry in Heq.
      apply app_eq_nil in Heq as [-> ->]. done.
  - rewrite orb_true_iff, IH1, IH2. done.
  - split; [|done]. intros _. exists []. split; [done|constructor].
Qed.

Lemma lang_cat r s x : lang (cat r s) x ↔ lang (Cat r s) x.
Proof.
  assert (He : ∀ t, lang (Cat Eps t) x ↔ lang t x).
  { intros t. cbn. split.
    - intros (s1 & s2 & -> & -> & H2). done.
    - intros Ht. by exists [], x. }
  assert (Hl : ∀ t, lang (Cat Empty t) x ↔ False).
  { intros t. cbn. split; [intros (s1 & s2 & _ & [] & _)|done]. }
  assert (Hr : ∀ t, lang (Cat t Empty) x ↔ False).
  { intros t. cbn. split; [intros (s1 & s2 & _ & _ & [])|done]. }
  destruct r, s; unfold cat; rewrite ?He, ?Hl, ?Hr; try reflexivity.
Qed.

Lemma lang_alt r s x : lang (alt r s) x ↔ lang (Alt r s) x.
Proof. destruct r, s; unfold alt; cbn; tauto. Qed.

Lemma lang_deriv c r : ∀ s, lang (deriv c r) s ↔ lang r (c :: s).
Proof.
  induction r as [| |f|r1 IH1 r2 IH2|r1 IH1 r2 IH2|r IH]; intros s; cbn [deriv].
  - done.
  - cbn. split; [done|discriminate].
  - cbn. destruct (f c) eqn:Hf; cbn.
    + split.
      * intros ->. by exists c.
      * intros (c' & [= <- ->] & _). done.
    + split; [done|]. intros (c' & [= <- ->] & Hc'). congruence.
  - assert (Hcat : lang (cat (deriv c r1) r2) s
                   ↔ ∃ s1 s2, s = s1 ++ s2 ∧ lang r1 (c :: s1) ∧ lang r2 s2).
    { rewrite lang_cat. cbn. setoid_rewrite IH1. done. }
    assert (Hsplit : lang (Cat r1 r2) (c :: s)
                     ↔ (∃ s1 s2, s = s1 ++ s2 ∧ lang r1 (c :: s1) ∧ lang r2 s2)
                       ∨ (lang r1 [] ∧ lang r2 (c :: s))).
    { cbn. split.
      - intros (t1 & t2 & Heq & H1 & H2). destruct t1 as [|c' t1].
        + right. cbn in Heq. subst t2. done.
        + left. injection Heq as <- ->. eauto.
      - intros [(s1 & s2 & -> & H1 & H2) | [H1 H2]].
        + by exists (c :: s1), s2.
        + by exists [], (c :: s). }
    rewrite Hsplit. destruct (nullable r1) eqn:Hn.
    + apply nullable_lang in Hn. rewrite lang_alt. cbn [lang]. rewrite Hcat, IH2. tauto.
    + rewrite Hcat. split; [tauto|]. intros [?|[H1 _]]; [done|].
      apply nullable_lang in H1. congruence.
  - rewrite lang_alt. cbn. rewrite IH1, IH2. done.
  - rewrite lang_cat. cbn. setoid_rewrite IH. split.
    + intros (s1 & s2 & -> & H1 & ss & -> & Hss). exists ((c :: s1) :: ss).
      split; [done|]. by constructor.
    + intros (ss & Heq & Hss). induction Hss as [|x ss Hx Hss IHss]; [discriminate|].
      destruct x as [|c' x].
      * cbn in Heq. by apply IHss.
      * cbn in Heq. injection Heq as <- ->. exists x, (concat ss). eauto.
Qed.

Lemma MatchString_lang s : ∀ r, MatchString r s = true ↔ lang r (list_ascii_of_string s).
Proof.
  induction s as [|c s IH]; intros r; cbn [MatchString list_ascii_of_string].
  - apply nullable_lang.
  - rewrite IH. apply lang_deriv.
Qed.

Lemma lang_times_cls n f : ∀ s,
  lang (times n (Cls f)) s ↔ length s = n ∧ forallb f s = true.
Proof.
  induction n as [|n IH]; intros s; cbn [times lang].
  - split; [intros ->; done|]. intros [Hlen _]. by destruct s.
  - split.
    + intros (s1 & s2 & -> & (c & -> & Hc) & H2). apply IH in H2 as [<- H2].
      cbn. by rewrite Hc.
    + intros [Hlen Hall]. destruct s as [|c s]; [discriminate|].
      cbn in Hall. apply andb_true_iff in Hall as [Hc Hall].
      exists [c], s. split; [done|]. split; [by exists c|]. apply IH. split; [|done].
      cbn in Hlen. lia.
Qed.

Lemma lang_times_opt_cls n f : ∀ s,
  lang (times n (opt (Cls f))) s ↔ (length s ≤ n)%nat ∧ forallb f s = true.
Proof.
  induction n as [|n IH]; intros s; cbn [times opt lang].
  - split; [intros ->; cbn; split; [lia|done]|]. intros [Hlen _].
    destruct s; [done|cbn in Hlen; lia].
  - split.
    + intros (s1 & s2 & -> & [(c & -> & Hc) | ->] & H2); apply IH in H2 as [Hlen H2]; cbn.
      * rewrite Hc. split; [lia|done].
      * split; [lia|done].
    + intros [Hlen Hall]. destruct s as [|c s].
      * exists [], []. split; [done|]. split; [by right|]. apply IH. cbn. split; [lia|done].
      * cbn in Hall. apply andb_true_iff in Hall as [Hc Hall].
        exists [c], s. split; [done|]. split; [left; by exists c|]. apply IH.
        split; [|done]. cbn in Hlen. lia.
Qed.

Lemma lang_star_cls f s : lang (Star (Cls f)) s ↔ forallb f s = true.
Proof.
  cbn. split.
  - intros (ss & -> & Hss). induction Hss as [|x ss (c & -> & Hc) _ IH]; [done|].
    cbn. by rewrite Hc.
  - intros Hall. exists ((λ c, [c]) <$> s). split.
    + induction s as [|c s IH]; [done|]. cbn in *. apply andb_true_iff in Hall as [_ Hall].
      f_equal. by apply IH.
    + induction s as [|c s IH]; [constructor|]. cbn in *.
      apply andb_true_iff in Hall as [Hc Hall]. constructor; [by exists c|by apply IH].
Qed.

Lemma lang_between_cls lo extra f s :
  lang (between lo extra (Cls f)) s
  ↔ (lo ≤ length s ≤ lo + extra)%nat ∧ forallb f s = true.
Proof.
  unfold between. cbn [lang]. setoid_rewrite lang_times_cls.
  setoid_rewrite lang_times_opt_cls. split.
  - intros (s1 & s2 & -> & [H1 Ha1] & [H2 Ha2]). rewrite length_app, forallb_app, Ha1, Ha2.
    split; [lia|done].
  - intros [Hlen Hall]. exists (take lo s), (drop lo s).
    rewrite <- (take_drop lo s) in Hall. rewrite forallb_app in Hall.
    apply andb_true_iff in Hall as [Ha1 Ha2].
    rewrite take_drop, length_take, length_drop. repeat split; try done; lia.
Qed.

Lemma lang_plus_cls f s : lang (plus (Cls f)) s ↔ s ≠ [] ∧ forallb f s = true.
Proof.
  unfold plus. cbn [lang]. setoid_rewrite lang_star_cls. split.
  - intros (s1 & s2 & -> & (c & -> & Hc) & H2). cbn. by rewrite Hc.
  - intros [Hne Hall]. destruct s as [|c s]; [done|]. cbn in Hall.
    apply andb_true_iff in Hall as [Hc Hall]. exists [c], s.
    split; [done|]. split; [by exists c|done].
Qed.

Lemma lang_at_least_cls lo f s :
  lang (at_least lo (Cls f)) s ↔ (lo ≤ length s)%nat ∧ forallb f s = true.
Proof.
  unfold at_least. cbn [lang]. setoid_rewrite lang_times_cls.
  setoid_rewrite lang_star_cls. split.
  - intros (s1 & s2 & -> & [H1 Ha1] & Ha2). rewrite length_app, forallb_app, Ha1, Ha2.
    split; [lia|done].
  - intros [Hlen Hall]. exists (take lo s), (drop lo s).
    rewrite <- (take_drop lo s) in Hall. rewrite forallb_app in Hall.
    apply andb_true_iff in Hall as [Ha1 Ha2].
    rewrite take_drop, length_take. repeat split; try done; lia.
Qed.

Lemma is_char_eq x c : is_char x c = true ↔ c = x.
Proof.
  unfold is_char. rewrite N.eqb_eq. split.
  - intros Heq. apply (f_equal ascii_of_N) in Heq. by rewrite !ascii_N_embedding in Heq.
  - by intros ->.
Qed.

Lemma lang_char x s : lang (Cls (is_char x)) s ↔ s = [x].
Proof.
  cbn. split.
  - intros (c & -> & Hc). apply is_char_eq in Hc. by subst.
  - intros ->. exists x. split; [done|]. by apply is_char_eq.
Qed.

(** X2: the recipients the validation lets through.  For the channel
    sms: exactly a plus sign, a digit from 1 to 9 and then 6 to 14 more
    digits, so 8 to 16 characters in all.  For the channel email: exactly
    a local part, an at sign, a domain, a dot and a top-level part, where
    the local part is one or more letters, digits or any of [._%+-], the
    domain one or more letters, digits, dots or hyphens, and the top-level
    part two or more letters.  For the channel push: whatever is not
    empty. *)
Theorem validateRecipient_accepts (recipient : string) :
  (validateRecipient ChannelSMS recipient = None
   ↔ ∃ d ds, list_ascii_of_string recipient = "+"%char :: d :: ds
       ∧ in_range "1" "9" d = true ∧ forallb digit ds = true
       ∧ (6 ≤ length ds ≤ 14)%nat)
  ∧ (validateRecipient ChannelEmail recipient = None
     ↔ ∃ l d t, list_ascii_of_string recipient = l ++ ["@"%char] ++ d ++ ["."%char] ++ t
         ∧ l ≠ [] ∧ forallb email_local l = true
         ∧ d ≠ [] ∧ forallb email_domain d = true
         ∧ (2 ≤ length t)%nat ∧ forallb letter t = true)
  ∧ (validateRecipient ChannelPush recipient = None ↔ recipient ≠ "").
Proof.
  assert (Hnil : recipient = "" ↔ list_ascii_of_string recipient = []).
  { destruct recipient; cbn; split; done. }
  split; [|split].
  - unfold validateRecipient.
    rewrite (bool_decide_eq_true_2 (ChannelSMS = ChannelSMS)) by done.
    case_bool_decide as Hempty.
    { split; [discriminate|]. intros (d & ds & Heq & _).
      apply Hnil in Hempty. congruence. }
    destruct (MatchString e164Regex recipient) eqn:Hm.
    + split; [intros _|done]. apply MatchString_lang in Hm.
      unfold e164Regex in Hm. cbn [lang] in Hm.
      destruct Hm as (s1 & s2 & Heq & H1 & s3 & s4 & -> & (d & -> & Hd) & H4).
      apply lang_char in H1 as ->.
      apply lang_between_cls in H4 as [Hlen Hall].
      exists d, s4. split; [done|]. split; [done|]. split; [done|]. lia.
    + split; [discriminate|]. intros (d & ds & Heq & Hd & Hall & Hlen).
      exfalso. apply not_true_iff_false in Hm. apply Hm. apply MatchString_lang.
      rewrite Heq. unfold e164Regex. cbn [lang].
      exists ["+"%char], (d :: ds). split; [done|]. split; [by apply lang_char|].
      exists [d], ds. split; [done|]. split; [by exists d|].
      apply lang_between_cls. split; [lia|done].
  - unfold validateRecipient.
    rewrite (bool_decide_eq_false_2 (ChannelEmail = ChannelSMS)) by done.
    rewrite (bool_decide_eq_true_2 (ChannelEmail = ChannelEmail)) by done.
    case_bool_decide as Hempty.
    { split; [discriminate|]. intros (l & d & t & Heq & Hl & _).
      apply Hnil in Hempty. rewrite Hempty in Heq. by destruct l. }
    destruct (MatchString emailRegex recipient) eqn:Hm.
    + split; [intros _|done]. apply MatchString_lang in Hm.
      unfold emailRegex in Hm.
      destruct Hm as (l & s2 & Heq & Hl & a & s3 & -> & Ha & d & s4 & -> & Hd
                      & p & t & -> & Hp & Ht).
      apply lang_plus_cls in Hl as [Hl1 Hl2]. apply lang_plus_cls in Hd as [Hd1 Hd2].
      apply lang_char in Ha as ->. apply lang_char in Hp as ->.
      apply lang_at_least_cls in Ht as [Ht1 Ht2].
      exists l, d, t. done.
    + split; [discriminate|].
      intros (l & d & t & Heq & Hl1 & Hl2 & Hd1 & Hd2 & Ht1 & Ht2).
      exfalso. apply not_true_iff_false in Hm. apply Hm. apply MatchString_lang.
      rewrite Heq. unfold emailRegex.
      exists l, (["@"%char] ++ d ++ ["."%char] ++ t). split; [done|].
      split; [by apply lang_plus_cls|].
      exists ["@"%char], (d ++ ["."%char] ++ t). split; [done|].
      split; [by apply lang_char|].
      exists d, (["."%char] ++ t). split; [done|]. split; [by apply lang_plus_cls|].
      exists ["."%char], t. split; [done|]. split; [by apply lang_char|].
      by apply lang_at_least_cls.
  - unfold validateRecipient.
    rewrite (bool_decide_eq_false_2 (ChannelPush = ChannelSMS)) by done.
    rewrite (bool_decide_eq_false_2 (ChannelPush = ChannelEmail)) by done.
    rewrite (bool_decide_eq_true_2 (ChannelPush = ChannelPush)) by done.
    case_bool_decide as Hempty; [split; [discriminate|done]|].
    destruct recipient; [done|]. cbn. done.
Qed.

End recipients.

(** ** Queries that filter, sort and limit *)

Section selection.
Context {A : Type} (R : relation A) `{!∀ a b, Decision (R a b)} `{!Total R} `{!Transitive R}.
Context (P : A → Prop) `{!∀ x, Decision (P x)}.

(** [WHERE P ORDER BY R LIMIT limit] over the rows [l]. *)
Lemma select_sorted (limit : nat) (l : list A) :
  let ns := take limit (merge_sort R (filter P l)) in
  (length ns ≤ limit)%nat
  ∧ Forall (λ n, n ∈ l ∧ P n) ns
  ∧ StronglySorted R ns
  ∧ (∀ m, m ∈ l → P m → m ∉ ns → length ns = limit ∧ Forall (λ n, R n m) ns)
  ∧ (∀ (B : Type) (f : A → B), NoDup (f <$> l) → NoDup (f <$> ns)).
Proof.
  intros ns. subst ns. set (s := merge_sort R (filter P l)).
  assert (Hperm : s ≡ₚ filter P l) by apply merge_sort_Permutation.
  assert (Hsorted : StronglySorted R s) by apply (StronglySorted_merge_sort _).
  rewrite <- (take_drop limit s) in Hsorted.
  apply StronglySorted_app in Hsorted as (Hcross & Hs1 & _).
  split; [rewrite length_take; lia|]. split; [|split; [done|split]].
  - apply Forall_forall. intros n Hn.
    assert (n ∈ s) as Hns by (eapply subseteq_take; eauto).
    rewrite Hperm in Hns. apply list_elem_of_filter in Hns. tauto.
  - intros m Hm HP Hnot.
    assert (m ∈ s) as Hms by (rewrite Hperm; apply list_elem_of_filter; done).
    rewrite <- (take_drop limit s) in Hms. apply elem_of_app in Hms as [?|Hrest]; [done|].
    split.
    + rewrite length_take. apply Nat.min_l.
      destruct (decide (limit ≤ length s)%nat) as [|Hlt]; [done|].
      rewrite drop_ge in Hrest by lia. by apply elem_of_nil in Hrest.
    + apply Forall_forall. intros n Hn. by apply Hcross.
  - intros B f Hnd.
    eapply sublist_NoDup; [|apply fmap_sublist, sublist_take].
    rewrite Hperm.
    eapply sublist_NoDup; [exact Hnd|].
    apply fmap_sublist, sublist_filter.
Qed.

End selection.

#[local] Instance by_updated_at_total : Total postgres.by_updated_at.
Proof. intros a b. unfold postgres.by_updated_at. lia. Qed.
#[local] Instance by_updated_at_trans : Transitive postgres.by_updated_at.
Proof. intros a b c. unfold postgres.by_updated_at. lia. Qed.

#[local] Instance newest_first_total : Total postgres.newest_first.
Proof. intros a b. unfold postgres.newest_first. lia. Qed.
#[local] Instance newest_first_trans : Transitive postgres.newest_first.
Proof. intros a b c. unfold postgres.newest_first. lia. Qed.

(** ** The scheduler: stuck rows *)

Section stuck.

Lemma stored_row w n : keyed (db w) → n ∈ rows w → notifications (db w) !! ID n = Some n.
Proof. intros Hk (k & Hrow)%elem_of_rows. by rewrite (Hk k n Hrow). Qed.

Lemma stuck_inv now olderThan n :
  postgres.stuck now olderThan n = true →
  NStatus n = StatusProcessing ∧ UpdatedAt n < now - olderThan.
Proof.
  unfold postgres.stuck. intros [Hs Ht]%andb_true_iff.
  apply bool_decide_eq_true in Hs. apply Z.ltb_lt in Ht. done.
Qed.

(** X3: a run of the stuck sweep whose query succeeds takes at most 50
    rows, all stored, [processing] and untouched for more than five
    minutes, the longest waiting first; what it writes to the log are
    messages of those rows, each stored as [pending] by then; with no I/O
    failure every one of them ends [pending] and is published. *)
Theorem recoverStuck_reclaims_stuck_rows (w : World) :
  keyed (db w) →
  (head (faults w) = Some true ∧ untouched w (app.recoverStuck w))
  ∨ ∃ selected,
      (length selected ≤ 50)%nat
      ∧ Forall (λ n, notifications (db w) !! ID n = Some n
                     ∧ NStatus n = StatusProcessing
                     ∧ UpdatedAt n < clock w - 5 * postgres.Minute) selected
      ∧ StronglySorted postgres.by_updated_at selected
      ∧ (∀ m, notifications (db w) !! ID m = Some m →
           NStatus m = StatusProcessing → UpdatedAt m < clock w - 5 * postgres.Minute →
           m ∉ selected →
           length selected = 50%nat ∧ Forall (λ n, UpdatedAt n ≤ UpdatedAt m) selected)
      ∧ (∃ published msgs,
           published `sublist_of` selected
           ∧ Forall2 (λ n m, message_of n = Some m) published msgs
           ∧ log (app.recoverStuck w) = log w ++ msgs
           ∧ Forall (λ n, status_of (app.recoverStuck w) (ID n) = Some StatusPending)
               published)
      ∧ (faults w = [] →
           log (app.recoverStuck w) = log w ++ omap message_of selected
           ∧ Forall (λ n, status_of (app.recoverStuck w) (ID n) = Some StatusPending)
               selected).
Proof.
  intros Hkeyed. unfold app.recoverStuck, postgres.ListStuckProcessing.
  destruct (io_frame w) as (Hd & Hl & Hs & Hh & _ & Hk & _).
  unfold io in *. destruct (faults w) as [|[] rest] eqn:Hf; cbn [fst snd] in *.
  - right. fold (rows w).
    destruct (select_sorted postgres.by_updated_at
                (λ n, postgres.stuck (clock w) (5 * postgres.Minute) n = true) 50 (rows w))
      as (Hlen & Hsel & Hsorted & Hold & Hnd).
    set (selected := take 50 _) in *.
    specialize (Hnd _ ID (rows_ids_NoDup w Hkeyed)).
    assert (Hstored : Forall (λ n, notifications (db w) !! ID n = Some n) selected).
    { eapply Forall_impl; [exact Hsel|]. intros n [Hn _]. by apply stored_row. }
    assert (Hex : Forall (λ n, is_Some (notifications (db w) !! ID n)) selected).
    { eapply Forall_impl; [exact Hstored|]. intros n Hn. cbn. rewrite Hn. by eexists. }
    exists selected. split; [done|]. split; [|split; [done|split; [|split]]].
    + apply Forall_forall. intros n Hn.
      split; [by eapply Forall_forall in Hstored|].
      eapply Forall_forall in Hsel as [_ Hst]; [|done]. by apply stuck_inv.
    + intros m Hm Hst Hup Hnot. apply Hold; [| |done].
      * apply elem_of_rows. eauto.
      * unfold postgres.stuck. rewrite bool_decide_eq_true_2 by done.
        by apply Z.ltb_lt.
    + destruct (promote_all selected w Hnd Hex) as (pub & msgs & Hsub & Hmsgs & Hlog & Hst & _).
      exists pub, msgs. done.
    + intros _. destruct (promote_all_quiet selected w Hf Hnd Hex) as (_ & Hlog & Hst & _).
      done.
  - left. split; [done|]. by unfold untouched.
  - right. set (w1 := set_faults w rest).
    change (clock w1) with (clock w). change (db w1) with (db w).
    fold (rows w).
    destruct (select_sorted postgres.by_updated_at
                (λ n, postgres.stuck (clock w) (5 * postgres.Minute) n = true) 50 (rows w))
      as (Hlen & Hsel & Hsorted & Hold & Hnd).
    set (selected := take 50 _) in *.
    specialize (Hnd _ ID (rows_ids_NoDup w Hkeyed)).
    assert (Hstored : Forall (λ n, notifications (db w) !! ID n = Some n) selected).
    { eapply Forall_impl; [exact Hsel|]. intros n [Hn _]. by apply stored_row. }
    assert (Hex : Forall (λ n, is_Some (notifications (db w1) !! ID n)) selected).
    { eapply Forall_impl; [exact Hstored|]. intros n Hn. cbn. rewrite Hn. by eexists. }
    exists selected. split; [done|]. split; [|split; [done|split; [|split]]].
    + apply Forall_forall. intros n Hn.
      split; [by eapply Forall_forall in Hstored|].
      eapply Forall_forall in Hsel as [_ Hst]; [|done]. by apply stuck_inv.
    + intros m Hm Hst Hup Hnot. apply Hold; [| |done].
      * apply elem_of_rows. eauto.
      * unfold postgres.stuck. rewrite bool_decide_eq_true_2 by done.
        by apply Z.ltb_lt.
    + destruct (promote_all selected w1 Hnd Hex) as (pub & msgs & Hsub & Hmsgs & Hlog & Hst & _).
      exists pub, msgs. done.
    + intros Hq. discriminate Hq.
Qed.

Lemma recoverStuck_reclaims_stuck_rows_witness :
  let w := cases.at_time (10 * postgres.Minute)
             (cases.world_of
                (cases.with_row (cases.row 7%N None StatusProcessing 1) cases.empty_db)
                cases.accepting []) in
  ∃ selected, (length selected ≤ 50)%nat
    ∧ log (app.recoverStuck w) = log w ++ omap message_of selected
    ∧ Forall (λ n, status_of (app.recoverStuck w) (ID n) = Some StatusPending) selected.
Proof.
  intros w.
  destruct (recoverStuck_reclaims_stuck_rows w)
    as [[Hhead _] | (selected & Hlen & _ & _ & _ & _ & Hquiet)].
  - intros k row Hrow. cbn in Hrow.
    apply lookup_insert_Some in Hrow as [[<- <-] | [_ Hrow]]; [reflexivity|].
    by rewrite lookup_empty in Hrow.
  - discriminate Hhead.
  - exists selected. destruct (Hquiet eq_refl) as [Hlog Hst]. auto.
Defined.

(** A row left in [processing] is picked up once five minutes are over. *)
Example stuck_row_is_published_again :
  let w := cases.world_of
             (cases.with_row (cases.row 7%N None StatusProcessing 1) cases.empty_db)
             cases.accepting [] in
  let early := app.recoverStuck (cases.at_time (5 * postgres.Minute) w) in
  let late := app.recoverStuck (cases.at_time (5 * postgres.Minute + 1) w) in
  log early = [] ∧ status_of early 7%N = Some StatusProcessing
  ∧ Topic <$> log late = ["notifications.normal"]
  ∧ status_of late 7%N = Some StatusPending.
Proof. vm_compute. auto 10. Qed.

End stuck.

(** ** The delivery coordinator: the paths of one delivery *)

Section delivery.

Lemma alter_alter_insert {A} (f g : A → A) (k : UUID) (x : A) (m : gmap UUID A) :
  m !! k = Some x → alter f k (alter g k m) = <[k := f (g x)]> m.
Proof.
  intros Hk. apply map_eq. intros i. destruct (decide (i = k)) as [->|Hne].
  - rewrite !lookup_alter_eq, lookup_insert_eq, Hk. reflexivity.
  - rewrite !lookup_alter_ne, lookup_insert_ne by done. reflexivity.
Qed.

(** The accepted delivery, step by step. *)
Lemma deliver_accepted (s : string) (id : UUID) (n : Notification)
    (resp : ProviderResponse) (w : World) :
  faults w = [] →
  uuid.Parse s = Some id →
  notifications (db w) !! id = Some n →
  ID n = id →
  NStatus n ≠ StatusCancelled → NStatus n ≠ StatusDelivered →
  provider w (length (sent w)) (MarkProcessing n (clock w)) = inr resp →
  let w' := (app.ProcessDelivery s w).2 in
  (app.ProcessDelivery s w).1 = None
  ∧ notifications (db w')
    = <[id := touch n StatusDelivered (Some (clock w)) (FailedAt n) (ErrorMessage n)
                (RetryCount n) (Some (MessageID resp)) (clock w)]> (notifications (db w))
  ∧ batches w' = match BatchID n with
                 | Some b => alter (postgres.bump StatusDelivered) b (batches w)
                 | None => batches w
                 end
  ∧ sent w' = sent w ++ [MarkProcessing n (clock w)]
  ∧ hub w' = hub w ++ [{| SNotificationID := uuid.String id; SStatus := StatusDelivered |}]
  ∧ log w' = log w ∧ committed w' = committed w ∧ faults w' = [].
Proof.
  intros Hq Hparse Hrow Hid Hc Hd Hprov w'. subst w'.
  unfold app.ProcessDelivery. rewrite Hparse, GetByID_quiet, Hrow by done.
  rewrite !bool_decide_eq_false_2 by done. cbn [orb].
  rewrite UpdateStatus_quiet by done.
  unfold app.Send. cbn [provider sent set_db]. rewrite Hprov.
  rewrite UpdateStatus_quiet by done.
  unfold app.count. cbn [BatchID MarkDelivered MarkProcessing setStatus touch].
  assert (Hm : ∀ f g, alter f (ID n) (alter g (ID n) (notifications (db w)))
                      = <[id := f (g n)]> (notifications (db w))).
  { intros f g. rewrite Hid. by apply alter_alter_insert. }
  destruct (BatchID n) as [b|].
  - rewrite IncrementBatchCounter_quiet by done.
    cbn. rewrite Hm, Hid. cbn. done.
  - cbn. rewrite Hm, Hid. cbn. done.
Qed.





(** What the handler leaves alone, on every path and whatever fails. *)
Lemma count_frame n st w :
  notifications (db (app.count n st w)) = notifications (db w)
  ∧ sent (app.count n st w) = sent w ∧ hub (app.count n st w) = hub w
  ∧ log (app.count n st w) = log w.
Proof.
  unfold app.count. destruct (BatchID n); [|done].
  apply IncrementBatchCounter_notifications.
Qed.

Lemma io_committed w : committed (io w).2 = committed w.
Proof. by destruct (io_frame w) as (_ & _ & _ & _ & ? & _). Qed.

Lemma UpdateStatus_rows n w :
  ∀ k, k ≠ ID n →
    notifications (db (postgres.UpdateStatus n w).2) !! k = notifications (db w) !! k.
Proof.
  intros k Hne. destruct (UpdateStatus_cases n w) as (_ & _ & _ & _ & [[_ ->] | [_ ->]]);
    [done|]. cbn. by rewrite lookup_alter_ne.
Qed.

(** X6: what one delivery never does, on every path and whatever I/O
    fails: it writes nothing to the log, calls the provider at most once
    (and then with the stored row marked [processing]), broadcasts at most
    one status, and changes no row but the one stored under the id it was
    given. *)
Theorem ProcessDelivery_frame (s : string) (w : World) :
  let w' := (app.ProcessDelivery s w).2 in
  log w' = log w
  ∧ (sent w' = sent w
     ∨ ∃ id n, uuid.Parse s = Some id ∧ notifications (db w) !! id = Some n
               ∧ sent w' = sent w ++ [MarkProcessing n (clock w)])
  ∧ (hub w' = hub w ∨ ∃ u, hub w' = hub w ++ [u])
  ∧ (sent w' = sent w → hub w' = hub w)
  ∧ (∀ id n k, uuid.Parse s = Some id → notifications (db w) !! id = Some n →
       k ≠ ID n → notifications (db w') !! k = notifications (db w) !! k)
  ∧ (uuid.Parse s = None → w' = w).
Proof.
  intros w'. subst w'. unfold app.ProcessDelivery.
  destruct (uuid.Parse s) as [id|]; [|cbn; auto 10].
  pose proof (GetByID_frame id w) as (Hd0 & Hl0 & Hs0 & Hh0).
  destruct (postgres.GetByID id w) as [[err|n] w1] eqn:Hget; cbn [snd] in *.
  { rewrite Hd0. repeat split; auto. discriminate. }
  apply GetByID_inv in Hget as (Hrow & _ & Hk1 & _).
  destruct (_ || _); cbn [snd].
  { rewrite Hd0. repeat split; auto. discriminate. }
  set (p := MarkProcessing n (clock w1)).
  destruct (UpdateStatus_cases p w1) as (Hk2 & Hl2 & Hs2 & Hh2 & _).
  pose proof (UpdateStatus_rows p w1) as Hr2.
  destruct (postgres.UpdateStatus p w1) as [[err|] w2]; cbn [fst snd] in *.
  { split; [congruence|]. split; [left; congruence|]. split; [left; congruence|].
    split; [intros _; congruence|]. split; [|discriminate].
    intros id' n' k [= <-] Hn' Hne. rewrite Hrow in Hn'. injection Hn' as <-.
    rewrite Hr2 by done. by rewrite Hd0. }
  assert (Hsent : ∀ x, sent x = sent w2 ++ [p] →
            sent x = sent w
            ∨ ∃ id0 n0, Some id = Some id0 ∧ notifications (db w) !! id0 = Some n0
                ∧ sent x = sent w ++ [MarkProcessing n0 (clock w)]).
  { intros x Hx. right. exists id, n. split; [done|]. split; [done|].
    rewrite Hx, Hs2, Hs0. unfold p. by rewrite Hk1. }
  assert (Hne : ∀ l, l = sent w2 ++ [p] → l ≠ sent w).
  { intros l -> Heq. rewrite Hs2, Hs0 in Heq.
    apply (f_equal length) in Heq. rewrite length_app in Heq. cbn in Heq. lia. }
  unfold app.Send. set (w3 := set_sent w2 (sent w2 ++ [p])).
  assert (Hr3 : ∀ k, k ≠ ID n → notifications (db w3) !! k = notifications (db w) !! k).
  { intros k Hk. unfold w3. cbn. rewrite Hr2 by done. by rewrite Hd0. }
  destruct (provider w2 (length (sent w2)) p) as [sendErr|resp].
  - destruct (_ && _); cbn [snd].
    + match goal with |- context [postgres.UpdateStatus ?m ?x] =>
        destruct (UpdateStatus_cases m x) as (_ & Hl4 & Hs4 & Hh4 & _);
        pose proof (UpdateStatus_rows m x) as Hr4 end.
      split; [rewrite Hl4; cbn; congruence|].
      split; [apply Hsent; rewrite Hs4; done|].
      split; [left; rewrite Hh4; cbn; congruence|].
      split; [intros Heq; exfalso; eapply Hne; [|exact Heq]; rewrite Hs4; done|]. split; [|discriminate].
      intros id' n' k [= <-] Hn' Hk. rewrite Hrow in Hn'. injection Hn' as <-.
      rewrite Hr4 by exact Hk. by apply Hr3.
    + match goal with |- context [app.count ?m ?st (postgres.UpdateStatus ?m' ?x).2] =>
        destruct (UpdateStatus_cases m' x) as (_ & Hl4 & Hs4 & Hh4 & _);
        pose proof (UpdateStatus_rows m' x) as Hr4;
        destruct (count_frame m st (postgres.UpdateStatus m' x).2) as (Hn5 & Hs5 & Hh5 & Hl5)
      end.
      cbn [app.broadcastStatus log sent hub db set_hub].
      split; [rewrite Hl5, Hl4; cbn; congruence|].
      split; [apply Hsent; rewrite Hs5, Hs4; done|].
      split; [right; eexists; rewrite Hh5, Hh4; cbn; rewrite Hh2, Hh0; reflexivity|].
      split; [intros Heq; exfalso; eapply Hne; [|exact Heq]; rewrite Hs5, Hs4; done|]. split; [|discriminate].
      intros id' n' k [= <-] Hn' Hk. rewrite Hrow in Hn'. injection Hn' as <-.
      rewrite Hn5, Hr4 by exact Hk. by apply Hr3.
  - cbn [snd].
    match goal with |- context [app.count ?m ?st (postgres.UpdateStatus ?m' ?x).2] =>
      destruct (UpdateStatus_cases m' x) as (_ & Hl4 & Hs4 & Hh4 & _);
      pose proof (UpdateStatus_rows m' x) as Hr4;
      destruct (count_frame m st (postgres.UpdateStatus m' x).2) as (Hn5 & Hs5 & Hh5 & Hl5)
    end.
    cbn [app.broadcastStatus log sent hub db set_hub].
    split; [rewrite Hl5, Hl4; cbn; congruence|].
    split; [apply Hsent; rewrite Hs5, Hs4; done|].
    split; [right; eexists; rewrite Hh5, Hh4; cbn; rewrite Hh2, Hh0; reflexivity|].
    split; [intros Heq; exfalso; eapply Hne; [|exact Heq]; rewrite Hs5, Hs4; done|]. split; [|discriminate].
    intros id' n' k [= <-] Hn' Hk. rewrite Hrow in Hn'. injection Hn' as <-.
    rewrite Hn5, Hr4 by exact Hk. by apply Hr3.
Qed.

(** X7: when the update that marks the row [processing] fails, the
    handler returns that error and stops: the provider is not called, no
    status is broadcast, and tables and log are as they were. *)
Theorem ProcessDelivery_stops_when_marking_fails (s : string) (id : UUID)
    (n : Notification) (rest : list bool) (w : World) :
  faults w = false :: true :: rest →
  uuid.Parse s = Some id →
  notifications (db w) !! id = Some n →
  NStatus n ≠ StatusCancelled → NStatus n ≠ StatusDelivered →
  (app.ProcessDelivery s w).1 = Some io_error
  ∧ untouched w (app.ProcessDelivery s w).2
  ∧ faults (app.ProcessDelivery s w).2 = rest.
Proof.
  intros Hf Hparse Hrow Hc Hd.
  unfold app.ProcessDelivery, postgres.GetByID, postgres.UpdateStatus, io.
  rewrite Hparse, Hf. cbn [fst snd db set_faults]. rewrite Hrow.
  rewrite !bool_decide_eq_false_2 by done. cbn. unfold untouched. done.
Qed.

Lemma ProcessDelivery_stops_when_marking_fails_witness :
  let w := cases.world_of (cases.with_row (cases.row 7%N None StatusPending 0) cases.empty_db)
             cases.accepting [false; true] in
  (app.ProcessDelivery cases.id7 w).1 = Some io_error
  ∧ sent (app.ProcessDelivery cases.id7 w).2 = [].
Proof.
  intros w.
  destruct (ProcessDelivery_stops_when_marking_fails cases.id7 7%N
              (cases.row 7%N None StatusPending 0) [] w) as (Hr & (_ & _ & Hs & _) & _);
    [reflexivity|reflexivity|reflexivity|discriminate|discriminate|].
  split; [exact Hr|exact Hs].
Defined.

End delivery.

(** ** The consumer *)

Section consumer.

Lemma CommitMessages_frame msg w :
  untouched w (queue.CommitMessages msg w)
  ∧ (committed (queue.CommitMessages msg w) = committed w
     ∨ committed (queue.CommitMessages msg w) = committed w ++ [msg]).
Proof.
  unfold queue.CommitMessages, untouched.
  destruct (io_frame w) as (Hd & Hl & Hs & Hh & Hc & _).
  destruct (io w) as [[] w1]; cbn [fst snd] in *; [auto 10|].
  cbn. rewrite Hc. auto 10.
Qed.

Lemma retry_frame msg w :
  db (queue.retry msg w) = db w ∧ sent (queue.retry msg w) = sent w
  ∧ hub (queue.retry msg w) = hub w ∧ committed (queue.retry msg w) = committed w
  ∧ (log (queue.retry msg w) = log w ∨ log (queue.retry msg w) = log w ++ [msg]).
Proof.
  unfold queue.retry.
  destruct (io_frame w) as (Hd & Hl & Hs & Hh & Hc & _).
  destruct (io w) as [[] w1]; cbn [fst snd] in *; [auto 10|].
  cbn. rewrite Hl. destruct msg. auto 10.
Qed.

(** X8: one turn of the consumer, for every handler and whatever I/O
    fails.  A message whose value does not decode is committed and
    dropped: the handler is not run and nothing is written.  For a message
    that decodes, the consumer adds nothing to what the handler did except
    at most one copy of the same message on the log, and that only if the
    handler returned an error; the offset is committed at most once, after
    the handler. *)
Theorem consume_republishes_at_most_once (handler : queue.MessageHandler)
    (msg : Message) (w : World) :
  let w' := queue.consume handler msg w in
  match MValue msg with
  | Garbage _ =>
      untouched w w'
      ∧ (committed w' = committed w ∨ committed w' = committed w ++ [msg])
  | Json payload =>
      let r := handler (NotificationID payload) w in
      db w' = db r.2 ∧ sent w' = sent r.2 ∧ hub w' = hub r.2
      ∧ (log w' = log r.2 ∨ is_Some r.1 ∧ log w' = log r.2 ++ [msg])
      ∧ (committed w' = committed r.2 ∨ committed w' = committed r.2 ++ [msg])
  end.
Proof.
  intros w'. subst w'. unfold queue.consume.
  destruct (MValue msg) as [payload|raw]; [|apply CommitMessages_frame].
  destruct (handler (NotificationID payload) w) as [[err|] w1]; cbn [fst snd].
  - destruct (retry_frame msg w1) as (Hd & Hs & Hh & Hc & Hl).
    destruct (CommitMessages_frame msg (queue.retry msg w1))
      as ((Hd' & Hl' & Hs' & Hh') & Hc').
    rewrite Hd', Hs', Hh', Hl', Hd, Hs, Hh. rewrite Hc in Hc'.
    repeat split; [|done].
    destruct Hl as [->| ->]; [by left|right]. split; [by eexists|done].
  - destruct (CommitMessages_frame msg w1) as ((Hd' & Hl' & Hs' & Hh') & Hc').
    rewrite Hd', Hs', Hh', Hl'. repeat split; [|done]. by left.
Qed.

(** X9: the pause before a message is published again is two seconds
    plus the jitter, so between two and three seconds; the cap of thirty
    seconds is never the value returned. *)
Theorem retryDelay_bounds (jitter : Z) :
  0 ≤ jitter < 1000 →
  queue.retryDelay jitter = 2 * queue.Second + jitter * queue.Millisecond
  ∧ 2 * queue.Second ≤ queue.retryDelay jitter < 3 * queue.Second.
Proof.
  intros Hj. unfold queue.retryDelay, queue.Second, queue.Millisecond.
  destruct (Z.ltb_spec (30 * (1000 * 1000000)) (2 * (1000 * 1000000) + jitter * 1000000)); lia.
Qed.

Lemma retryDelay_bounds_witness :
  queue.retryDelay 999 = 2 * queue.Second + 999 * queue.Millisecond
  ∧ 2 * queue.Second ≤ queue.retryDelay 999 < 3 * queue.Second.
Proof. apply (retryDelay_bounds 999). lia. Defined.

End consumer.

(** ** The store of idempotency keys *)

Section idempotency_store.




End idempotency_store.

(** ** The intake service: one create *)

Section intake.
Context `{template.Engine}.

Lemma NewNotification_topic channel recipient content priority scheduledAt id now n :
  NewNotification channel recipient content priority scheduledAt id now = inr n →
  ∃ topic, queue.topicForPriority priority = Some topic.
Proof.
  unfold NewNotification.
  destruct (validateChannel channel); [discriminate|].
  destruct (validateRecipient channel recipient); [discriminate|].
  destruct (validateContent channel content); [discriminate|].
  unfold validatePriority, queue.topicForPriority.
  repeat case_bool_decide; cbn; try discriminate; eauto.
Qed.

(** The first create of a request, step by step, on a quiet oracle. *)
Lemma Create_fresh (input : app.CreateNotificationInput) (n0 : Notification) (w : World) :
  faults w = [] →
  misses input w →
  app.in_TemplateID input = None →
  NewNotification (app.in_Channel input) (app.in_Recipient input) (app.in_Content input)
    (app.in_Priority input) (app.in_ScheduledAt input) (uuids w (uuid_next w)) (clock w)
    = inr n0 →
  notifications (db w) !! uuids w (uuid_next w) = None →
  postgres.key_taken (notifications (db w)) (app.in_IdempotencyKey input) = false →
  (uuids w (uuid_next w) < 2 ^ 128)%N →
  let n := app.attach n0 None input in
  let r := app.Create input w in
  r.1 = inr n
  ∧ ID n = uuids w (uuid_next w)
  ∧ notifications (db r.2) = <[ID n := inserted_row n]> (notifications (db w))
  ∧ notification_batches (db r.2) = notification_batches (db w)
  ∧ templates (db r.2) = templates (db w)
  ∧ idempotency_keys (db r.2)
    = match app.in_IdempotencyKey input with
      | Some key =>
          match idempotency_keys (db w) !! key with
          | Some _ => idempotency_keys (db w)
          | None => <[key := (ID n, clock w + 24 * postgres.Hour)]> (idempotency_keys (db w))
          end
      | None => idempotency_keys (db w)
      end
  ∧ (∃ topic, queue.topicForPriority (app.in_Priority input) = Some topic
       ∧ log r.2 = log w ++ match app.in_ScheduledAt input with
                            | Some _ => []
                            | None => [queue.message_for topic n]
                            end)
  ∧ sent r.2 = sent w ∧ hub r.2 = hub w ∧ committed r.2 = committed w
  ∧ faults r.2 = [] ∧ provider r.2 = provider w ∧ clock r.2 = clock w.
Proof.
  intros Hq Hmiss Htmpl Hnew Hfresh Hkey Hbits n r. subst r.
  pose proof (NewNotification_topic _ _ _ _ _ _ _ _ Hnew) as (topic & Htopic).
  pose proof (NewNotification_fields _ _ _ _ _ _ _ _ Hnew) as (Hid & Hsch & _ & Hprio & _).
  assert (Hidn : ID n = uuids w (uuid_next w)) by exact Hid.
  assert (Hschn : ScheduledAt n = app.in_ScheduledAt input) by exact Hsch.
  assert (Hprion : NPriority n = app.in_Priority input) by exact Hprio.
  assert (Hkeyn : IdempotencyKey n = app.in_IdempotencyKey input) by reflexivity.
  unfold app.Create.
  assert (Hhit : match app.in_IdempotencyKey input with
                 | Some key =>
                     let '(found, existingID, _, w1) := postgres.Check key w in
                     (if found then Some existingID else None, w1)
                 | None => (None, w)
                 end = (None, w)).
  { destruct (app.in_IdempotencyKey input) as [key|] eqn:Hk; [|done].
    by rewrite (Check_quiet_miss input key w Hq Hk Hmiss). }
  rewrite Hhit. unfold app.content_of. rewrite Htmpl. unfold new_uuid. rewrite Hnew.
  fold n. unfold postgres.Create. rewrite io_quiet by done.
  unfold postgres.insert_notification. cbn [db set_uuid_next].
  rewrite Hidn, Hfresh, Hkeyn, Hkey, inserted_is_inserted_row. cbn [fst snd].
  unfold postgres.wrapIDempotencyError.
  set (w2 := set_db _ _).
  assert (Hq2 : faults w2 = []) by exact Hq.
  set (w3 := match app.in_IdempotencyKey input with
             | Some key => (postgres.SetNX key _ w2).2
             | None => w2
             end).
  assert (H3 : faults w3 = [] ∧ log w3 = log w ∧ sent w3 = sent w ∧ hub w3 = hub w
               ∧ committed w3 = committed w ∧ provider w3 = provider w
               ∧ clock w3 = clock w
               ∧ notifications (db w3)
                 = <[uuids w (uuid_next w) := inserted_row n]> (notifications (db w))
               ∧ notification_batches (db w3) = notification_batches (db w)
               ∧ templates (db w3) = templates (db w)
               ∧ idempotency_keys (db w3)
                 = match app.in_IdempotencyKey input with
                   | Some key =>
                       match idempotency_keys (db w) !! key with
                       | Some _ => idempotency_keys (db w)
                       | None => <[key := (ID n, clock w + 24 * postgres.Hour)]>
                                   (idempotency_keys (db w))
                       end
                   | None => idempotency_keys (db w)
                   end).
  { subst w3. destruct (app.in_IdempotencyKey input) as [key|]; [|cbn; auto 15].
    unfold postgres.SetNX. rewrite io_quiet by done.
    rewrite ?Hidn, Parse_String by done.
    unfold postgres.idempotencyTTL.
    destruct (idempotency_keys (db w) !! key) eqn:Hold; cbn; rewrite ?Hold; cbn; auto 15. }
  destruct H3 as (Hq3 & Hl3 & Hs3 & Hh3 & Hc3 & Hp3 & Hk3 & Hn3 & Hb3 & Ht3 & Hi3).
  clearbody w3. clear w2 Hq2. rewrite Hidn in Hi3.
  unfold app.publish. rewrite Hschn.
  destruct (app.in_ScheduledAt input) as [t|].
  - cbn [queue.EnqueueScheduled fst snd].
    rewrite Hl3, app_nil_r. split; [done|]. split; [done|].
    split; [done|]. split; [done|]. split; [done|]. split; [done|].
    split; [by exists topic|]. auto 10.
  - unfold queue.Enqueue. rewrite Hprion, Htopic, io_quiet by done. cbn [fst snd].
    cbn [log db sent hub committed faults provider clock set_log].
    rewrite Hl3. split; [done|]. split; [done|].
    split; [done|]. split; [done|]. split; [done|]. split; [done|].
    split; [by exists topic|]. auto 10.
Qed.

(** X12: a request whose key has a record that is still valid is
    answered from the table, with no I/O failure: the result is the row
    stored under the recorded id (or "not found" if that row is gone), the
    rest of the request is not looked at, not even validated, and nothing
    is stored, published or drawn from the id generator. *)
Theorem Create_replays_recorded_key (input : app.CreateNotificationInput) (key : string)
    (id : UUID) (expires : Time) (w : World) :
  faults w = [] →
  (id < 2 ^ 128)%N →
  app.in_IdempotencyKey input = Some key →
  idempotency_keys (db w) !! key = Some (id, expires) →
  clock w < expires →
  app.Create input w
  = (match notifications (db w) !! id with
     | Some row => inr row
     | None => inl (Sentinel ErrNotificationNotFound)
     end, w).
Proof.
  intros Hq Hid Hkey Hrec Hvalid. unfold app.Create. rewrite Hkey.
  unfold postgres.Check. rewrite io_quiet by done. cbv beta iota.
  destruct (idempotency_keys (db w) !! key) as [[id' expires']|]; [|discriminate Hrec].
  injection Hrec as -> ->.
  replace (clock w <? expires) with true by (symmetry; apply Z.ltb_lt; lia).
  rewrite Parse_String by done. cbn [default]. by rewrite GetByID_quiet.
Qed.


(** X14: a key that a stored row holds and that has no valid record
    (the record was never written, or its 24 hours are over) cannot be
    used again: a valid request with that key is refused with
    [ErrDuplicateIdempotencyKey], which the handler answers with 409, and
    nothing is stored, recorded or published.  Rows are never deleted, so
    this stays so once the record has expired. *)
Theorem Create_refuses_key_held_by_a_row (input : app.CreateNotificationInput)
    (key : string) (n0 holder : Notification) (hid : UUID) (w : World) :
  faults w = [] →
  app.in_IdempotencyKey input = Some key →
  misses input w →
  notifications (db w) !! hid = Some holder →
  IdempotencyKey holder = Some key →
  app.in_TemplateID input = None →
  NewNotification (app.in_Channel input) (app.in_Recipient input) (app.in_Content input)
    (app.in_Priority input) (app.in_ScheduledAt input) (uuids w (uuid_next w)) (clock w)
    = inr n0 →
  notifications (db w) !! uuids w (uuid_next w) = None →
  (app.Create input w).1 = inl (Sentinel ErrDuplicateIdempotencyKey)
  ∧ http.handleDomainError (Sentinel ErrDuplicateIdempotencyKey) = 409
  ∧ untouched w (app.Create input w).2
  ∧ idempotency_keys (db (app.Create input w).2) = idempotency_keys (db w).
Proof.
  intros Hq Hkey Hmiss Hheld Hk Htmpl Hnew Hfresh.
  pose proof (NewNotification_fields _ _ _ _ _ _ _ _ Hnew) as (Hid & _).
  unfold app.Create. rewrite Hkey.
  rewrite (Check_quiet_miss input key w Hq Hkey Hmiss).
  unfold app.content_of. rewrite Htmpl. unfold new_uuid. rewrite Hnew.
  unfold postgres.Create. rewrite io_quiet by done.
  unfold postgres.insert_notification. cbn [db set_uuid_next app.attach ID IdempotencyKey].
  rewrite Hid, Hfresh, Hkey.
  replace (postgres.key_taken (notifications (db w)) (Some key)) with true
    by (symmetry; apply key_taken_spec; eauto).
  cbn. unfold untouched. done.
Qed.

End intake.

Lemma Create_replays_recorded_key_witness :
  let w := cases.world_of
             (set_keys (cases.with_row (cases.row 7%N None StatusDelivered 0) cases.empty_db)
                (<["k" := (7%N, 5000)]> ∅))
             cases.accepting [] in
  app.Create (cases.sms (Some "k") None) w
  = (match notifications (db w) !! 7%N with
     | Some row => inr row
     | None => inl (Sentinel ErrNotificationNotFound)
     end, w).
Proof.
  intros w.
  apply (Create_replays_recorded_key (cases.sms (Some "k") None) "k" 7%N 5000 w);
    [reflexivity|reflexivity|reflexivity|reflexivity|reflexivity].
Defined.


Lemma Create_refuses_key_held_by_a_row_witness :
  let holder := app.attach (cases.row 7%N None StatusDelivered 0) None
                  (cases.sms (Some "k") None) in
  let w := cases.world_of (cases.with_row holder cases.empty_db) cases.accepting [] in
  (app.Create (cases.sms (Some "k") None) w).1 = inl (Sentinel ErrDuplicateIdempotencyKey).
Proof.
  intros holder w.
  destruct (NewNotification ChannelSMS "+905530050594" "Hello" PriorityNormal None
              100%N 1000) as [e|n0] eqn:Hnew; [vm_compute in Hnew; discriminate Hnew|].
  apply (Create_refuses_key_held_by_a_row (cases.sms (Some "k") None) "k" n0 holder 7%N w);
    [reflexivity|reflexivity|exact I|reflexivity|reflexivity|reflexivity|exact Hnew
    |reflexivity].
Defined.

(** ** What the handlers answer *)

Section answers.

(** X15: every error of the validation of a notification is answered
    with 400, and the create that met it, on a request without a valid key
    record and without a template, stored and published nothing and drew
    no id. *)
Theorem validation_errors_are_bad_requests `{template.Engine}
    (input : app.CreateNotificationInput) (e : error) (w : World) :
  faults w = [] →
  misses input w →
  app.in_TemplateID input = None →
  NewNotification (app.in_Channel input) (app.in_Recipient input) (app.in_Content input)
    (app.in_Priority input) (app.in_ScheduledAt input) (uuids w (uuid_next w)) (clock w)
    = inl e →
  app.Create input w = (inl e, w) ∧ http.handleDomainError e = 400.
Proof.
  intros Hq Hmiss Htmpl Hnew. split.
  - unfold app.Create.
    assert (Hhit : match app.in_IdempotencyKey input with
                   | Some key =>
                       let '(found, existingID, _, w1) := postgres.Check key w in
                       (if found then Some existingID else None, w1)
                   | None => (None, w)
                   end = (None, w)).
    { destruct (app.in_IdempotencyKey input) as [key|] eqn:Hk; [|done].
      by rewrite (Check_quiet_miss input key w Hq Hk Hmiss). }
    rewrite Hhit. unfold app.content_of. rewrite Htmpl. unfold new_uuid. by rewrite Hnew.
  - revert Hnew.
    unfold NewNotification, validateChannel, validateRecipient, validateContent,
      validatePriority.
    repeat case_match; intros [= <-]; simplify_eq; reflexivity.
Qed.

Lemma validation_errors_are_bad_requests_witness :
  let w := cases.world_of cases.empty_db cases.accepting [] in
  let input := {| app.in_Channel := ChannelSMS; app.in_Recipient := "05530050594";
                  app.in_Content := "Hello"; app.in_Priority := PriorityNormal;
                  app.in_ScheduledAt := None; app.in_IdempotencyKey := None;
                  app.in_TemplateID := None; app.in_TemplateVariables := ∅ |} in
  app.Create input w = (inl (Wrapf ErrInvalidRecipient "must be E.164 format"), w)
  ∧ http.handleDomainError (Wrapf ErrInvalidRecipient "must be E.164 format") = 400.
Proof.
  intros w input.
  apply (validation_errors_are_bad_requests input
           (Wrapf ErrInvalidRecipient "must be E.164 format") w);
    [reflexivity|exact I|reflexivity|vm_compute; reflexivity].
Defined.

(** X16: a template that fails to render is not among the errors the
    handler knows: a create that stops on a render error is answered with
    500, while a template that is not found is answered with 404. *)
Theorem render_failure_is_an_internal_error `{template.Engine}
    (input : app.CreateNotificationInput) (w : World) (e : error) :
  (app.content_of input w).1 = inl e →
  faults w = [] →
  ∃ templateID, app.in_TemplateID input = Some templateID
    ∧ match templates (db w) !! templateID with
      | None => e = Sentinel ErrTemplateNotFound ∧ http.handleDomainError e = 404
      | Some t => errors.Is e ErrTemplateRenderFailed = true ∧ http.handleDomainError e = 500
      end.
Proof.
  intros He Hq. unfold app.content_of, postgres.GetTemplateByID in He.
  destruct (app.in_TemplateID input) as [templateID|]; [|discriminate He].
  exists templateID. split; [done|]. rewrite io_quiet in He by done.
  destruct (templates (db w) !! templateID) as [t|]; cbn [fst snd] in He.
  - unfold Render in He.
    destruct (template.Parse (tmpl_Name t) (tmpl_Body t)) as [msg|tr];
      [injection He as <-; done|].
    destruct (template.Execute tr _) as [msg|out]; [injection He as <-; done|discriminate He].
  - injection He as <-. done.
Qed.

Lemma render_failure_is_an_internal_error_witness :
  let w := cases.world_of (cases.with_template cases.broken cases.empty_db)
             cases.accepting [] in
  ∃ e, (app.content_of (cases.templated 51%N ∅) w).1 = inl e
       ∧ http.handleDomainError e = 500.
Proof.
  intros w.
  destruct (app.content_of (cases.templated 51%N ∅) w).1 as [e|c] eqn:He;
    [|vm_compute in He; discriminate He].
  exists e. split; [reflexivity|].
  destruct (render_failure_is_an_internal_error (cases.templated 51%N ∅) w e He eq_refl)
    as (templateID & Hid & Hcase).
  injection Hid as <-. exact (proj2 Hcase).
Defined.

End answers.

(** ** Cancelling *)

Section cancelling.

(** The accepted cancel, step by step. *)
Lemma cancel_accepted (id : UUID) (n : Notification) (w : World) :
  faults w = [] →
  notifications (db w) !! id = Some n →
  CanCancel n = true →
  let r := app.Cancel id w in
  r.1 = None
  ∧ notifications (db r.2)
    = <[id := setStatus n StatusCancelled (clock w)]> (notifications (db w))
  ∧ batches r.2 = match BatchID n with
                  | Some b => alter (postgres.bump StatusCancelled) b (batches w)
                  | None => batches w
                  end
  ∧ log r.2 = log w ∧ sent r.2 = sent w ∧ hub r.2 = hub w
  ∧ committed r.2 = committed w ∧ faults r.2 = [] ∧ clock r.2 = clock w.
Proof.
  intros Hq Hrow Hcan r. subst r. unfold app.Cancel.
  rewrite GetByID_quiet, Hrow by done. unfold domain.Cancel. rewrite Hcan. cbn [negb].
  rewrite Cancel_quiet, Hrow, Hcan by done.
  unfold app.count. cbn [BatchID setStatus touch].
  destruct (BatchID n) as [b|]; [|cbn; auto 10].
  rewrite IncrementBatchCounter_quiet by done. cbn. auto 10.
Qed.

(** X17: cancelling a stored notification that is [pending] or
    [scheduled], with no I/O failure: the row is stored as [cancelled]
    with every other column but [updated_at] as it was, its batch, if it
    has one, counts one more cancelled child, and that is all: no status
    is broadcast, and the message already published for a pending
    notification stays on the log. *)
Theorem Cancel_cancels (id : UUID) (n : Notification) (w : World) :
  faults w = [] →
  notifications (db w) !! id = Some n →
  NStatus n = StatusPending ∨ NStatus n = StatusScheduled →
  let r := app.Cancel id w in
  r.1 = None
  ∧ notifications (db r.2)
    = <[id := setStatus n StatusCancelled (clock w)]> (notifications (db w))
  ∧ batches r.2 = match BatchID n with
                  | Some b => alter (postgres.bump StatusCancelled) b (batches w)
                  | None => batches w
                  end
  ∧ log r.2 = log w ∧ sent r.2 = sent w ∧ hub r.2 = hub w.
Proof.
  intros Hq Hrow Hst r. apply CanCancel_spec in Hst.
  destruct (cancel_accepted id n w Hq Hrow Hst) as (? & ? & ? & ? & ? & ? & _).
  auto 10.
Qed.

Lemma Cancel_cancels_witness :
  let w := cases.world_of
             (cases.with_batch 9%N 3
                (cases.with_row (cases.row 7%N (Some 9%N) StatusPending 0) cases.empty_db))
             cases.accepting [] in
  (app.Cancel 7%N w).1 = None
  ∧ status_of (app.Cancel 7%N w).2 7%N = Some StatusCancelled.
Proof.
  intros w.
  destruct (Cancel_cancels 7%N (cases.row 7%N (Some 9%N) StatusPending 0) w)
    as (Hr & Hn & _); [reflexivity|reflexivity|left; reflexivity|].
  split; [exact Hr|]. unfold status_of. rewrite Hn. reflexivity.
Defined.

(** X18: a cancel that is refused changes nothing and is answered with
    404 when there is no such notification and with 409 when the stored
    one is neither [pending] nor [scheduled]. *)
Theorem Cancel_refusals (id : UUID) (w : World) :
  faults w = [] →
  (∀ n, notifications (db w) !! id = Some n → CanCancel n = false) →
  ∃ e, app.Cancel id w = (Some e, w)
       ∧ http.handleDomainError e
         = match notifications (db w) !! id with Some _ => 409 | None => 404 end.
Proof.
  intros Hq Hno. unfold app.Cancel. rewrite GetByID_quiet by done.
  destruct (notifications (db w) !! id) as [n|]; [|by eexists].
  unfold domain.Cancel. rewrite (Hno n eq_refl). cbn [negb]. by eexists.
Qed.

Lemma Cancel_refusals_witness :
  let w := cases.world_of (cases.with_row (cases.row 7%N None StatusDelivered 0) cases.empty_db)
             cases.accepting [] in
  (∃ e, app.Cancel 7%N w = (Some e, w) ∧ http.handleDomainError e = 409)
  ∧ (∃ e, app.Cancel 8%N w = (Some e, w) ∧ http.handleDomainError e = 404).
Proof.
  intros w. split.
  - apply (Cancel_refusals 7%N w); [reflexivity|].
    intros n Hn. vm_compute in Hn. injection Hn as <-. reflexivity.
  - apply (Cancel_refusals 8%N w); [reflexivity|].
    intros n Hn. vm_compute in Hn. discriminate Hn.
Defined.

End cancelling.

(** ** From the request to the provider *)

Section end_to_end.
Context `{template.Engine}.

(** X19: the two processes together.  A valid immediate request is
    created with no I/O failure; the message the create published is then
    consumed with the delivery coordinator as handler, and the provider
    accepts.  The notification the create returned is then stored as
    [delivered]; the provider was called exactly once, with the row that
    was stored for it (the notification with its time stamps cut to whole
    microseconds) marked [processing]; the message is committed and was
    not published again. *)
Theorem created_notification_is_delivered (input : app.CreateNotificationInput)
    (n0 : Notification) (resp : ProviderResponse) (w : World) :
  faults w = [] →
  misses input w →
  app.in_TemplateID input = None →
  app.in_ScheduledAt input = None →
  NewNotification (app.in_Channel input) (app.in_Recipient input) (app.in_Content input)
    (app.in_Priority input) None (uuids w (uuid_next w)) (clock w) = inr n0 →
  notifications (db w) !! uuids w (uuid_next w) = None →
  postgres.key_taken (notifications (db w)) (app.in_IdempotencyKey input) = false →
  (uuids w (uuid_next w) < 2 ^ 128)%N →
  let n := app.attach n0 None input in
  let row :=
    {| ID := ID n; BatchID := BatchID n; IdempotencyKey := IdempotencyKey n;
       NChannel := NChannel n; Recipient := Recipient n; Content := Content n;
       NPriority := NPriority n; NStatus := NStatus n; ScheduledAt := None;
       SentAt := None; FailedAt := None; ErrorMessage := None; RetryCount := 0;
       MaxRetries := MaxRetries n; ProviderMessageID := None; TemplateID := TemplateID n;
       TemplateVariables := TemplateVariables n;
       CreatedAt := 1000 * (clock w / 1000); UpdatedAt := 1000 * (clock w / 1000) |} in
  provider w (length (sent w)) (MarkProcessing row (clock w)) = inr resp →
  let created := app.Create input w in
  ∃ msg, log created.2 = log w ++ [msg]
    ∧ let w' := queue.consume app.ProcessDelivery msg created.2 in
      created.1 = inr n
      ∧ status_of w' (ID n) = Some StatusDelivered
      ∧ (ProviderMessageID <$> notifications (db w') !! ID n) = Some (Some (MessageID resp))
      ∧ sent w' = sent w ++ [MarkProcessing row (clock w)]
      ∧ committed w' = committed w ++ [msg]
      ∧ log w' = log w ++ [msg].
Proof.
  intros Hq Hmiss Htmpl Hsch Hnew Hfresh Hkey Hbits n row Hprov created.
  assert (Hins : inserted_row n = row).
  { subst row n. revert Hnew. unfold NewNotification.
    repeat case_match; try discriminate. intros [= <-]. reflexivity. }
  rewrite <- Hsch in Hnew.
  destruct (Create_fresh input n0 w Hq Hmiss Htmpl Hnew Hfresh Hkey Hbits)
    as (Hr & Hid & Hn & _ & _ & _ & (topic & Htopic & Hl) & Hs & Hh & Hc & Hq' & Hp & Hk).
  fold n created in Hr, Hid, Hn, Hl, Hs, Hh, Hc, Hq', Hp, Hk.
  rewrite Hsch in Hl.
  exists (queue.message_for topic n). split; [exact Hl|]. intros w'.
  assert (Hrow : notifications (db created.2) !! ID n = Some row)
    by (rewrite Hn, Hins; apply lookup_insert_eq).
  assert (Hst : NStatus n = StatusPending).
  { rewrite Hsch in Hnew. revert Hnew. unfold NewNotification.
    repeat case_match; try discriminate. intros [= <-]. reflexivity. }
  destruct (deliver_accepted (uuid.String (ID n)) (ID n) row resp created.2)
    as (Hd1 & Hd2 & _ & Hd4 & _ & Hd6 & Hd7 & Hd8);
    [done|rewrite Hid; by apply Parse_String|done|done
    |change (NStatus row) with (NStatus n); congruence
    |change (NStatus row) with (NStatus n); congruence|by rewrite Hp, Hs, Hk|].
  destruct (consume_quiet app.ProcessDelivery (queue.message_for topic n)
              {| NotificationID := uuid.String (ID n); PChannel := NChannel n |} created.2)
    as (Hc1 & Hc2 & Hc3 & _ & Hc5); [reflexivity|exact Hd8|].
  cbn [NotificationID] in *. fold w' in Hc1, Hc2, Hc3, Hc5.
  rewrite Hd1 in Hc5. rewrite app_nil_r in Hc5.
  split; [done|].
  split; [unfold status_of; rewrite Hc2, Hd2, lookup_insert_eq; reflexivity|].
  split; [rewrite Hc2, Hd2, lookup_insert_eq; reflexivity|].
  split; [by rewrite Hc3, Hd4, Hs, Hk|].
  split; [by rewrite Hc1, Hd7, Hc|]. by rewrite Hc5, Hd6.
Qed.

End end_to_end.

Lemma created_notification_is_delivered_witness :
  let w := cases.world_of cases.empty_db cases.accepting [] in
  let created := app.Create (cases.sms None None) w in
  ∃ msg, log created.2 = [msg]
    ∧ status_of (queue.consume app.ProcessDelivery msg created.2) 100%N
      = Some StatusDelivered.
Proof.
  intros w created.
  destruct (NewNotification ChannelSMS "+905530050594" "Hello" PriorityNormal None
              100%N 1000) as [e|n0] eqn:Hnew; [vm_compute in Hnew; discriminate Hnew|].
  destruct (created_notification_is_delivered (cases.sms None None) n0 cases.accepted w)
    as (msg & Hl & _ & Hst & _);
    [reflexivity|exact I|reflexivity|reflexivity|exact Hnew|reflexivity|reflexivity
    |reflexivity|reflexivity|].
  exists msg. split; [exact Hl|].
  replace 100%N with (ID (app.attach n0 None (cases.sms None None))); [exact Hst|].
  apply (NewNotification_fields _ _ _ _ _ _ _ _ Hnew).
Defined.

(** ** Rows are never deleted and never rewritten *)

Section rows_kept.

Lemma rows_kept_refl w : rows_kept w w.
Proof. intros k row Hrow. eauto. Qed.

Lemma rows_kept_eq w w' : notifications (db w') = notifications (db w) → rows_kept w w'.
Proof. intros Heq k row Hrow. rewrite Heq. eauto. Qed.

Lemma rows_kept_trans w1 w2 w3 : rows_kept w1 w2 → rows_kept w2 w3 → rows_kept w1 w3.
Proof.
  intros H12 H23 k row Hrow.
  destruct (H12 k row Hrow) as (row2 & Hrow2 & Heq2).
  destruct (H23 k row2 Hrow2) as (row3 & Hrow3 & Heq3).
  exists row3. split; [done|]. congruence.
Qed.

Lemma UpdateStatus_kept n w : rows_kept w (postgres.UpdateStatus n w).2.
Proof.
  destruct (UpdateStatus_cases n w) as (_ & _ & _ & _ & [[_ Hd] | [_ Hd]]).
  - apply rows_kept_eq. by rewrite Hd.
  - intros k row Hrow. rewrite Hd. cbn [notifications set_notifications].
    destruct (decide (k = ID n)) as [->|Hne].
    + rewrite lookup_alter_eq, Hrow. eexists. split; [reflexivity|reflexivity].
    + rewrite lookup_alter_ne by done. eauto.
Qed.

Lemma Cancel_row_kept id w : rows_kept w (postgres.Cancel id w).2.
Proof.
  unfold postgres.Cancel. destruct (io_frame w) as (Hd & _).
  destruct (io w) as [[] w1]; cbn [fst snd] in *; [apply rows_kept_eq; by rewrite Hd|].
  destruct (notifications (db w1) !! id) as [old|] eqn:Hold; cbn [snd];
    [|apply rows_kept_eq; by rewrite Hd].
  destruct (CanCancel old); cbn [snd]; [|apply rows_kept_eq; by rewrite Hd].
  intros k row Hrow. cbn. rewrite <- Hd in Hrow.
  destruct (decide (k = id)) as [->|Hne].
  - rewrite lookup_insert_eq. rewrite Hold in Hrow. injection Hrow as <-.
    eexists. split; [reflexivity|reflexivity].
  - rewrite lookup_insert_ne by done. eauto.
Qed.

Lemma count_kept n st w : rows_kept w (app.count n st w).
Proof. apply rows_kept_eq. apply count_frame. Qed.

Lemma promote_kept w n : rows_kept w (app.promote w n).
Proof.
  unfold app.promote.
  pose proof (UpdateStatus_kept (setStatus n StatusPending (clock w)) w) as Hu.
  destruct (postgres.UpdateStatus _ w) as [[err|] w1]; cbn [snd] in *; [done|].
  eapply rows_kept_trans; [exact Hu|]. apply rows_kept_eq.
  destruct (Enqueue_frame (setStatus n StatusPending (clock w)) w1) as (Hd & _).
  by rewrite Hd.
Qed.

Lemma foldl_promote_kept ns : ∀ w, rows_kept w (foldl app.promote w ns).
Proof.
  induction ns as [|n ns IH]; intros w; cbn [foldl]; [apply rows_kept_refl|].
  eapply rows_kept_trans; [apply promote_kept|apply IH].
Qed.

Lemma processScheduled_kept w : rows_kept w (app.processScheduled w).
Proof.
  unfold app.processScheduled, postgres.ListDueScheduled.
  destruct (io_frame w) as (Hd & _).
  destruct (io w) as [[] w1]; cbn [fst snd] in *; [apply rows_kept_eq; by rewrite Hd|].
  eapply rows_kept_trans; [|apply foldl_promote_kept]. apply rows_kept_eq. by rewrite Hd.
Qed.

Lemma recoverStuck_kept w : rows_kept w (app.recoverStuck w).
Proof.
  unfold app.recoverStuck, postgres.ListStuckProcessing.
  destruct (io_frame w) as (Hd & _).
  destruct (io w) as [[] w1]; cbn [fst snd] in *; [apply rows_kept_eq; by rewrite Hd|].
  eapply rows_kept_trans; [|apply foldl_promote_kept]. apply rows_kept_eq. by rewrite Hd.
Qed.

Lemma ProcessDelivery_kept s w : rows_kept w (app.ProcessDelivery s w).2.
Proof.
  unfold app.ProcessDelivery.
  destruct (uuid.Parse s) as [id|]; [|apply rows_kept_refl].
  pose proof (GetByID_frame id w) as (Hd0 & _).
  destruct (postgres.GetByID id w) as [[err|n] w1]; cbn [snd] in *;
    [apply rows_kept_eq; by rewrite Hd0|].
  assert (H01 : rows_kept w w1) by (apply rows_kept_eq; by rewrite Hd0).
  destruct (_ || _); cbn [snd]; [done|].
  set (p := MarkProcessing n (clock w1)).
  pose proof (UpdateStatus_kept p w1) as H12.
  destruct (postgres.UpdateStatus p w1) as [[err|] w2]; cbn [fst snd] in *;
    [by eapply rows_kept_trans|].
  unfold app.Send. set (w3 := set_sent w2 (sent w2 ++ [p])).
  assert (H03 : rows_kept w w3).
  { eapply rows_kept_trans; [exact H01|]. eapply rows_kept_trans; [exact H12|].
    by apply rows_kept_eq. }
  destruct (provider w2 (length (sent w2)) p) as [sendErr|resp].
  - destruct (_ && _); cbn [snd].
    + eapply rows_kept_trans; [exact H03|]. apply UpdateStatus_kept.
    + eapply rows_kept_trans; [exact H03|].
      eapply rows_kept_trans; [apply UpdateStatus_kept|].
      eapply rows_kept_trans; [apply count_kept|]. by apply rows_kept_eq.
  - cbn [snd]. eapply rows_kept_trans; [exact H03|].
    eapply rows_kept_trans; [apply UpdateStatus_kept|].
    eapply rows_kept_trans; [apply count_kept|]. by apply rows_kept_eq.
Qed.

Lemma Cancel_kept id w : rows_kept w (app.Cancel id w).2.
Proof.
  unfold app.Cancel.
  pose proof (GetByID_frame id w) as (Hd0 & _).
  destruct (postgres.GetByID id w) as [[err|n] w1]; cbn [snd] in *;
    [apply rows_kept_eq; by rewrite Hd0|].
  assert (H01 : rows_kept w w1) by (apply rows_kept_eq; by rewrite Hd0).
  destruct (domain.Cancel n (clock w1)) as [err|n']; cbn [snd]; [done|].
  pose proof (Cancel_row_kept id w1) as H12.
  destruct (postgres.Cancel id w1) as [[err|] w2]; cbn [snd] in *;
    [by eapply rows_kept_trans|].
  eapply rows_kept_trans; [exact H01|]. eapply rows_kept_trans; [exact H12|].
  apply count_kept.
Qed.

Lemma insert_notification_kept n d k row :
  notifications d !! k = Some row →
  notifications (postgres.insert_notification n d).2 !! k = Some row.
Proof.
  intros Hrow.
  destruct (insert_notification_cases n d) as [[_ ->] | (_ & Hfresh & ->)]; [done|].
  cbn. rewrite lookup_insert_ne; [done|]. congruence.
Qed.

Lemma insert_children_kept ns : ∀ w d k row,
  notifications d !! k = Some row →
  (postgres.insert_children ns w d).1.1 = None →
  notifications (postgres.insert_children ns w d).2 !! k = Some row.
Proof.
  induction ns as [|n ns IH]; intros w d k row Hrow; cbn [postgres.insert_children]; [done|].
  destruct (io w) as [[] w1]; cbn [fst snd]; [discriminate|].
  pose proof (insert_notification_kept n d k row Hrow) as Hk.
  destruct (postgres.insert_notification n d) as [[e|] d']; cbn [fst snd] in *.
  - unfold postgres.wrapIDempotencyError. destruct e; try discriminate.
    destruct (_ && _); discriminate.
  - by apply IH.
Qed.

Section with_engine.
Context `{template.Engine}.

Lemma Create_kept input w : rows_kept w (app.Create input w).2.
Proof.
  unfold app.Create.
  assert (Hhit : ∀ w0, rows_kept w w0 →
            rows_kept w (match app.in_IdempotencyKey input with
                 | Some key =>
                     let '(found, existingID, _, w1) := postgres.Check key w0 in
                     (if found then Some existingID else None, w1)
                 | None => (None, w0)
                 end).2).
  { intros w0 Hw0. destruct (app.in_IdempotencyKey input) as [key|]; [|done].
    pose proof (Check_frame key w0) as (Hd & _).
    destruct (postgres.Check key w0) as [[[found existingID] err] w1]. cbn in *.
    eapply rows_kept_trans; [exact Hw0|]. apply rows_kept_eq. by rewrite Hd. }
  specialize (Hhit w (rows_kept_refl w)).
  destruct (match app.in_IdempotencyKey input with
            | Some key => _ | None => _ end) as [hit w0]. cbn [snd] in Hhit.
  destruct hit as [existingID|].
  { pose proof (GetByID_frame (default Nil (Parse existingID)) w0) as (Hd & _).
    eapply rows_kept_trans; [exact Hhit|]. apply rows_kept_eq. by rewrite Hd. }
  pose proof (content_of_frame input w0) as (Hd1 & _).
  destruct (app.content_of input w0) as [[err|content] w1]; cbn [fst snd] in *.
  { eapply rows_kept_trans; [exact Hhit|]. apply rows_kept_eq. by rewrite Hd1. }
  assert (H01 : rows_kept w w1).
  { eapply rows_kept_trans; [exact Hhit|]. apply rows_kept_eq. by rewrite Hd1. }
  unfold new_uuid.
  destruct (NewNotification _ _ _ _ _ _ _) as [err|created]; cbn [snd]; [done|].
  set (n := app.attach created None input).
  set (w1' := set_uuid_next w1 _).
  assert (H12 : rows_kept w1 (postgres.Create n w1').2).
  { unfold postgres.Create. destruct (io_frame w1') as (Hd & _).
    change (db w1') with (db w1) in Hd.
    destruct (io w1') as [[] w2]; cbn [fst snd] in *; [apply rows_kept_eq; by rewrite Hd|].
    intros k row Hrow. rewrite <- Hd in Hrow.
    pose proof (insert_notification_kept n (db w2) k row Hrow) as Hk.
    destruct (postgres.insert_notification n (db w2)) as [err d]. cbn in *. eauto. }
  destruct (postgres.Create n w1') as [[err|] w2]; cbn [fst snd] in *;
    [by eapply rows_kept_trans|].
  set (w3 := match app.in_IdempotencyKey input with
             | Some key => (postgres.SetNX key _ w2).2
             | None => w2
             end).
  assert (H23 : rows_kept w2 w3).
  { subst w3. destruct (app.in_IdempotencyKey input) as [key|]; [|apply rows_kept_refl].
    apply rows_kept_eq. apply SetNX_frame. }
  assert (H34 : rows_kept w3 (app.publish n w3).2).
  { unfold app.publish. destruct (ScheduledAt n); [apply rows_kept_refl|].
    apply rows_kept_eq. destruct (Enqueue_frame n w3) as (Hd & _). by rewrite Hd. }
  destruct (app.publish n w3) as [[err|] w4]; cbn [snd] in *;
    (eapply rows_kept_trans; [exact H01|]; eapply rows_kept_trans; [exact H12|];
     eapply rows_kept_trans; [exact H23|exact H34]).
Qed.

Lemma CreateBatch_kept inputs w : rows_kept w (app.CreateBatch inputs w).2.
Proof.
  unfold app.CreateBatch.
  case_bool_decide; [apply rows_kept_refl|]. case_bool_decide; [apply rows_kept_refl|].
  unfold new_uuid.
  set (w0 := set_uuid_next w (S (uuid_next w))).
  set (batchID := uuids w (uuid_next w)).
  destruct (build_cases batchID inputs w0) as [(Hd & _) _].
  change (db w0) with (db w) in Hd.
  destruct (app.build batchID inputs w0) as [[err|ns] w1]; cbn [fst snd] in *;
    [apply rows_kept_eq; by rewrite Hd|].
  assert (H01 : rows_kept w w1) by (apply rows_kept_eq; by rewrite Hd).
  match goal with |- context [postgres.CreateBatch ?b ns w1] => set (batch := b) end.
  assert (H12 : rows_kept w1 (postgres.CreateBatch batch ns w1).2).
  { unfold postgres.CreateBatch.
    destruct (io_frame w1) as (Hd1 & _).
    destruct (io w1) as [[] w2]; cbn [fst snd] in *; [apply rows_kept_eq; by rewrite Hd1|].
    destruct (io_frame w2) as (Hd2 & _).
    destruct (io w2) as [[] w3]; cbn [fst snd] in *;
      [apply rows_kept_eq; by rewrite Hd2, Hd1|].
    unfold postgres.insert_batch.
    destruct (notification_batches (db w3) !! batch_ID batch); cbn [fst snd];
      [apply rows_kept_eq; by rewrite Hd2, Hd1|].
    set (d := set_batches _ _).
    pose proof (insert_children_cases ns w3 d) as Hc. cbn zeta in Hc.
    destruct Hc as (Hd3 & _).
    pose proof (insert_children_kept ns w3 d) as Hk.
    destruct (postgres.insert_children ns w3 d) as [[[e|] w4] d4]; cbn [fst snd] in *;
      [apply rows_kept_eq; by rewrite Hd3, Hd2, Hd1|].
    destruct (io_frame w4) as (Hd4 & _).
    destruct (io w4) as [[] w5]; cbn [fst snd] in *;
      [apply rows_kept_eq; by rewrite Hd4, Hd3, Hd2, Hd1|].
    intros k row Hrow. cbn. exists row. split; [|done].
    apply Hk; [|done]. subst d. cbn. by rewrite Hd2, Hd1. }
  destruct (postgres.CreateBatch batch ns w1) as [[err|] w2]; cbn [fst snd] in *;
    [by eapply rows_kept_trans|].
  eapply rows_kept_trans; [exact H01|]. eapply rows_kept_trans; [exact H12|].
  apply rows_kept_eq. destruct (publish_all_cases ns w2) as (Hd2 & _). by rewrite Hd2.
Qed.

(** X20: no operation of the service deletes a notification or changes
    what it says.  Whatever the input, the provider and the I/O failures:
    after a create, a batch create, a cancel, a delivery, a run of the
    scheduler or a consumed message, every row there was is still stored
    under its key, with its id, batch, idempotency key, channel,
    recipient, content, priority, schedule, retry limit, template and
    creation time as they were. *)
Theorem rows_are_never_deleted_or_rewritten (w : World) :
  (∀ input, rows_kept w (app.Create input w).2)
  ∧ (∀ inputs, rows_kept w (app.CreateBatch inputs w).2)
  ∧ (∀ id, rows_kept w (app.Cancel id w).2)
  ∧ (∀ s, rows_kept w (app.ProcessDelivery s w).2)
  ∧ rows_kept w (app.tick w)
  ∧ (∀ msg, rows_kept w (queue.consume app.ProcessDelivery msg w)).
Proof.
  split; [intros; apply Create_kept|]. split; [intros; apply CreateBatch_kept|].
  split; [intros; apply Cancel_kept|]. split; [intros; apply ProcessDelivery_kept|].
  split.
  - unfold app.tick. eapply rows_kept_trans; [apply processScheduled_kept|].
    apply recoverStuck_kept.
  - intros msg. unfold queue.consume.
    assert (Hcommit : ∀ x, rows_kept x (queue.CommitMessages msg x)).
    { intros x. apply rows_kept_eq.
      unfold queue.CommitMessages. destruct (io_frame x) as (Hd & _).
      destruct (io x) as [[] x1]; cbn [fst snd] in *; cbn; by rewrite ?Hd. }
    assert (Hretry : ∀ x, rows_kept x (queue.retry msg x)).
    { intros x. apply rows_kept_eq.
      unfold queue.retry. destruct (io_frame x) as (Hd & _).
      destruct (io x) as [[] x1]; cbn [fst snd] in *; cbn; by rewrite ?Hd. }
    destruct (MValue msg) as [payload|raw]; [|apply Hcommit].
    pose proof (ProcessDelivery_kept (NotificationID payload) w) as Hp.
    destruct (app.ProcessDelivery (NotificationID payload) w) as [[err|] w1]; cbn [snd] in *.
    + eapply rows_kept_trans; [exact Hp|]. eapply rows_kept_trans; [apply Hretry|apply Hcommit].
    + eapply rows_kept_trans; [exact Hp|apply Hcommit].
Qed.

End with_engine.

End rows_kept.

(** ** The scheduler leaves the other rows alone *)

Section scheduler_frame.

Lemma foldl_promote_frame ns : ∀ w,
  clock (foldl app.promote w ns) = clock w
  ∧ (keyed (db w) → keyed (db (foldl app.promote w ns)))
  ∧ ∀ id, id ∉ ID <$> ns →
      notifications (db (foldl app.promote w ns)) !! id = notifications (db w) !! id.
Proof.
  induction ns as [|n ns IH]; intros w; cbn [foldl]; [done|].
  destruct (IH (app.promote w n)) as (Hk & Hkeyed & Hfr).
  destruct (promote_step w n) as (Hk1 & Hother & _).
  split; [congruence|]. split.
  - intros Hw. apply Hkeyed. unfold app.promote.
    pose proof (keyed_UpdateStatus (setStatus n StatusPending (clock w)) w Hw) as Hu.
    destruct (postgres.UpdateStatus _ w) as [[err|] w1]; cbn [snd] in *; [done|].
    destruct (Enqueue_frame (setStatus n StatusPending (clock w)) w1) as (Hd & _).
    by rewrite Hd.
  - intros id Hid. rewrite fmap_cons in Hid. apply not_elem_of_cons in Hid as [Hne Hid].
    rewrite Hfr by done. by apply Hother.
Qed.

Lemma sweep_frame (P : Notification → Prop) `{!∀ n, Decision (P n)}
    (R : relation Notification) `{!∀ a b, Decision (R a b)} (limit : nat)
    (w w1 : World) (id : UUID) (row : Notification) :
  keyed (db w) → db w1 = db w →
  notifications (db w) !! id = Some row →
  ¬ P row →
  let ns := take limit (merge_sort R (filter P (map_to_list (notifications (db w1))).*2)) in
  id ∉ ID <$> ns.
Proof.
  intros Hkeyed Hd Hrow HP ns Hin.
  apply list_elem_of_fmap in Hin as (n & Hid & Hn).
  assert (Hn' : n ∈ filter P (map_to_list (notifications (db w1))).*2).
  { rewrite <- (merge_sort_Permutation R). eapply subseteq_take. exact Hn. }
  apply list_elem_of_filter in Hn' as [HPn Hstored].
  rewrite Hd in Hstored. fold (rows w) in Hstored.
  apply elem_of_rows in Hstored as (k & Hk).
  pose proof (Hkeyed k n Hk) as Hidk. subst id. rewrite Hidk, Hk in Hrow.
  injection Hrow as ->. done.
Qed.

(** X21: a tick of the scheduler changes no row but those it is there
    for, whatever I/O fails: a stored row that is neither [scheduled] and
    due nor [processing] and untouched for five minutes (a delivered, a
    failed or a cancelled one, a pending one, one scheduled for later, one
    in delivery) is stored unchanged after both sweeps. *)
Theorem tick_leaves_other_rows (w : World) (id : UUID) (row : Notification) :
  keyed (db w) →
  notifications (db w) !! id = Some row →
  postgres.due (clock w) row = false →
  postgres.stuck (clock w) (5 * postgres.Minute) row = false →
  notifications (db (app.tick w)) !! id = Some row.
Proof.
  intros Hkeyed Hrow Hdue Hstuck. unfold app.tick.
  assert (H1 : keyed (db (app.processScheduled w))
               ∧ clock (app.processScheduled w) = clock w
               ∧ notifications (db (app.processScheduled w)) !! id = Some row).
  { unfold app.processScheduled, postgres.ListDueScheduled.
    destruct (io_frame w) as (Hd & _ & _ & _ & _ & Hk & _).
    destruct (io w) as [[] w1]; cbn [fst snd] in *; [by rewrite Hd|].
    destruct (foldl_promote_frame
                (take 100 (merge_sort postgres.by_scheduled_at
                   (filter (λ n, postgres.due (clock w1) n = true)
                      (map_to_list (notifications (db w1))).*2))) w1) as (Hk2 & Hkeyed2 & Hfr).
    split; [apply Hkeyed2; by rewrite Hd|]. split; [congruence|].
    rewrite Hfr, Hd; [done|].
    apply (sweep_frame _ _ _ w w1 id row Hkeyed Hd Hrow). rewrite Hk. congruence. }
  destruct H1 as (Hkeyed1 & Hk1 & Hrow1).
  set (w' := app.processScheduled w) in *.
  unfold app.recoverStuck, postgres.ListStuckProcessing.
  destruct (io_frame w') as (Hd & _ & _ & _ & _ & Hk & _).
  destruct (io w') as [[] w1]; cbn [fst snd] in *; [by rewrite Hd|].
  destruct (foldl_promote_frame
              (take 50 (merge_sort postgres.by_updated_at
                 (filter (λ n, postgres.stuck (clock w1) (5 * postgres.Minute) n = true)
                    (map_to_list (notifications (db w1))).*2))) w1) as (_ & _ & Hfr).
  rewrite Hfr, Hd; [done|].
  apply (sweep_frame _ _ _ w' w1 id row Hkeyed1 Hd Hrow1). rewrite Hk, Hk1. congruence.
Qed.

Lemma tick_leaves_other_rows_witness :
  let w := cases.world_of
             (cases.with_row (cases.scheduled_row 8%N 500)
                (cases.with_row (cases.row 7%N None StatusCancelled 0) cases.empty_db))
             cases.accepting [] in
  notifications (db (app.tick w)) !! 7%N = Some (cases.row 7%N None StatusCancelled 0).
Proof.
  intros w.
  apply (tick_leaves_other_rows w 7%N (cases.row 7%N None StatusCancelled 0));
    [|reflexivity|reflexivity|reflexivity].
  intros k row Hrow. cbn in Hrow.
  apply lookup_insert_Some in Hrow as [[<- <-] | [_ Hrow]]; [reflexivity|].
  apply lookup_insert_Some in Hrow as [[<- <-] | [_ Hrow]]; [reflexivity|].
  by rewrite lookup_empty in Hrow.
Defined.

End scheduler_frame.

(** ** Listing *)

Section listing.

Lemma page_size_bounds f : 1 ≤ postgres.page_size f ≤ 100.
Proof.
  unfold postgres.page_size.
  destruct (Z.leb_spec (f_PageSize f) 0); cbn [orb]; [lia|].
  destruct (Z.ltb_spec 100 (f_PageSize f)); lia.
Qed.

Lemma page_size_spec f :
  postgres.page_size f = if decide (1 ≤ f_PageSize f ≤ 100) then f_PageSize f else 20.
Proof.
  unfold postgres.page_size. case_decide as Hr.
  - destruct (Z.leb_spec (f_PageSize f) 0); [lia|].
    destruct (Z.ltb_spec 100 (f_PageSize f)); [lia|done].
  - destruct (Z.leb_spec (f_PageSize f) 0); [done|].
    destruct (Z.ltb_spec 100 (f_PageSize f)); [done|lia].
Qed.

(** What the list query returns. *)
Lemma List_selects (f : NotificationFilter) (w : World) (ns : list Notification) (w' : World) :
  postgres.List f w = (inr ns, w') →
  keyed (db w) →
  untouched w w'
  ∧ (Z.of_nat (length ns) ≤ postgres.page_size f)
  ∧ Forall (λ n, notifications (db w) !! ID n = Some n ∧ postgres.matches f n = true) ns
  ∧ StronglySorted postgres.newest_first ns
  ∧ NoDup (ID <$> ns)
  ∧ (∀ m, notifications (db w) !! ID m = Some m → postgres.matches f m = true → m ∉ ns →
       Z.of_nat (length ns) = postgres.page_size f
       ∧ Forall (λ n, postgres.newest_first n m) ns).
Proof.
  unfold postgres.List. intros Hlist Hkeyed.
  destruct (io_frame w) as (Hd & Hl & Hs & Hh & _).
  destruct (io w) as [[] w1]; cbn [fst snd] in *; [discriminate|].
  injection Hlist as <- <-. rewrite Hd. fold (rows w).
  pose proof (page_size_bounds f) as Hp.
  destruct (select_sorted postgres.newest_first (λ n, postgres.matches f n = true)
              (Z.to_nat (postgres.page_size f)) (rows w))
    as (Hlen & Hsel & Hsorted & Hold & Hnd).
  split; [by unfold untouched|]. split; [lia|].
  split; [|split; [done|split]].
  - eapply Forall_impl; [exact Hsel|]. intros n [Hn Hm]. split; [by apply stored_row|done].
  - apply Hnd. by apply rows_ids_NoDup.
  - intros m Hm Hmatch Hnot. destruct (Hold m) as [Hfull Hall]; [|done|done|].
    + apply elem_of_rows. eauto.
    + split; [lia|done].
Qed.

(** The conditions of the query, one by one. *)
Lemma matches_spec (f : NotificationFilter) (n : Notification) :
  postgres.matches f n = true
  ↔ (∀ s, f_Status f = Some s → status_string (NStatus n) = s)
    ∧ (∀ c, f_Channel f = Some c → NChannel n = c)
    ∧ (∀ b, f_BatchID f = Some b → BatchID n = Some b)
    ∧ (∀ t, f_DateFrom f = Some t → 1000 * (t / 1000) ≤ CreatedAt n)
    ∧ (∀ t, f_DateTo f = Some t → CreatedAt n ≤ 1000 * (t / 1000))
    ∧ (∀ c, f_Cursor f = Some c → (ID n < c)%N).
Proof.
  unfold postgres.matches, postgres.timestamptz. rewrite !andb_true_iff.
  destruct (f_Status f) as [s|], (f_Channel f) as [c|], (f_BatchID f) as [b|],
    (f_DateFrom f) as [t1|], (f_DateTo f) as [t2|], (f_Cursor f) as [cu|];
    rewrite ?bool_decide_eq_true, ?Z.leb_le, ?N.ltb_lt;
    (split;
     [intros (((((? & ?) & ?) & ?) & ?) & ?); repeat split; intros; simplify_eq; done
     |intros (H1 & H2 & H3 & H4 & H5 & H6); repeat split; eauto]).
Qed.

(** X22: a page of the list holds at most as many rows as the page size
    in force, which is the requested one if that is between 1 and 100 and
    20 otherwise.  Every row of the page is stored and meets every
    condition the filter sets: its status and its channel are the ones
    asked for, it belongs to the batch asked for, it was created no
    earlier than the lower and no later than the upper bound, each taken
    to the whole microsecond as the query parameter is, and its id is
    below the cursor.  No row comes twice; the newest created comes first,
    the larger id first among rows created together; and a stored row
    that meets the conditions is left out only of a full page whose rows
    all come before it in that order.  Listing changes nothing. *)
Theorem List_returns_the_newest_matching_rows (f : NotificationFilter) (w : World)
    (ns : list Notification) (w' : World) :
  postgres.List f w = (inr ns, w') →
  keyed (db w) →
  let size := if decide (1 ≤ f_PageSize f ≤ 100) then f_PageSize f else 20 in
  let meets (n : Notification) :=
    (∀ s, f_Status f = Some s → status_string (NStatus n) = s)
    ∧ (∀ c, f_Channel f = Some c → NChannel n = c)
    ∧ (∀ b, f_BatchID f = Some b → BatchID n = Some b)
    ∧ (∀ t, f_DateFrom f = Some t → 1000 * (t / 1000) ≤ CreatedAt n)
    ∧ (∀ t, f_DateTo f = Some t → CreatedAt n ≤ 1000 * (t / 1000))
    ∧ (∀ c, f_Cursor f = Some c → (ID n < c)%N) in
  let before (a b : Notification) :=
    CreatedAt b < CreatedAt a ∨ (CreatedAt a = CreatedAt b ∧ (ID b ≤ ID a)%N) in
  untouched w w'
  ∧ postgres.page_size f = size
  ∧ (Z.of_nat (length ns) ≤ size)
  ∧ Forall (λ n, notifications (db w) !! ID n = Some n ∧ meets n) ns
  ∧ (∀ c, f_Cursor f = Some c → Forall (λ n, (ID n < c)%N) ns)
  ∧ StronglySorted before ns
  ∧ NoDup (ID <$> ns)
  ∧ (∀ m, notifications (db w) !! ID m = Some m → meets m → m ∉ ns →
       Z.of_nat (length ns) = size ∧ Forall (λ n, before n m) ns).
Proof.
  intros Hlist Hkeyed size meets before.
  destruct (List_selects f w ns w' Hlist Hkeyed) as (Hu & Hlen & Hall & Hsorted & Hnd & Hold).
  assert (Hsize : postgres.page_size f = size) by apply page_size_spec.
  rewrite Hsize in Hlen, Hold.
  assert (Hmeets : Forall (λ n, notifications (db w) !! ID n = Some n ∧ meets n) ns).
  { eapply Forall_impl; [exact Hall|]. intros n [Hn Hm]. split; [done|].
    by apply matches_spec. }
  split; [done|]. split; [done|]. split; [done|]. split; [done|].
  split; [|split; [exact Hsorted|split; [done|]]].
  - intros c Hc. eapply Forall_impl; [exact Hmeets|].
    intros n (_ & _ & _ & _ & _ & _ & Hcur). by apply Hcur.
  - intros m Hm Hmm Hnot. apply Hold; [done| |done]. by apply matches_spec.
Qed.

Lemma List_returns_the_newest_matching_rows_witness :
  let w := cases.world_of
             (cases.with_row (cases.row 8%N None StatusPending 0)
                (cases.with_row (cases.row 7%N None StatusDelivered 0) cases.empty_db))
             cases.accepting [] in
  let f := {| f_Status := Some "delivered"; f_Channel := None; f_DateFrom := None;
              f_DateTo := None; f_BatchID := None; f_Cursor := None; f_PageSize := 0 |} in
  ∃ ns, (postgres.List f w).1 = inr ns ∧ Z.of_nat (length ns) ≤ 20
        ∧ cases.row 7%N None StatusDelivered 0 ∈ ns
        ∧ cases.row 8%N None StatusPending 0 ∉ ns.
Proof.
  intros w f.
  destruct (postgres.List f w) as [[e|ns] w'] eqn:Hlist; [vm_compute in Hlist; discriminate|].
  exists ns. split; [reflexivity|].
  destruct (List_returns_the_newest_matching_rows f w ns w' Hlist)
    as (_ & _ & Hlen & Hall & _ & _ & _ & Hold).
  - intros k row Hrow. cbn in Hrow.
    apply lookup_insert_Some in Hrow as [[<- <-] | [_ Hrow]]; [reflexivity|].
    apply lookup_insert_Some in Hrow as [[<- <-] | [_ Hrow]]; [reflexivity|].
    by rewrite lookup_empty in Hrow.
  - split; [exact Hlen|]. split.
    + destruct ns as [|n rest].
      * destruct (Hold (cases.row 7%N None StatusDelivered 0)) as [Hfull _].
        -- reflexivity.
        -- repeat split; intros ? [=]; subst; reflexivity.
        -- apply not_elem_of_nil.
        -- discriminate Hfull.
      * apply Forall_cons in Hall as [[Hn (Hst & _)] _]. cbn in Hn.
        apply lookup_insert_Some in Hn as [[_ <-] | [_ Hn]];
          [discriminate (Hst "delivered" eq_refl)|].
        apply lookup_insert_Some in Hn as [[_ <-] | [_ Hn]]; [by left|].
        by rewrite lookup_empty in Hn.
    + intros Hin. eapply Forall_forall in Hall as [_ (Hst & _)]; [|exact Hin].
      discriminate (Hst "delivered" eq_refl).
Defined.

(** X23: what the list handler answers.  It fails with 500 only when
    the query fails.  The cursor to the next page is given only when the
    page holds exactly as many rows as the request asked for, so never
    when the request left the page size out or asked for more than 100,
    although the query then runs with 20; the cursor is the id of the last
    row of the page.  The handler panics exactly when the request asked
    for a page of 0 and the page is empty. *)
Theorem ListHandler_answers (f : NotificationFilter) (w : World) :
  match (http.ListHandler f w).1 with
  | http.Failed code => code = 500 ∧ head (faults w) = Some true
  | http.Panic =>
      f_PageSize f = 0 ∧ ∃ w', postgres.List f w = (inr [], w')
  | http.Listed code body =>
      code = 200
      ∧ ∃ ns w', postgres.List f w = (inr ns, w')
          ∧ http.Data body = http.NewNotificationResponse <$> ns
          ∧ match http.NextCursor body with
            | Some c =>
                1 ≤ f_PageSize f ≤ 100 ∧ Z.of_nat (length ns) = f_PageSize f
                ∧ ∃ n, last ns = Some n ∧ c = uuid.String (ID n)
            | None => Z.of_nat (length ns) ≠ f_PageSize f
            end
  end.
Proof.
  unfold http.ListHandler.
  destruct (postgres.List f w) as [[e|ns] w'] eqn:Hlist; cbn [fst].
  - split; [done|]. unfold postgres.List, io in Hlist.
    destruct (faults w) as [|[] rest]; cbn in Hlist; try discriminate. done.
  - assert (Hlen : Z.of_nat (length ns) ≤ postgres.page_size f).
    { unfold postgres.List in Hlist. destruct (io w) as [[] w1]; [discriminate|].
      injection Hlist as <- <-. rewrite length_take.
      pose proof (page_size_bounds f). lia. }
    pose proof (page_size_bounds f) as Hp.
    unfold http.NewNotificationListResponse. case_bool_decide as Hfull.
    + destruct (last ns) as [n|] eqn:Hlast; cbn [fst].
      * split; [done|]. exists ns, w'. split; [done|]. split; [done|]. cbn.
        split; [|split; [done|by exists n]].
        destruct ns as [|x ns]; [discriminate Hlast|]. cbn [length] in *.
        rewrite page_size_spec in Hlen. case_decide; lia.
      * apply last_None in Hlast. subst ns. cbn in Hfull. split; [done|]. by exists w'.
    + cbn [fst]. split; [done|]. exists ns, w'. done.
Qed.

End listing.

(** ** Reading a batch back *)

Section batch_read_back.

Lemma insert_children_stored ns : ∀ w d,
  (postgres.insert_children ns w d).1.1 = None →
  Forall (λ n, notifications (postgres.insert_children ns w d).2 !! ID n
               = Some (postgres.inserted n)) ns.
Proof.
  induction ns as [|n ns IH]; intros w d; cbn [postgres.insert_children]; [constructor|].
  destruct (io w) as [[] w1]; cbn [fst snd]; [discriminate|].
  destruct (insert_notification_cases n d) as [[(code & cn & He) Heq] | (Hnone & Hfresh & Heq)];
    destruct (postgres.insert_notification n d) as [err d']; cbn [fst snd] in *; subst.
  - unfold postgres.wrapIDempotencyError. destruct (_ && _); discriminate.
  - intros Hok. constructor; [|by apply IH].
    apply insert_children_kept; [|done]. cbn. apply lookup_insert_eq.
Qed.

Context `{template.Engine}.

Lemma content_of_clock input w : clock (app.content_of input w).2 = clock w.
Proof.
  unfold app.content_of, postgres.GetTemplateByID.
  destruct (app.in_TemplateID input) as [templateID|]; [|done].
  destruct (io_frame w) as (_ & _ & _ & _ & _ & Hk & _).
  destruct (io w) as [[] w1]; cbn [fst snd] in *; [done|].
  destruct (templates (db w1) !! templateID); done.
Qed.

(** The children the first loop builds are new: nothing sent, failed or
    retried, made and last changed at the time of the clock. *)
Lemma build_fresh batchID inputs : ∀ w ns w',
  app.build batchID inputs w = (inr ns, w') →
  Forall (λ n, SentAt n = None ∧ FailedAt n = None ∧ ErrorMessage n = None
               ∧ RetryCount n = 0 ∧ ProviderMessageID n = None
               ∧ CreatedAt n = clock w ∧ UpdatedAt n = clock w) ns.
Proof.
  induction inputs as [|input inputs IH]; intros w ns w'; cbn [app.build].
  - intros [= <- <-]. constructor.
  - pose proof (content_of_clock input w) as Hk.
    destruct (app.content_of input w) as [[err|content] w1]; [discriminate|].
    cbn [snd] in Hk. unfold new_uuid.
    destruct (NewNotification _ _ _ _ _ _ _) as [err|created] eqn:Hnew; [discriminate|].
    destruct (app.build batchID inputs _) as [[err|ns'] w2] eqn:Hrest; [discriminate|].
    intros [= <- <-]. constructor.
    + revert Hnew. unfold NewNotification.
      destruct (validateChannel _); [discriminate|].
      destruct (validateRecipient _ _); [discriminate|].
      destruct (validateContent _ _); [discriminate|].
      destruct (validatePriority _); [discriminate|].
      intros [= <-]. cbn. by rewrite Hk.
    + apply IH in Hrest. cbn [clock set_uuid_next] in Hrest. by rewrite Hk in Hrest.
Qed.

(** X24: a batch that was created can be read back: with no I/O failure
    at the read, [GetBatchByID] returns a batch whose total and pending
    counts are the number of inputs and whose other counters are 0, so its
    counters add up to its total.  Every child the create returned was
    made at the time of the clock, to the nanosecond, and is stored under
    its id as returned but for its time stamps (created, updated and
    scheduled), which the table keeps to the whole microsecond: a read of
    the id returns the child with these three cut. *)
Theorem CreateBatch_reads_back (inputs : list app.CreateNotificationInput)
    (batch : NotificationBatch) (ns : list Notification) (w w' : World) :
  app.CreateBatch inputs w = (inr (batch, ns), w') →
  faults w' = [] →
  (∃ stored, (postgres.GetBatchByID (batch_ID batch) w').1 = inr stored
     ∧ batch_ID stored = batch_ID batch
     ∧ TotalCount stored = Z.of_nat (length inputs)
     ∧ PendingCount stored = Z.of_nat (length inputs)
     ∧ DeliveredCount stored = 0 ∧ FailedCount stored = 0 ∧ CancelledCount stored = 0
     ∧ tally stored = TotalCount stored)
  ∧ Forall (λ n,
              CreatedAt n = clock w ∧ UpdatedAt n = clock w
              ∧ (postgres.GetByID (ID n) w').1
                = inr {| ID := ID n; BatchID := BatchID n;
                         IdempotencyKey := IdempotencyKey n; NChannel := NChannel n;
                         Recipient := Recipient n; Content := Content n;
                         NPriority := NPriority n; NStatus := NStatus n;
                         ScheduledAt := (λ t, 1000 * (t / 1000)) <$> ScheduledAt n;
                         SentAt := SentAt n; FailedAt := FailedAt n;
                         ErrorMessage := ErrorMessage n; RetryCount := RetryCount n;
                         MaxRetries := MaxRetries n;
                         ProviderMessageID := ProviderMessageID n;
                         TemplateID := TemplateID n;
                         TemplateVariables := TemplateVariables n;
                         CreatedAt := 1000 * (clock w / 1000);
                         UpdatedAt := 1000 * (clock w / 1000) |}) ns.
Proof.
  unfold app.CreateBatch.
  case_bool_decide; [discriminate|]. case_bool_decide; [discriminate|].
  unfold new_uuid.
  set (w0 := set_uuid_next w (S (uuid_next w))).
  set (batchID := uuids w (uuid_next w)).
  destruct (app.build batchID inputs w0) as [[err|ns0] w1] eqn:Hbuild; [discriminate|].
  pose proof (build_fresh _ _ _ _ _ Hbuild) as Hnew.
  change (clock w0) with (clock w) in Hnew.
  match goal with |- context [postgres.CreateBatch ?b ns0 w1] => set (b0 := b) end.
  pose proof (CreateBatch_tx_cases b0 ns0 w1) as Htx. cbn zeta in Htx.
  assert (Hstored : (postgres.CreateBatch b0 ns0 w1).1 = None →
            Forall (λ n, notifications (db (postgres.CreateBatch b0 ns0 w1).2) !! ID n
                         = Some (postgres.inserted n)) ns0).
  { unfold postgres.CreateBatch.
    destruct (io w1) as [[] w2]; cbn [fst snd]; [discriminate|].
    destruct (io w2) as [[] w3]; cbn [fst snd]; [discriminate|].
    destruct (postgres.insert_batch b0 (db w3)) as [[e|] d]; cbn [fst snd]; [discriminate|].
    pose proof (insert_children_stored ns0 w3 d) as Hc.
    destruct (postgres.insert_children ns0 w3 d) as [[[e|] w4] d4]; cbn [fst snd] in *;
      [discriminate|].
    destruct (io w4) as [[] w5]; cbn [fst snd]; [discriminate|].
    intros _. cbn. by apply Hc. }
  destruct (postgres.CreateBatch b0 ns0 w1) as [[err|] w2]; cbn [fst snd] in *; [discriminate|].
  destruct Htx as (_ & _ & Hbat & _).
  destruct (publish_all_cases ns0 w2) as (Hd3 & _).
  intros [= <- <- <-] Hq. split.
  - exists (postgres.inserted_batch b0).
    unfold postgres.GetBatchByID. rewrite io_quiet by done. cbn [fst snd].
    rewrite Hd3, Hbat, lookup_insert_eq. cbn. unfold tally. cbn. repeat split; lia.
  - specialize (Hstored eq_refl).
    apply Forall_forall. intros n Hn.
    pose proof (proj1 (Forall_forall _ _) Hstored n Hn) as Hs.
    pose proof (proj1 (Forall_forall _ _) Hnew n Hn)
      as (Hsent & Hfailed & Herr & Hretry & Hpid & Hcr & Hup).
    cbn in Hs. split; [done|]. split; [done|].
    rewrite GetByID_quiet by done. rewrite Hd3, Hs.
    unfold postgres.inserted, postgres.timestamptz.
    by rewrite Hsent, Hfailed, Herr, Hretry, Hpid, Hcr, Hup.
Qed.

End batch_read_back.

Lemma CreateBatch_reads_back_witness :
  let w := cases.at_time 1234567 (cases.world_of cases.empty_db cases.accepting []) in
  ∃ batch ns w', app.CreateBatch [cases.sms None None; cases.sms None (Some 5000)] w
                 = (inr (batch, ns), w')
    ∧ (∃ stored, (postgres.GetBatchByID (batch_ID batch) w').1 = inr stored
                 ∧ tally stored = 2)
    ∧ Forall (λ n, CreatedAt n = 1234567
                   ∧ ∃ row, (postgres.GetByID (ID n) w').1 = inr row
                            ∧ CreatedAt row = 1234000) ns.
Proof.
  intros w.
  destruct (app.CreateBatch [cases.sms None None; cases.sms None (Some 5000)] w)
    as [[e|[batch ns]] w'] eqn:Hc; [vm_compute in Hc; discriminate Hc|].
  exists batch, ns, w'. split; [reflexivity|].
  destruct (CreateBatch_reads_back _ batch ns w w' Hc)
    as [(stored & Hget & _ & Ht & _ & _ & _ & _ & Htally) Hall].
  - vm_compute in Hc. injection Hc as <- <- <-. reflexivity.
  - split.
    + exists stored. split; [exact Hget|]. rewrite Htally, Ht. reflexivity.
    + eapply Forall_impl; [exact Hall|]. intros n (Hcr & _ & Hrow).
      split; [exact Hcr|]. eexists. split; [exact Hrow|reflexivity].
Defined.

(** ** Templates *)

Section template_service.
Context `{template.Engine}.

(** X25: the template service stores only templates that are well
    formed.  If a create returns a template, its name and body are the
    request's and are not empty, its channel is one of the three, and its
    body parses as the body of a template named [validate].  [Render]
    parses it again under the name of the template itself: when that
    gives the same tree, as it does in an engine where the name of the
    root plays no part, rendering can fail only while the body is
    executed, never on its syntax.  If the validation fails, the create
    returns that error, which the handler answers with 400, and nothing
    is stored and no id is drawn. *)
Theorem TemplateService_stores_only_parsed_bodies (input : app.CreateTemplateInput)
    (w : World) :
  match NewTemplate (app.tin_Name input) (app.tin_Channel input) (app.tin_Body input)
          (uuids w (uuid_next w)) with
  | inl e => app.CreateTemplate input w = (inl e, w) ∧ http.handleDomainError e = 400
  | inr t =>
      tmpl_Name t = app.tin_Name input ∧ tmpl_Body t = app.tin_Body input
      ∧ tmpl_Channel t = app.tin_Channel input ∧ tmpl_ID t = uuids w (uuid_next w)
      ∧ tmpl_Name t ≠ "" ∧ tmpl_Body t ≠ ""
      ∧ tmpl_Channel t ∈ [ChannelSMS; ChannelEmail; ChannelPush]
      ∧ (∃ tr, template.Parse "validate" (tmpl_Body t) = inr tr
           ∧ (template.Parse (tmpl_Name t) (tmpl_Body t) = inr tr →
              ∀ vars, Render t vars
                      = match template.Execute tr vars with
                        | inl msg => inl (Wrapf ErrTemplateRenderFailed msg)
                        | inr out => inr out
                        end))
      ∧ ∀ r w', app.CreateTemplate input w = (inr r, w') →
          r = t ∧ templates (db w') !! tmpl_ID t = Some t
  end.
Proof.
  unfold app.CreateTemplate, new_uuid.
  destruct (NewTemplate _ _ _ _) as [e|t] eqn:Hnew.
  - split; [done|]. revert Hnew. unfold NewTemplate, validateChannel.
    repeat case_match; intros [= <-]; simplify_eq; reflexivity.
  - revert Hnew. unfold NewTemplate.
    case_bool_decide as Hname; [discriminate|].
    destruct (validateChannel (app.tin_Channel input)) eqn:Hch; [discriminate|].
    case_bool_decide as Hbody; [discriminate|].
    destruct (template.Parse "validate" (app.tin_Body input)) as [msg|tr] eqn:Hparse;
      [discriminate|].
    intros [= <-]. cbn [tmpl_Name tmpl_Body tmpl_Channel tmpl_ID].
    split; [done|]. split; [done|]. split; [done|]. split; [done|].
    split; [done|]. split; [done|]. split.
    { unfold validateChannel in Hch. set_unfold.
      repeat case_bool_decide; cbn in Hch; try discriminate; auto. }
    split.
    { exists tr. split; [done|]. intros Hown vars. unfold Render. cbn [tmpl_Name tmpl_Body].
      by rewrite Hown. }
    intros r w'. unfold postgres.CreateTemplate.
    destruct (io _) as [[] w1]; cbn [fst snd]; [discriminate|].
    cbn [tmpl_ID tmpl_Name].
    destruct (templates (db w1) !! uuids w (uuid_next w)); cbn.
    { discriminate. }
    destruct (postgres.name_taken _ _); cbn; [discriminate|].
    intros [= <- <-]. split; [done|]. cbn. apply lookup_insert_eq.
Qed.

End template_service.

(** With the engine of the declared grammar a valid template is stored,
    and rendering it does not fail on its syntax. *)
Lemma TemplateService_stores_only_parsed_bodies_witness :
  let w := cases.world_of cases.empty_db cases.accepting [] in
  let input := {| app.tin_Name := "welcome"; app.tin_Channel := ChannelSMS;
                  app.tin_Body := "Hello {{.Name}}" |} in
  ∃ t tr, app.CreateTemplate input w
          = (inr t, (app.CreateTemplate input w).2)
     ∧ templates (db (app.CreateTemplate input w).2) !! tmpl_ID t = Some t
     ∧ template.Parse "validate" (tmpl_Body t) = inr tr
     ∧ ∀ vars, Render t vars
               = match template.Execute tr vars with
                 | inl msg => inl (Wrapf ErrTemplateRenderFailed msg)
                 | inr out => inr out
                 end.
Proof.
  intros w input.
  pose proof (TemplateService_stores_only_parsed_bodies input w) as Hx.
  destruct (NewTemplate (app.tin_Name input) (app.tin_Channel input) (app.tin_Body input)
              (uuids w (uuid_next w))) as [e|t] eqn:Hnew;
    [vm_compute in Hnew; discriminate Hnew|].
  destruct Hx as (_ & _ & _ & _ & _ & _ & _ & (tr & Hp & Hr) & Hst).
  destruct (app.CreateTemplate input w) as [[e|r] w'] eqn:Hc;
    [vm_compute in Hc; discriminate Hc|].
  destruct (Hst r w' eq_refl) as [-> Hrow].
  exists t, tr. split; [reflexivity|]. split; [exact Hrow|]. split; [exact Hp|].
  apply Hr. exact Hp.
Defined.

(** ** Template names are unique *)

Section template_names.

Lemma name_taken_spec (m : gmap UUID Template) (name : string) :
  postgres.name_taken m name = true ↔ ∃ id t, m !! id = Some t ∧ tmpl_Name t = name.
Proof.
  unfold postgres.name_taken. rewrite existsb_exists. split.
  - intros (t & Hin & Hk). apply bool_decide_eq_true in Hk.
    apply list_elem_of_In, list_elem_of_fmap in Hin as ([id t'] & -> & Hin).
    apply elem_of_map_to_list in Hin. eauto.
  - intros (id & t & Ht & Hk). exists t. split; [|by apply bool_decide_eq_true].
    apply list_elem_of_In, list_elem_of_fmap. exists (id, t). split; [done|].
    by apply elem_of_map_to_list.
Qed.

(** X26: a template whose name a stored template has is refused: with
    no I/O failure, a create that passes the validation and draws a fresh
    id returns [ErrDuplicateTemplateName], which the handler answers with
    409, and the tables are as they were, so the template that holds the
    name is still the one stored. *)
Theorem duplicate_template_name_is_a_conflict `{template.Engine}
    (input : app.CreateTemplateInput) (t held : Template) (k : UUID) (w : World) :
  faults w = [] →
  templates (db w) !! k = Some held →
  tmpl_Name held = app.tin_Name input →
  NewTemplate (app.tin_Name input) (app.tin_Channel input) (app.tin_Body input)
    (uuids w (uuid_next w)) = inr t →
  templates (db w) !! uuids w (uuid_next w) = None →
  (app.CreateTemplate input w).1 = inl (Sentinel ErrDuplicateTemplateName)
  ∧ http.handleDomainError (Sentinel ErrDuplicateTemplateName) = 409
  ∧ untouched w (app.CreateTemplate input w).2
  ∧ (postgres.GetTemplateByID k (app.CreateTemplate input w).2).1 = inr held.
Proof.
  intros Hq Hheld Hname Hnew Hfresh.
  assert (Ht : tmpl_ID t = uuids w (uuid_next w) ∧ tmpl_Name t = app.tin_Name input).
  { revert Hnew. unfold NewTemplate. repeat case_match; try discriminate.
    intros [= <-]. done. }
  destruct Ht as [Hid Hn].
  assert (Heq : app.CreateTemplate input w
                = (inl (Sentinel ErrDuplicateTemplateName),
                   set_uuid_next w (S (uuid_next w)))).
  { unfold app.CreateTemplate, new_uuid. rewrite Hnew.
    unfold postgres.CreateTemplate. rewrite io_quiet by done.
    cbn [db set_uuid_next]. rewrite Hid, Hfresh, Hn.
    replace (postgres.name_taken (templates (db w)) (app.tin_Name input)) with true
      by (symmetry; apply name_taken_spec; eauto).
    reflexivity. }
  rewrite Heq. cbn [fst snd]. split; [done|]. split; [done|]. split; [by unfold untouched|].
  unfold postgres.GetTemplateByID. rewrite io_quiet by done. cbv beta iota.
  change (db (set_uuid_next w (S (uuid_next w)))) with (db w).
  destruct (templates (db w) !! k); [by injection Hheld as ->|discriminate Hheld].
Qed.

End template_names.

Lemma duplicate_template_name_is_a_conflict_witness :
  let w := cases.world_of (cases.with_template cases.greeting cases.empty_db)
             cases.accepting [] in
  let input := {| app.tin_Name := "welcome"; app.tin_Channel := ChannelEmail;
                  app.tin_Body := "Hi {{.Name}}" |} in
  (app.CreateTemplate input w).1 = inl (Sentinel ErrDuplicateTemplateName).
Proof.
  intros w input.
  destruct (NewTemplate "welcome" ChannelEmail "Hi {{.Name}}" 100%N) as [e|t] eqn:Hnew;
    [vm_compute in Hnew; discriminate Hnew|].
  apply (duplicate_template_name_is_a_conflict input t cases.greeting 50%N w);
    [reflexivity|reflexivity|reflexivity|exact Hnew|reflexivity].
Defined.

(** ** Paging through the list *)

Section paging.

Lemma sorted_last {A} (R : relation A) (l : list A) (c : A) :
  StronglySorted R l → last l = Some c → ∀ n, n ∈ l → n = c ∨ R n c.
Proof.
  induction 1 as [|x l Hl IH Hx]; intros Hlast n Hn; [by apply elem_of_nil in Hn|].
  destruct l as [|y l].
  - cbn in Hlast. injection Hlast as <-. apply list_elem_of_singleton in Hn. by left.
  - change (last (x :: y :: l)) with (last (y :: l)) in Hlast.
    apply elem_of_cons in Hn as [->|Hn]; [|by apply IH].
    right. eapply Forall_forall in Hx; [exact Hx|].
    apply last_Some_elem_of. done.
Qed.

Lemma newest_first_ids w a b :
  ids_follow_creation w → a ∈ rows w → b ∈ rows w →
  postgres.newest_first a b → (ID b ≤ ID a)%N.
Proof.
  intros Hids Ha Hb [Hlt | [_ Hle]]; [|done].
  apply N.lt_le_incl. by apply Hids.
Qed.

Lemma matches_next_page f c m :
  postgres.matches (next_page f c) m = true
  ↔ (∃ f0, postgres.matches f0 m = true ∧ next_page f0 c = next_page f c)
    ∧ (ID m < c)%N.
Proof.
  unfold postgres.matches. cbn [next_page f_Status f_Channel f_BatchID f_DateFrom f_DateTo
    f_Cursor]. rewrite !andb_true_iff, N.ltb_lt. split.
  - intros [H1 Hc]. split; [|done]. exists (next_page f c). split; [|done].
    cbn [next_page f_Status f_Channel f_BatchID f_DateFrom f_DateTo f_Cursor].
    rewrite !andb_true_iff, N.ltb_lt. done.
  - intros [(f0 & H0 & Heq) Hc]. split; [|done].
    apply (f_equal f_Status) in Heq as Hs. apply (f_equal f_Channel) in Heq as Hch.
    apply (f_equal f_BatchID) in Heq as Hb. apply (f_equal f_DateFrom) in Heq as Hf.
    apply (f_equal f_DateTo) in Heq as Ht. cbn in Hs, Hch, Hb, Hf, Ht.
    rewrite <- Hs, <- Hch, <- Hb, <- Hf, <- Ht.
    rewrite !andb_true_iff in H0. tauto.
Qed.

(** X27: paging with the cursor.  Where the ids of the stored rows grow
    with their creation times, the page asked for with the cursor of a
    page continues it: every row of the next page comes after every row
    of the first in the order of the list, so no row comes twice; and a
    stored row that meets the filter and is in neither page is left out
    only because the next page is full with rows that come before it, so
    no row is passed over.  (The cursor compares ids while the order is by
    creation time, which is why the two have to agree.) *)
Theorem next_page_continues_the_list (f : NotificationFilter) (w w1 w2 w3 : World)
    (page1 page2 : list Notification) (c : Notification) :
  keyed (db w) →
  ids_follow_creation w →
  postgres.List f w = (inr page1, w1) →
  last page1 = Some c →
  db w2 = db w →
  postgres.List (next_page f (ID c)) w2 = (inr page2, w3) →
  (∀ n m, n ∈ page1 → m ∈ page2 → (ID m < ID n)%N ∧ postgres.newest_first n m)
  ∧ (∀ m, notifications (db w) !! ID m = Some m → postgres.matches f m = true →
       m ∉ page1 → m ∉ page2 →
       Z.of_nat (length page2) = postgres.page_size f
       ∧ Forall (λ n, postgres.newest_first n m) page2).
Proof.
  intros Hkeyed Hids H1 Hlast Hd2 H2.
  assert (Hkeyed2 : keyed (db w2)) by (by rewrite Hd2).
  destruct (List_selects f w page1 w1 H1 Hkeyed) as (_ & _ & Hall1 & Hsorted1 & _ & Hold1).
  destruct (List_selects _ w2 page2 w3 H2 Hkeyed2) as (_ & _ & Hall2 & _ & _ & Hold2).
  rewrite Hd2 in Hall2, Hold2.
  assert (Hstored : ∀ n, notifications (db w) !! ID n = Some n → n ∈ rows w).
  { intros n Hn. apply elem_of_rows. eauto. }
  assert (Hc : c ∈ page1) by (by apply last_Some_elem_of).
  assert (Hcrow : notifications (db w) !! ID c = Some c).
  { eapply Forall_forall in Hall1 as [? _]; done. }
  split.
  - intros n m Hn Hm.
    eapply Forall_forall in Hall1 as [Hnrow Hnm]; [|exact Hn].
    eapply Forall_forall in Hall2 as [Hmrow Hmm]; [|exact Hm].
    apply matches_next_page in Hmm as [_ Hlt].
    assert (Hcn : (ID c ≤ ID n)%N).
    { destruct (sorted_last _ _ _ Hsorted1 Hlast n Hn) as [->|Hnc]; [lia|].
      eapply newest_first_ids; eauto. }
    split; [lia|].
    unfold postgres.newest_first.
    destruct (Z.lt_trichotomy (CreatedAt m) (CreatedAt n)) as [?|[Heq|Hgt]]; [by left| |].
    + right. split; [done|]. lia.
    + exfalso. pose proof (Hids n m (Hstored n Hnrow) (Hstored m Hmrow) Hgt). lia.
  - intros m Hmrow Hmatch Hnot1 Hnot2.
    destruct (Hold1 m Hmrow Hmatch Hnot1) as [_ Hbefore].
    eapply Forall_forall in Hbefore; [|exact Hc].
    assert (Hle : (ID m ≤ ID c)%N) by (eapply newest_first_ids; eauto).
    assert (Hne : ID m ≠ ID c).
    { intros Heq. rewrite Heq, Hcrow in Hmrow. injection Hmrow as ->. done. }
    destruct (Hold2 m Hmrow) as [Hfull Hall]; [|done|].
    + apply matches_next_page. split; [by exists f|]. lia.
    + split; [|done]. rewrite Hfull. unfold postgres.page_size. reflexivity.
Qed.

Lemma next_page_continues_the_list_witness :
  let w := cases.world_of
             (cases.with_row (cases.row 9%N None StatusPending 0)
                (cases.with_row (cases.row 8%N None StatusPending 0)
                   (cases.with_row (cases.row 7%N None StatusDelivered 0) cases.empty_db)))
             cases.accepting [] in
  let f := {| f_Status := None; f_Channel := None; f_DateFrom := None;
              f_DateTo := None; f_BatchID := None; f_Cursor := None; f_PageSize := 2 |} in
  let page1 := [cases.row 9%N None StatusPending 0; cases.row 8%N None StatusPending 0] in
  let page2 := [cases.row 7%N None StatusDelivered 0] in
  (postgres.List f w).1 = inr page1
  ∧ (postgres.List (next_page f 8%N) w).1 = inr page2
  ∧ ∀ n m, n ∈ page1 → m ∈ page2 → (ID m < ID n)%N ∧ postgres.newest_first n m.
Proof.
  intros w f page1 page2.
  split; [vm_compute; reflexivity|]. split; [vm_compute; reflexivity|].
  assert (Hkeyed : keyed (db w)).
  { intros k row Hrow. cbn in Hrow.
    apply lookup_insert_Some in Hrow as [[<- <-] | [_ Hrow]]; [reflexivity|].
    apply lookup_insert_Some in Hrow as [[<- <-] | [_ Hrow]]; [reflexivity|].
    apply lookup_insert_Some in Hrow as [[<- <-] | [_ Hrow]]; [reflexivity|].
    by rewrite lookup_empty in Hrow. }
  assert (Hids : ids_follow_creation w).
  { intros a b Ha Hb Hlt. exfalso.
    apply elem_of_rows in Ha as (ka & Ha). apply elem_of_rows in Hb as (kb & Hb).
    cbn in Ha, Hb.
    assert (Hzero : ∀ k x, (<[9%N := cases.row 9%N None StatusPending 0]>
                              (<[8%N := cases.row 8%N None StatusPending 0]>
                                 (<[7%N := cases.row 7%N None StatusDelivered 0]> ∅))
                              : gmap UUID Notification) !! k = Some x → CreatedAt x = 0).
    { intros k x Hx.
      apply lookup_insert_Some in Hx as [[_ <-] | [_ Hx]]; [reflexivity|].
      apply lookup_insert_Some in Hx as [[_ <-] | [_ Hx]]; [reflexivity|].
      apply lookup_insert_Some in Hx as [[_ <-] | [_ Hx]]; [reflexivity|].
      by rewrite lookup_empty in Hx. }
    rewrite (Hzero ka a Ha), (Hzero kb b Hb) in Hlt. lia. }
  apply (proj1 (next_page_continues_the_list f w w w w page1 page2
                  (cases.row 8%N None StatusPending 0) Hkeyed Hids
                  ltac:(vm_compute; reflexivity) eq_refl eq_refl
                  ltac:(vm_compute; reflexivity))).
Defined.

End paging.
